(** * BagHandler (bagitutils.py): table normaliser and bundle packager

    A shallow embedding of [BagHandler] from [bagitutils.py]: the pandas
    frames it reshapes, the exceptions it lets through, and the file system
    it writes the bag to.

    Conventions.
    - A cell is a string or pandas' missing value [NaN].
    - A frame is its list of column labels and its rows, each row with its
      index label; a series is a name and labelled values.
    - A Python exception is a value of [exn]; a call that can raise returns
      a [result].
    - Strings are byte strings, and labels are ASCII text: [lower] folds
      the letters A-Z, as [str.lower] does on such text.  Labels with other
      letters are outside the model.
    - What the libraries do that the source leaves open is a parameter: the
      checksum algorithms of the installed [bagit], the order in which the
      file system lists a directory, the steps at which it fails. *)

From Stdlib Require Import String Ascii List Bool Arith PeanoNat Lia.
From Stdlib Require Import DecimalString Permutation.
Import ListNotations.
Open Scope string_scope.
Open Scope list_scope.

(** ** Exceptions *)

Inductive exn : Type :=
| KeyError (labels : list string)   (* a column label that is not there *)
| IndexError                         (* list or array index out of range *)
| ValueError                         (* reindex from a duplicate axis *)
| IOError.                           (* a file-system call that failed *)

Inductive result (A : Type) : Type :=
| Ok (a : A)
| Raise (e : exn).

Arguments Ok {A} a.
Arguments Raise {A} e.

Definition bind {A B} (r : result A) (k : A -> result B) : result B :=
  match r with
  | Ok a => k a
  | Raise e => Raise e
  end.

Notation "x <- c ;; k" := (bind c (fun x => k))
  (at level 61, c at next level, right associativity).

Definition is_ok {A} (r : result A) : bool :=
  match r with Ok _ => true | Raise _ => false end.

(** ** Cells, labels, frames *)

Inductive cell : Type :=
| NaN
| Str (s : string).

Definition cell_eqb (a b : cell) : bool :=
  match a, b with
  | NaN, NaN => true
  | Str s, Str t => String.eqb s t
  | _, _ => false
  end.

(** Elementwise [==] of pandas: a missing value equals nothing. *)
Definition cell_is (v : string) (c : cell) : bool :=
  match c with
  | Str s => String.eqb s v
  | NaN => false
  end.

Fixpoint row_eqb (r1 r2 : list cell) : bool :=
  match r1, r2 with
  | [], [] => true
  | a :: r1', b :: r2' => cell_eqb a b && row_eqb r1' r2'
  | _, _ => false
  end.

Inductive label : Type :=
| ILoc (n : nat)
| SLoc (s : string).

Definition label_eqb (a b : label) : bool :=
  match a, b with
  | ILoc n, ILoc m => Nat.eqb n m
  | SLoc s, SLoc t => String.eqb s t
  | _, _ => false
  end.

(** Python's [str] on an index label. *)
Definition str (l : label) : string :=
  match l with
  | ILoc n => NilZero.string_of_uint (Nat.to_uint n)
  | SLoc s => s
  end.

Record DataFrame : Type := mkDataFrame {
  columns : list string;
  body : list (label * list cell)
}.

Record Series : Type := mkSeries {
  name : string;
  items : list (label * cell)
}.

Definition index (df : DataFrame) : list label := map fst (body df).
Definition data (df : DataFrame) : list (list cell) := map snd (body df).
Definition values (s : Series) : list cell := map snd (items s).

(** A frame as pandas builds it: distinct column labels, and every row as
    wide as the header. *)
Definition well_formed (df : DataFrame) : Prop :=
  NoDup (columns df) /\
  Forall (fun r => length (snd r) = length (columns df)) (body df).

(** ** The pandas operations [BagHandler] uses *)

Fixpoint col_pos (k : string) (cols : list string) : option nat :=
  match cols with
  | [] => None
  | c :: cols' =>
      if String.eqb c k then Some 0
      else option_map S (col_pos k cols')
  end.

Definition has_col (k : string) (cols : list string) : bool :=
  match col_pos k cols with Some _ => true | None => false end.

Definition at_pos (j : nat) (r : list cell) : cell := nth j r NaN.

(** [df[k]] *)
Definition getitem (df : DataFrame) (k : string) : result Series :=
  match col_pos k (columns df) with
  | None => Raise (KeyError [k])
  | Some j => Ok (mkSeries k (map (fun lr => (fst lr, at_pos j (snd lr))) (body df)))
  end.

(** [s == v], as a positional mask *)
Definition eq_scalar (s : Series) (v : string) : list bool :=
  map (cell_is v) (values s).

(** [df[mask]]: the rows the mask selects, with their labels. *)
Definition getitem_bool (df : DataFrame) (mask : list bool) : DataFrame :=
  mkDataFrame (columns df)
    (map snd (filter fst (combine mask (body df)))).

Definition select (cols : list string) (ks : list string) (r : list cell)
  : list cell :=
  map (fun k => match col_pos k cols with
                | Some j => at_pos j r
                | None => NaN
                end) ks.

(** [df[[k1, ..., kn]]] *)
Definition getitem_list (df : DataFrame) (ks : list string)
  : result DataFrame :=
  match filter (fun k => negb (has_col k (columns df))) ks with
  | [] => Ok (mkDataFrame ks
               (map (fun lr => (fst lr, select (columns df) ks (snd lr)))
                    (body df)))
  | missing => Raise (KeyError missing)
  end.

Fixpoint assoc (k : string) (m : list (string * string)) : option string :=
  match m with
  | [] => None
  | (a, b) :: m' => if String.eqb a k then Some b else assoc k m'
  end.

(** A [columns={...}] mapper: labels outside the dict are kept. *)
Definition mapper (m : list (string * string)) (c : string) : string :=
  match assoc c m with
  | Some c' => c'
  | None => c
  end.

(** [df.rename(columns=f)] *)
Definition rename_columns (f : string -> string) (df : DataFrame)
  : DataFrame :=
  mkDataFrame (map f (columns df)) (body df).

(** [df.rename(index=str)] *)
Definition rename_index_str (df : DataFrame) : DataFrame :=
  mkDataFrame (columns df)
    (map (fun lr => (SLoc (str (fst lr)), snd lr)) (body df)).

(** [df.reset_index(drop=True)] *)
Definition reset_index (df : DataFrame) : DataFrame :=
  mkDataFrame (columns df)
    (combine (map ILoc (seq 0 (length (body df)))) (data df)).

Fixpoint row_of (l : label) (b : list (label * list cell))
  : option (list cell) :=
  match b with
  | [] => None
  | (l', r) :: b' => if label_eqb l' l then Some r else row_of l b'
  end.

(** The row of [df] at label [l] after [df.reindex(ax)]: missing labels are
    filled with [NaN]. *)
Definition row_at (df : DataFrame) (l : label) : list cell :=
  match row_of l (body df) with
  | Some r => r
  | None => repeat NaN (length (columns df))
  end.

(** [pd.concat(frames, axis=1, join_axes=[ax])] *)
Definition concat_axis1 (frames : list DataFrame) (ax : list label)
  : DataFrame :=
  mkDataFrame (flat_map columns frames)
    (map (fun l => (l, flat_map (fun f => row_at f l) frames)) ax).

Fixpoint seen_row (r : list cell) (seen : list (list cell)) : bool :=
  match seen with
  | [] => false
  | r' :: seen' => row_eqb r' r || seen_row r seen'
  end.

Fixpoint keep_first (seen : list (list cell)) (b : list (label * list cell))
  : list (label * list cell) :=
  match b with
  | [] => []
  | (l, r) :: b' =>
      if seen_row r seen then keep_first seen b'
      else (l, r) :: keep_first (r :: seen) b'
  end.

(** [df.drop_duplicates(keep='first')] *)
Definition drop_duplicates (df : DataFrame) : DataFrame :=
  mkDataFrame (columns df) (keep_first [] (body df)).

Fixpoint labels_eqb (a b : list string) : bool :=
  match a, b with
  | [], [] => true
  | x :: a', y :: b' => String.eqb x y && labels_eqb a' b'
  | _, _ => false
  end.

Fixpoint is_unique (cols : list string) : bool :=
  match cols with
  | [] => true
  | c :: cols' => negb (has_col c cols') && is_unique cols'
  end.

(** [df.reindex(columns=new)]: pandas refuses to reindex an axis with a
    duplicated label, unless the new axis equals the old one. *)
Definition reindex_columns (df : DataFrame) (new : list string)
  : result DataFrame :=
  if labels_eqb (columns df) new then Ok df
  else if is_unique (columns df) then
    Ok (mkDataFrame new
          (map (fun lr => (fst lr, select (columns df) new (snd lr)))
               (body df)))
  else Raise ValueError.

(** [[L[x] for x in idx]] *)
Fixpoint take_at (L : list string) (idx : list nat) : result (list string) :=
  match idx with
  | [] => Ok []
  | x :: idx' =>
      match nth_error L x with
      | None => Raise IndexError
      | Some c => rest <- take_at L idx' ;; Ok (c :: rest)
      end
  end.

(** ** [BagHandler._reformat_headers] *)

Definition replace_char (a b : ascii) (s : string) : string :=
  string_of_list_ascii
    (map (fun c => if Ascii.eqb c a then b else c) (list_ascii_of_string s)).

Definition lower_ascii (c : ascii) : ascii :=
  let n := nat_of_ascii c in
  if ((65 <=? n)%nat && (n <=? 90)%nat)%bool then ascii_of_nat (n + 32) else c.

Definition lower (s : string) : string :=
  string_of_list_ascii (map lower_ascii (list_ascii_of_string s)).

(** The three renaming passes on one label. *)
Definition reformat_header (x : string) : string :=
  lower (replace_char "." "_" (replace_char " " "_" x)).

Definition _reformat_headers (df : DataFrame) : DataFrame :=
  let df := rename_columns (replace_char " " "_") df in
  let df := rename_columns (replace_char "." "_") df in
  rename_columns lower df.

(** ** [BagHandler.transform] *)

Definition cram_columns : list string :=
  ["file_type"; "file_path"; "upload_file_id"; "file_urls"; "file_dos_url"].

Definition cram_renames : list (string * string) :=
  [("file_type", "file_type2");
   ("file_path", "file_path2");
   ("upload_file_id", "upload_file_id2");
   ("file_urls", "file_urls2");
   ("file_dos_url", "file_dos_url2")].

Definition new_index : list nat :=
  [11; 4; 3; 7; 5; 6; 8; 9; 10; 12; 13; 14] ++
  [0; 1; 2; 18; 19; 15; 16; 17; 20; 21; 22] ++
  [23; 24; 25; 26].

Definition sample_renames : list (string * string) :=
  [("sample_uuid", "entity:sample_id");
   ("donor_uuid", "participant_id");
   ("file_type", "file_type1");
   ("file_path", "file_path1");
   ("upload_file_id", "upload_file_id1");
   ("file_urls", "file_urls1");
   ("file_dos_url", "file_dos_url1");
   ("metadata.json", "metadata_json")].

(** Lines 81-97: the two slices, renamed and with their indexes reset. *)
Definition frames (df : DataFrame) : result (DataFrame * DataFrame) :=
  ft <- getitem df "file_type" ;;
  let df1 := getitem_bool df (eq_scalar ft "crai") in
  proj <- getitem_list df cram_columns ;;
  ft' <- getitem df "file_type" ;;
  let df2 := getitem_bool proj (eq_scalar ft' "cram") in
  let df2 := rename_columns (mapper cram_renames) (rename_index_str df2) in
  Ok (reset_index df1, reset_index df2).

(** Line 100: the wide table, before duplicates are dropped. *)
Definition joined (df : DataFrame) : result DataFrame :=
  fs <- frames df ;;
  Ok (concat_axis1 [fst fs; snd fs] (index (fst fs))).

(** Lines 104-125. *)
Definition finish (df_new : DataFrame) : result (Series * DataFrame) :=
  participant <- getitem df_new "donor_uuid" ;;
  let participant := mkSeries "entity:participant_id" (items participant) in
  let L := columns df_new in
  new_col_order <- take_at L new_index ;;
  sample <- reindex_columns df_new new_col_order ;;
  let sample :=
    rename_columns (mapper sample_renames) (rename_index_str sample) in
  Ok (participant, sample).

Definition transform (df : DataFrame) : result (Series * DataFrame) :=
  df_new <- joined df ;;
  finish (drop_duplicates df_new).

(** ** [BagHandler.__normalize] *)

(** [re.search('[Ff]ile', s)] *)
Fixpoint search_file (s : string) : bool :=
  match s with
  | EmptyString => false
  | String _ s' => prefix "File" s || prefix "file" s || search_file s'
  end.

Fixpoint seen_cell (c : cell) (seen : list cell) : bool :=
  match seen with
  | [] => false
  | c' :: seen' => cell_eqb c' c || seen_cell c seen'
  end.

Fixpoint first_seen (seen : list cell) (vs : list cell) : list cell :=
  match vs with
  | [] => []
  | v :: vs' =>
      if seen_cell v seen then first_seen seen vs'
      else v :: first_seen (v :: seen) vs'
  end.

(** [s.unique()]: the values in order of first appearance. *)
Definition unique (s : Series) : list cell := first_seen [] (values s).

(** The loop of lines 144-146; [out] collects what [print] wrote. *)
Fixpoint normalize_loop (filetype : list cell) (nrecords : nat)
    (L : list string) (out : list string) : result (list string) :=
  match L with
  | [] => Ok out
  | item :: L' =>
      let out := out ++ [item] in
      match nth_error filetype 0 with
      | None => Raise IndexError
      | Some v =>
          let a := repeat v nrecords in
          normalize_loop filetype nrecords L' out
      end
  end.

(** Returns what was printed and the frame handed back. *)
Definition __normalize (df : DataFrame) : result (list string * DataFrame) :=
  let col_names := columns df in
  let L := filter search_file col_names in
  donors <- getitem df "donor_uuid" ;;
  let nrecords := length (unique donors) in
  types <- getitem df "file_type" ;;
  let filetype := unique types in
  out <- normalize_loop filetype nrecords L [] ;;
  Ok (out, df).

(** ** Paths *)

(** [s.split('/')] *)
Fixpoint split_slash (s : string) : list string :=
  match s with
  | EmptyString => [EmptyString]
  | String c s' =>
      if Ascii.eqb c "/" then EmptyString :: split_slash s'
      else match split_slash s' with
           | [] => [String c EmptyString]
           | h :: t => String c h :: t
           end
  end.

Definition last_is_dotdot (comps : list string) : bool :=
  match rev comps with
  | c :: _ => String.eqb c ".."
  | [] => false
  end.

Definition is_nil {A} (l : list A) : bool :=
  match l with [] => true | _ => false end.

(** The loop of [posixpath.normpath] over the components. *)
Fixpoint norm_loop (initial_slashes : bool) (comps new_comps : list string)
  : list string :=
  match comps with
  | [] => new_comps
  | comp :: rest =>
      if String.eqb comp "" || String.eqb comp "." then
        norm_loop initial_slashes rest new_comps
      else if negb (String.eqb comp "..")
              || (negb initial_slashes && is_nil new_comps)
              || last_is_dotdot new_comps then
        norm_loop initial_slashes rest (new_comps ++ [comp])
      else
        norm_loop initial_slashes rest (removelast new_comps)
  end.

(** [posixpath.normpath] *)
Definition normpath (path : string) : string :=
  match path with
  | EmptyString => "."
  | _ =>
      let initial_slashes :=
        if prefix "/" path then
          if prefix "//" path && negb (prefix "///" path) then 2 else 1
        else 0 in
      let comps :=
        norm_loop (negb (Nat.eqb initial_slashes 0)) (split_slash path) [] in
      let path :=
        (String.concat "" (repeat "/" initial_slashes) ++ String.concat "/" comps)%string in
      match path with
      | EmptyString => "."
      | _ => path
      end
  end.

(** [os.path.join(a, b)] *)
Fixpoint ends_with_slash (a : string) : bool :=
  match a with
  | EmptyString => false
  | String c EmptyString => Ascii.eqb c "/"
  | String _ a' => ends_with_slash a'
  end.

Definition path_join (a b : string) : string :=
  if prefix "/" b then b
  else if String.eqb a "" || ends_with_slash a then (a ++ b)%string
  else (a ++ "/" ++ b)%string.

(** [s[n:]] *)
Fixpoint drop_chars (n : nat) (s : string) : string :=
  match n, s with
  | 0, _ => s
  | S n', String _ s' => drop_chars n' s'
  | S _, EmptyString => EmptyString
  end.

(** The components the kernel follows for an absolute path. *)
Definition resolve (path : string) : list string :=
  norm_loop true (split_slash path) [].

(** ** The file system *)

Set Warnings "-register-all".

(** What a file holds.  The serialised tables and the bag's tag files are
    kept symbolic: a file is identified by what was written into it.  A
    payload manifest keeps the payload paths of its lines; of a tag
    manifest, whose lines come in the order the file system lists the bag
    directory, only the algorithm is kept. *)
Inductive content : Type :=
| TsvOfSeries (s : Series)      (* to_csv(sep='\t', index=False, header=True) *)
| TsvOfFrame (d : DataFrame)
| BagitTxt                      (* the bag declaration *)
| BagInfoTxt (info : list (string * string))
| ManifestTxt (alg : string) (payload : list string)
                                (* one checksum line per payload path *)
| TagManifestTxt (alg : string)
| ZipMembers (entries : list (string * content))
                                (* the members written so far, before the
                                   archive is closed *)
| ZipArchive (entries : list (string * content))
| NoBytes.

Inductive node : Type :=
| File (c : content)
| Dir (entries : list (string * node)).

Fixpoint child (c : string) (es : list (string * node)) : option node :=
  match es with
  | [] => None
  | (c', n) :: es' => if String.eqb c' c then Some n else child c es'
  end.

(** Replace the entry named [c], or add it at the end. *)
Fixpoint set_child (c : string) (v : node) (es : list (string * node))
  : list (string * node) :=
  match es with
  | [] => [(c, v)]
  | (c', n) :: es' =>
      if String.eqb c' c then (c, v) :: es'
      else (c', n) :: set_child c v es'
  end.

Definition remove_child (c : string) (es : list (string * node))
  : list (string * node) :=
  filter (fun e => negb (String.eqb (fst e) c)) es.

Fixpoint lookup (p : list string) (n : node) : option node :=
  match p with
  | [] => Some n
  | c :: p' =>
      match n with
      | Dir es =>
          match child c es with
          | Some ch => lookup p' ch
          | None => None
          end
      | File _ => None
      end
  end.

(** Run [f] on the node at [p], which must exist. *)
Fixpoint at_path (p : list string) (f : node -> result node) (n : node)
  : result node :=
  match p with
  | [] => f n
  | c :: p' =>
      match n with
      | Dir es =>
          match child c es with
          | Some ch =>
              ch' <- at_path p' f ch ;; Ok (Dir (set_child c ch' es))
          | None => Raise IOError
          end
      | File _ => Raise IOError
      end
  end.

Fixpoint fresh_dirs (p : list string) : node :=
  match p with
  | [] => Dir []
  | c :: p' => Dir [(c, fresh_dirs p')]
  end.

(** [os.makedirs]: every missing directory on the way is created; the leaf
    must not exist. *)
Fixpoint makedirs_at (p : list string) (n : node) : result node :=
  match n with
  | File _ => Raise IOError
  | Dir es =>
      match p with
      | [] => Raise IOError
      | c :: p' =>
          match child c es with
          | Some ch =>
              ch' <- makedirs_at p' ch ;; Ok (Dir (set_child c ch' es))
          | None => Ok (Dir (set_child c (fresh_dirs p') es))
          end
      end
  end.

(** [os.mkdir] of the entry [c] in a directory. *)
Definition mkdir_in (c : string) (n : node) : result node :=
  match n with
  | Dir es =>
      match child c es with
      | Some _ => Raise IOError
      | None => Ok (Dir (set_child c (Dir []) es))
      end
  | File _ => Raise IOError
  end.

(** [open(path, 'w')], write, close: creates or truncates the file [c]. *)
Definition write_in (c : string) (v : content) (n : node) : result node :=
  match n with
  | Dir es =>
      match child c es with
      | Some (Dir _) => Raise IOError
      | _ => Ok (Dir (set_child c (File v) es))
      end
  | File _ => Raise IOError
  end.

Definition remove_in (c : string) (n : node) : result node :=
  match n with
  | Dir es =>
      match child c es with
      | Some _ => Ok (Dir (remove_child c es))
      | None => Raise IOError
      end
  | File _ => Raise IOError
  end.

Definition parent (p : list string) : list string := removelast p.
Definition leaf (p : list string) : string := last p "".

(** The files below a node, each with its path relative to the node, in
    the order a top-down walk meets them. *)
Fixpoint files_below (n : node) : list (list string * content) :=
  match n with
  | File _ => []
  | Dir es =>
      flat_map (fun e => match snd e with
                         | File c => [([fst e], c)]
                         | Dir _ => []
                         end) es ++
      flat_map (fun e => map (fun f => (fst e :: fst f, snd f))
                             (files_below (snd e))) es
  end.

Definition dir_names (es : list (string * node)) : list string :=
  flat_map (fun e => match snd e with Dir _ => [fst e] | File _ => [] end) es.

Definition file_names (es : list (string * node)) : list string :=
  flat_map (fun e => match snd e with File _ => [fst e] | Dir _ => [] end) es.

(** The tree as the file system lists it: the entries of every directory
    in the order [listdir] gives them. *)
Fixpoint listed (listdir : list (string * node) -> list (string * node))
    (n : node) : node :=
  match n with
  | File c => File c
  | Dir es => Dir (listdir (map (fun e => (fst e, listed listdir (snd e))) es))
  end.

(** [os.walk(top)], top-down, over a tree as it is listed. *)
Fixpoint walk (top : string) (n : node)
  : list (string * list string * list string) :=
  match n with
  | File _ => []
  | Dir es =>
      (top, dir_names es, file_names es) ::
      flat_map (fun e => walk (path_join top (fst e)) (snd e)) es
  end.

(** ** The world [create_bag] runs in *)

(** The file tree, the directory [tempfile.gettempdir()] answers, and the
    names [tempfile] draws for the calls of [create_bag], in order. *)
Record world : Type := mkWorld {
  root : node;
  tmpdir : string;
  names : list string
}.

(** A call that reads and changes the world and may raise; the world it
    leaves behind is there in both cases. *)
Definition IO (A : Type) : Type := world -> result A * world.

Definition ret {A} (a : A) : IO A := fun w => (Ok a, w).

Definition bindIO {A B} (m : IO A) (k : A -> IO B) : IO B :=
  fun w =>
    match m w with
    | (Ok a, w') => k a w'
    | (Raise e, w') => (Raise e, w')
    end.

Notation "x <~ c ;; k" := (bindIO c (fun x => k))
  (at level 61, c at next level, right associativity).

Definition lift {A} (r : result A) : IO A := fun w => (r, w).

Definition set_root (w : world) (r : node) : world :=
  mkWorld r (tmpdir w) (names w).

(** Run a tree update on the node at [path]. *)
Definition fs_update (path : list string) (f : node -> result node)
  : IO unit :=
  fun w =>
    match at_path path f (root w) with
    | Ok r => (Ok tt, set_root w r)
    | Raise e => (Raise e, w)
    end.

Definition exists_path (path : string) (w : world) : bool :=
  match lookup (resolve path) (root w) with
  | Some _ => true
  | None => false
  end.

(** The steps of [create_bag] that a failing file system can interrupt. *)
Inductive io_step : Type :=
| At_makedirs
| At_make_bag
| At_participant_tsv
| At_sample_tsv
| At_bag_save
| At_zip_open
| At_zip_write
| At_zip_close
| At_rmtree.

(** [tempfile]: try the drawn names in turn until one is free. *)
Fixpoint first_free (dir pre suf : string) (cands : list string) (r : node)
  : option (string * list string) :=
  match cands with
  | [] => None
  | nm :: cands' =>
      let file := path_join dir (pre ++ nm ++ suf)%string in
      match lookup (resolve file) r with
      | Some _ => first_free dir pre suf cands' r
      | None => Some (file, cands')
      end
  end.

(** [tempfile.mkdtemp(suffix)] *)
Definition mkdtemp (suffix : string) : IO string :=
  fun w =>
    match first_free (tmpdir w) "tmp" suffix (names w) (root w) with
    | None => (Raise IOError, w)
    | Some (file, rest) =>
        match at_path (parent (resolve file)) (mkdir_in (leaf (resolve file)))
                (root w) with
        | Ok r => (Ok file, mkWorld r (tmpdir w) rest)
        | Raise e => (Raise e, w)
        end
    end.

(** [tempfile.NamedTemporaryFile(suffix=..., delete=False)]; the value is
    the file's name. *)
Definition NamedTemporaryFile (suffix : string) : IO string :=
  fun w =>
    match first_free (tmpdir w) "tmp" suffix (names w) (root w) with
    | None => (Raise IOError, w)
    | Some (file, rest) =>
        match at_path (parent (resolve file))
                (write_in (leaf (resolve file)) NoBytes) (root w) with
        | Ok r => (Ok file, mkWorld r (tmpdir w) rest)
        | Raise e => (Raise e, w)
        end
    end.

(** [os.makedirs(path)] *)
Definition os_makedirs (path : string) : IO unit :=
  fun w =>
    match makedirs_at (resolve path) (root w) with
    | Ok r => (Ok tt, set_root w r)
    | Raise e => (Raise e, w)
    end.

(** [to_csv(path, sep='\t', index=False, header=True)] *)
Definition to_csv (v : content) (path : string) : IO unit :=
  fs_update (parent (resolve path)) (write_in (leaf (resolve path)) v).

(** [shutil.rmtree(path, ignore_errors)].  [refused] says that the file
    system refuses the removal; a refused removal is taken to remove
    nothing (of a real one it is only certain that [path] itself stays).
    With [ignore_errors] a failure is swallowed and the call returns. *)
Definition shutil_rmtree (refused : bool) (path : string)
    (ignore_errors : bool) : IO unit :=
  fun w =>
    match (if refused then Raise IOError
           else at_path (parent (resolve path))
                  (remove_in (leaf (resolve path))) (root w)) with
    | Ok r => (Ok tt, set_root w r)
    | Raise e => if ignore_errors then (Ok tt, w) else (Raise e, w)
    end.

(** *** bagit *)

(** What the source leaves to the installed [bagit]: the checksum
    algorithms [make_bag] uses when none is asked for ([md5] in bagit 1.5,
    [sha256] and [sha512] from 1.6 on), and whether an empty payload gets
    manifest files (1.5 writes empty ones, 1.6 writes none). *)
Record bagit_lib : Type := mkBagit {
  checksums : list string;
  empty_manifests : bool
}.

Record Bag : Type := mkBag {
  bag_path : string;
  bag_info : list (string * string);
  bag_algs : list string    (* the algorithms of the manifests found *)
}.

Definition manifest_name (alg : string) : string :=
  ("manifest-" ++ alg ++ ".txt")%string.

Definition tagmanifest_name (alg : string) : string :=
  ("tagmanifest-" ++ alg ++ ".txt")%string.

(** [bagit._walk] sorts the file names and the directory names of every
    directory it visits before it goes on. *)
Fixpoint insert_by_name (e : string * node) (es : list (string * node))
  : list (string * node) :=
  match es with
  | [] => [e]
  | x :: es' =>
      if String.leb (fst e) (fst x) then e :: es
      else x :: insert_by_name e es'
  end.

Definition sorted_by_name (es : list (string * node))
  : list (string * node) :=
  fold_right insert_by_name [] es.

(** The payload paths in the order of the manifest lines: the files under
    [data], each directory's files before its subdirectories, by name. *)
Definition payload_paths (es : list (string * node)) : list string :=
  match child "data" es with
  | Some d =>
      map (fun f => String.concat "/" ("data" :: fst f))
        (files_below (listed sorted_by_name d))
  | None => []
  end.

(** One payload manifest per algorithm, over the files under [data]. *)
Definition write_manifests (lib : bagit_lib) (algs : list string)
    (es : list (string * node)) : list (string * node) :=
  let payload := payload_paths es in
  if is_nil payload && negb (empty_manifests lib) then es
  else fold_left
         (fun es a =>
            set_child (manifest_name a) (File (ManifestTxt a payload)) es)
         algs es.

(** One tag manifest per algorithm, over the files beside [data] that are
    no tag manifests themselves. *)
Definition write_tagmanifests (algs : list string)
    (es : list (string * node)) : list (string * node) :=
  fold_left
    (fun es a => set_child (tagmanifest_name a) (File (TagManifestTxt a)) es)
    algs es.

(** [bagit.make_bag(bag_dir, bag_info)] on the bag directory: what is in
    the directory moves into a new [data] directory, then the payload
    manifests, the declaration, the bag information (the given fields and
    those bagit adds) and the tag manifests are written beside it. *)
Definition make_bag_node (lib : bagit_lib) (info : list (string * string))
    (n : node) : result node :=
  match n with
  | File _ => Raise IOError
  | Dir es =>
      let es := write_manifests lib (checksums lib) [("data", Dir es)] in
      let es := set_child "bagit.txt" (File BagitTxt) es in
      let es := set_child "bag-info.txt" (File (BagInfoTxt info)) es in
      Ok (Dir (write_tagmanifests (checksums lib) es))
  end.

(** [bag.save(manifests=True)]: the payload manifests are computed again
    over [data], then the bag information and the tag manifests are written
    again. *)
Definition save_node (lib : bagit_lib) (algs : list string)
    (info : list (string * string)) (n : node) : result node :=
  match n with
  | File _ => Raise IOError
  | Dir es =>
      let es := write_manifests lib algs es in
      let es := set_child "bag-info.txt" (File (BagInfoTxt info)) es in
      Ok (Dir (write_tagmanifests algs es))
  end.

Definition make_bag (lib : bagit_lib) (bag_dir : string)
    (info : list (string * string)) : IO Bag :=
  _ <~ fs_update (resolve bag_dir) (make_bag_node lib info) ;;
  ret (mkBag bag_dir info (checksums lib)).

Definition bag_save (lib : bagit_lib) (bag : Bag) : IO unit :=
  fs_update (resolve (bag_path bag))
    (save_node lib (bag_algs bag) (bag_info bag)).

(** *** zipfile *)

Record ZipFile : Type := mkZipFile {
  zip_name : string;                      (* the file the archive goes to *)
  zip_entries : list (string * content)   (* the members written so far *)
}.

(** The loop of [ZipFile.write] that strips the leading separators. *)
Fixpoint lstrip_sep (s : string) : result string :=
  match s with
  | EmptyString => Raise IndexError
  | String c s' => if Ascii.eqb c "/" then lstrip_sep s' else Ok s
  end.

(** What the archive's file holds after a write: the members so far. *)
Definition zip_flush (zip_fh : ZipFile) (c : content) : IO unit :=
  let path := resolve (zip_name zip_fh) in
  fs_update (parent path) (write_in (leaf path) c).

(** [zip_fh.write(filename, arcname=arcname)]: the member is stored under
    the normalised [arcname] without its leading separators, and goes into
    the archive's file at once. *)
Definition zip_write (zip_fh : ZipFile) (filename arcname : string)
  : IO ZipFile :=
  fun w =>
    match lookup (resolve filename) (root w) with
    | Some (File c) =>
        match lstrip_sep (normpath arcname) with
        | Ok member =>
            let zip_fh := mkZipFile (zip_name zip_fh)
                            (zip_entries zip_fh ++ [(member, c)]) in
            match zip_flush zip_fh (ZipMembers (zip_entries zip_fh)) w with
            | (Ok _, w') => (Ok zip_fh, w')
            | (Raise e, w') => (Raise e, w')
            end
        | Raise e => (Raise e, w)
        end
    | _ => (Raise IOError, w)
    end.

(** [zip_fh.close()]: the central directory is written, which makes the
    file an archive. *)
Definition zip_close (zip_fh : ZipFile) : IO unit :=
  zip_flush zip_fh (ZipArchive (zip_entries zip_fh)).

(** ** [BagHandler] *)

Record BagHandler : Type := mkBagHandler {
  self_data : DataFrame;
  self_name : string;
  self_info : list (string * string)
}.

Section Packager.

(** The steps at which the file system fails in this run, the order in
    which it lists the entries of a directory, and the installed bagit. *)
Variable fails : io_step -> bool.
Variable listdir : list (string * node) -> list (string * node).
Variable lib : bagit_lib.

Definition step (s : io_step) : IO unit :=
  fun w => if fails s then (Raise IOError, w) else (Ok tt, w).

(** The inner loop of [__zipdir], over the files of one directory. *)
Fixpoint zipdir_files (pathLength : nat) (root : string)
    (files : list string) (zip_fh : ZipFile) : IO ZipFile :=
  match files with
  | [] => ret zip_fh
  | file :: files' =>
      _ <~ step At_zip_write ;;
      zip_fh <~ zip_write zip_fh (path_join root file)
                  (drop_chars pathLength root ++ "/" ++ file)%string ;;
      zipdir_files pathLength root files' zip_fh
  end.

Fixpoint zipdir_loop (pathLength : nat)
    (walked : list (string * list string * list string))
    (zip_fh : ZipFile) : IO ZipFile :=
  match walked with
  | [] => ret zip_fh
  | (root, _, files) :: walked' =>
      zip_fh <~ zipdir_files pathLength root files zip_fh ;;
      zipdir_loop pathLength walked' zip_fh
  end.

(** [os.walk(path)] on the current tree; a [path] that is no directory
    yields nothing.  [os.walk] lists a directory when it reaches it; the
    loop of [__zipdir] writes only into the archive's file, which [ZipFile]
    opened before the walk began, so no directory gains or loses a name
    while the walk goes on, and the names are those of the tree at the
    start. *)
Definition os_walk (path : string) (w : world)
  : list (string * list string * list string) :=
  match lookup (resolve path) (root w) with
  | Some n => walk path (listed listdir n)
  | None => []
  end.

Definition __zipdir (path : string) (zip_fh : ZipFile) : IO ZipFile :=
  let pathLength := String.length path in
  fun w => zipdir_loop pathLength (os_walk path w) zip_fh w.

Definition create_bag (self : BagHandler) : IO string :=
  tempd <~ mkdtemp "bag_tmpd" ;;
  let bag_dir := (tempd ++ "/" ++ self_name self)%string in
  let data_path := (bag_dir ++ "/data")%string in
  _ <~ step At_makedirs ;;
  _ <~ os_makedirs data_path ;;
  _ <~ step At_make_bag ;;
  bag <~ make_bag lib bag_dir (self_info self) ;;
  let self := mkBagHandler (_reformat_headers (self_data self))
                (self_name self) (self_info self) in
  tables <~ lift (transform (self_data self)) ;;
  let participant := fst tables in
  let sample := snd tables in
  _ <~ step At_participant_tsv ;;
  _ <~ to_csv (TsvOfSeries participant)
         (data_path ++ "/participant.tsv")%string ;;
  _ <~ step At_sample_tsv ;;
  _ <~ to_csv (TsvOfFrame sample) (data_path ++ "/sample.tsv")%string ;;
  _ <~ step At_bag_save ;;
  _ <~ bag_save lib bag ;;
  _ <~ step At_zip_open ;;
  zipfile_tmp <~ NamedTemporaryFile ".zip" ;;
  let zipfile_handle := mkZipFile zipfile_tmp [] in
  zipfile_handle <~ __zipdir tempd zipfile_handle ;;
  _ <~ step At_zip_close ;;
  _ <~ zip_close zipfile_handle ;;
  _ <~ shutil_rmtree (fails At_rmtree) tempd true ;;
  ret zipfile_tmp.

End Packager.

(** ** Vocabulary of the statements *)

(** The rows of [df] whose [file_type] cell is [v], in the order of [df]. *)
Definition subset (v : string) (df : DataFrame) : list (list cell) :=
  match col_pos "file_type" (columns df) with
  | Some j => filter (fun r => cell_is v (at_pos j r)) (data df)
  | None => []
  end.

(** The columns [transform] looks up by label. *)
Definition required_columns : list string :=
  cram_columns ++ ["donor_uuid"].

(** The labels of the wide table for a frame with the labels [cols]. *)
Definition wide_columns (cols : list string) : list string :=
  cols ++ map (mapper cram_renames) cram_columns.

(** The cell of row [r] of [df] under the label [k]. *)
Definition row_cell (df : DataFrame) (r : list cell) (k : string)
  : option cell :=
  option_map (fun j => at_pos j r) (col_pos k (columns df)).

(** A header of 22 labels in the order the index list of [transform] is
    written for: [sample_uuid] at 11, [donor_uuid] at 4, the file columns at
    15-17 and 20-21. *)
Definition manifest_header : list string :=
  ["program"; "project"; "center_name"; "submitter_donor_id"; "donor_uuid";
   "submitter_donor_primary_site"; "submitter_specimen_id"; "specimen_uuid";
   "submitter_specimen_type"; "submitter_experimental_design";
   "submitter_sample_id"; "sample_uuid"; "analysis_type"; "workflow_name";
   "workflow_version"; "file_type"; "file_path"; "upload_file_id";
   "data_bundle_uuid"; "metadata_json"; "file_urls"; "file_dos_url"].

(** A row under [manifest_header]. *)
Definition manifest_row (donor sample ftype fpath : string) : list cell :=
  map Str
    ["TOPMed"; "phase1"; "broad"; "don-1"; donor; "blood"; "spec-1";
     "spec-uuid"; "normal"; "WGS"; "samp-1"; sample; "alignment"; "bwa";
     "1.0"; ftype; fpath; ("id-" ++ fpath)%string; "bundle"; "meta";
     ("s3://" ++ fpath)%string; ("dos://" ++ fpath)%string].

(** One crai row and one cram row of the same donor and sample. *)
Definition one_pair : DataFrame :=
  mkDataFrame manifest_header
    [(ILoc 0, manifest_row "D1" "S1" "crai" "a.cram.crai");
     (ILoc 1, manifest_row "D1" "S1" "cram" "a.cram")].

(** Three crai rows and two cram rows. *)
Definition three_crai_two_cram : DataFrame :=
  mkDataFrame manifest_header
    [(ILoc 0, manifest_row "D1" "S1" "crai" "a.cram.crai");
     (ILoc 1, manifest_row "D1" "S1" "cram" "a.cram");
     (ILoc 2, manifest_row "D1" "S2" "crai" "b.cram.crai");
     (ILoc 3, manifest_row "D1" "S2" "cram" "b.cram");
     (ILoc 4, manifest_row "D2" "S3" "crai" "c.cram.crai")].

(** Two samples of one donor, in complete pairs. *)
Definition two_samples_one_donor : DataFrame :=
  mkDataFrame manifest_header
    [(ILoc 0, manifest_row "D1" "S1" "crai" "a.cram.crai");
     (ILoc 1, manifest_row "D1" "S1" "cram" "a.cram");
     (ILoc 2, manifest_row "D1" "S2" "crai" "b.cram.crai");
     (ILoc 3, manifest_row "D1" "S2" "cram" "b.cram")].

(** The same pair listed twice. *)
Definition pair_listed_twice : DataFrame :=
  mkDataFrame manifest_header
    [(ILoc 0, manifest_row "D1" "S1" "crai" "a.cram.crai");
     (ILoc 1, manifest_row "D1" "S1" "cram" "a.cram");
     (ILoc 2, manifest_row "D1" "S1" "crai" "a.cram.crai");
     (ILoc 3, manifest_row "D1" "S1" "cram" "a.cram")].

(** [one_pair] with the column [sample_uuid] under another label. *)
Definition no_sample_uuid : DataFrame :=
  mkDataFrame (map (fun c => if String.eqb c "sample_uuid" then "sample"
                             else c) manifest_header)
    (body one_pair).

(** The five file columns and nothing else. *)
Definition file_columns_only : DataFrame :=
  mkDataFrame cram_columns
    [(ILoc 0, map Str ["crai"; "a.cram.crai"; "id-1"; "s3://1"; "dos://1"]);
     (ILoc 1, map Str ["cram"; "a.cram"; "id-2"; "s3://2"; "dos://2"])].

(** A table with the full header and no row. *)
Definition no_rows : DataFrame := mkDataFrame manifest_header [].

(** A name a directory entry can have: not empty, without a slash, and
    neither [.] nor [..]. *)
Fixpoint no_slash (c : string) : bool :=
  match c with
  | EmptyString => true
  | String a c' => negb (Ascii.eqb a "/") && no_slash c'
  end.

Definition valid_name (c : string) : bool :=
  no_slash c && negb (String.eqb c "") && negb (String.eqb c ".")
  && negb (String.eqb c "..").

(** A tree as a file system holds it: valid names, no name twice in one
    directory. *)
Fixpoint wf_tree (n : node) : bool :=
  match n with
  | File _ => true
  | Dir es =>
      forallb (fun e => valid_name (fst e)) es
      && is_unique (map fst es)
      && forallb (fun e => wf_tree (snd e)) es
  end.

(** The tree [n] with the node at [p] replaced by [v]. *)
Fixpoint graft (p : list string) (v : node) (n : node) : node :=
  match p with
  | [] => v
  | c :: p' =>
      match n with
      | Dir es =>
          match child c es with
          | Some ch => Dir (set_child c (graft p' v ch) es)
          | None => n
          end
      | File _ => n
      end
  end.

(** The path string of the components [rel] below a directory. *)
Fixpoint render (rel : list string) : string :=
  match rel with
  | [] => ""
  | c :: rel' => ("/" ++ c ++ render rel')%string
  end.

(** The members [__zipdir] is to write for the tree [n]: one per file, named
    by the file's path relative to the root of the walk. *)
Definition members (n : node) : list (string * content) :=
  map (fun f => (String.concat "/" (fst f), snd f)) (files_below n).

(** The files [create_bag] leaves in the bag directory: the declaration,
    the bag information, the two tables, and a payload manifest and a tag
    manifest for every checksum algorithm of the installed bagit. *)
Definition bag_members (lib : bagit_lib) (name : string) : list string :=
  map (fun f => (name ++ "/" ++ f)%string)
    (["bagit.txt"; "bag-info.txt"; "data/participant.tsv";
      "data/sample.tsv"]
     ++ map manifest_name (checksums lib)
     ++ map tagmanifest_name (checksums lib)).

(** Whatever order the file system lists a directory in, it lists the
    entries of the directory. *)
Definition listing_order
    (listdir : list (string * node) -> list (string * node)) : Prop :=
  forall es, Permutation (listdir es) es.

(** A file system that lists entries in the order of their creation. *)
Definition as_created (es : list (string * node)) : list (string * node) :=
  es.

(** The names of the checksum algorithms can be part of a file name. *)
Definition algorithm_names (lib : bagit_lib) : Prop :=
  Forall (fun a => no_slash a = true) (checksums lib).

Definition bagit_1_5 : bagit_lib := mkBagit ["md5"] true.
Definition bagit_1_6 : bagit_lib := mkBagit ["sha256"; "sha512"] false.

(** A reindexed row: the row found, or missing values. *)
Definition fill (width : nat) (r : option (list cell)) : list cell :=
  match r with
  | Some r => r
  | None => repeat NaN width
  end.

(** The archive handle after the members [ms] are written. *)
Definition add_members (zip_fh : ZipFile) (ms : list (string * content))
  : ZipFile :=
  mkZipFile (zip_name zip_fh) (zip_entries zip_fh ++ ms).

(** The temporary directory is there, as a directory. *)
Definition is_dir (path : string) (w : world) : Prop :=
  exists es, lookup (resolve path) (root w) = Some (Dir es).

(** A specification of a call: from a world where [P] holds it returns
    into a world where [Q] holds of its value, or raises into a world where
    [E] holds. *)
Definition triple {A} (P : world -> Prop) (m : IO A)
    (Q : A -> world -> Prop) (E : world -> Prop) : Prop :=
  forall w, P w ->
    match m w with
    | (Ok a, w') => Q a w'
    | (Raise _, w') => E w'
    end.

(** The world of a run of [create_bag] after [mkdtemp]: the temporary
    directory [d/tn] is there, and the names [tempfile] will draw have no
    slash. *)
Definition in_run (d tn : string) (w : world) : Prop :=
  tmpdir w = d /\
  Forall (fun n => no_slash n = true) (names w) /\
  is_dir (path_join d tn) w.

(** A world with an empty temporary directory [/tmp]. *)
Definition empty_tmp : world :=
  mkWorld (Dir [("tmp", Dir [])]) "/tmp" ["k3x9"; "q7w2"].

(** A handler for [one_pair], and one whose table has no [file_type]. *)
Definition pair_handler : BagHandler :=
  mkBagHandler one_pair "manifest" [("organization", "UCSC")].

Definition headless_handler : BagHandler :=
  mkBagHandler (mkDataFrame ["Donor UUID"] [(ILoc 0, [Str "D1"])])
    "manifest" [].

(** No step fails. *)
Definition no_fault (s : io_step) : bool := false.

(** A bag directory with an open, still empty archive beside it. *)
Definition bag_and_archive : world :=
  mkWorld
    (Dir [("tmp",
           Dir [("bag",
                 Dir [("bagit.txt", File BagitTxt);
                      ("data", Dir [("empty", Dir []);
                                    ("p.tsv", File NoBytes)])]);
                ("out.zip", File NoBytes)])])
    "/tmp" [].


(** Only the removal of the temporary directory is refused. *)
Definition removal_refused (s : io_step) : bool :=
  match s with
  | At_rmtree => true
  | _ => false
  end.

(** The world of a run in which the temporary directory [d/tn] holds
    exactly the tree [L], and the other entries of [d] are those of [w0]. *)
Definition at_tree (d tn : string) (w0 : world) (L : node) (w : world)
  : Prop :=
  tmpdir w = d /\
  names w = names w0 /\
  lookup (resolve d ++ [tn]) (root w) = Some L /\
  forall c, c <> tn ->
            lookup (resolve d ++ [c]) (root w) =
            lookup (resolve d ++ [c]) (root w0).

(** The entries of the bag directory as [bagit.make_bag] leaves them in
    [create_bag]: the [data] directory made by [os.makedirs] has moved into
    the payload directory, which holds no file yet. *)
Definition made_bag (lib : bagit_lib) (info : list (string * string))
  : list (string * node) :=
  write_tagmanifests (checksums lib)
    (set_child "bag-info.txt" (File (BagInfoTxt info))
       (set_child "bagit.txt" (File BagitTxt)
          (write_manifests lib (checksums lib)
             [("data", Dir [("data", Dir [])])]))).

(** The payload directory with the two tables. *)
Definition payload_dir (participant : Series) (sample : DataFrame) : node :=
  Dir [("data", Dir []);
       ("participant.tsv", File (TsvOfSeries participant));
       ("sample.tsv", File (TsvOfFrame sample))].

(** The entries of the bag directory once both tables are written. *)
Definition filled_bag (lib : bagit_lib) (participant : Series)
    (sample : DataFrame) (info : list (string * string))
  : list (string * node) :=
  set_child "data" (payload_dir participant sample)
    (set_child "data"
       (Dir [("data", Dir []);
             ("participant.tsv", File (TsvOfSeries participant))])
       (made_bag lib info)).

(** The bag directory [create_bag] builds from the two tables, as
    [bag.save] leaves it. *)
Definition bag_entries (lib : bagit_lib) (participant : Series)
    (sample : DataFrame) (info : list (string * string))
  : list (string * node) :=
  write_tagmanifests (checksums lib)
    (set_child "bag-info.txt" (File (BagInfoTxt info))
       (write_manifests lib (checksums lib)
          (filled_bag lib participant sample info))).

Definition bag_tree (lib : bagit_lib) (participant : Series)
    (sample : DataFrame) (info : list (string * string)) : node :=
  Dir (bag_entries lib participant sample info).

(** The example scenario: a crai row and a cram row under
    [manifest_header]. *)
Definition example_pair (crai cram : list cell) : DataFrame :=
  mkDataFrame manifest_header [(ILoc 0, crai); (ILoc 1, cram)].

(** The tables [transform] returns, empty ones when it raises. *)
Definition tables (df : DataFrame) : Series * DataFrame :=
  match transform df with
  | Ok r => r
  | Raise _ => (mkSeries "" [], mkDataFrame [] [])
  end.

(** ** Vocabulary of the further statements *)

(** [df] with its index labels changed by [f]. *)
Definition relabel (f : label -> label) (df : DataFrame) : DataFrame :=
  mkDataFrame (columns df) (map (fun lr => (f (fst lr), snd lr)) (body df)).

(** [df] without the rows that [keep] rejects. *)
Definition keep_rows (keep : list cell -> bool) (df : DataFrame)
  : DataFrame :=
  mkDataFrame (columns df) (filter (fun lr => keep (snd lr)) (body df)).

(** The row is a crai row or a cram row of [df]. *)
Definition is_paired (df : DataFrame) (r : list cell) : bool :=
  match col_pos "file_type" (columns df) with
  | Some j => cell_is "crai" (at_pos j r) || cell_is "cram" (at_pos j r)
  | None => false
  end.

(** [one_pair] with other index labels, an index file of another type in
    between, and a cram row that names another donor and sample. *)
Definition one_pair_noisy : DataFrame :=
  mkDataFrame manifest_header
    [(SLoc "first", manifest_row "D1" "S1" "crai" "a.cram.crai");
     (SLoc "second", manifest_row "D7" "S7" "bai" "a.bam.bai");
     (SLoc "third", manifest_row "D9" "S9" "cram" "a.cram")].

(** Cram rows only. *)
Definition cram_only : DataFrame :=
  mkDataFrame manifest_header
    [(ILoc 0, manifest_row "D1" "S1" "cram" "a.cram");
     (ILoc 1, manifest_row "D2" "S2" "cram" "b.cram")].

(** A character a normalised header can hold: no space, no dot, no
    upper-case letter. *)
Definition header_char (c : ascii) : bool :=
  let n := nat_of_ascii c in
  negb (Ascii.eqb c " ") && negb (Ascii.eqb c ".")
  && negb ((65 <=? n)%nat && (n <=? 90)%nat).

(** A label of ASCII text, the text on which [lower] folds as [str.lower]
    does, one character for one. *)
Definition ascii_label (s : string) : bool :=
  forallb (fun c => (nat_of_ascii c <? 128)%nat) (list_ascii_of_string s).

(** The header of a manifest as it is exported, before
    [_reformat_headers], and a handler for [one_pair] under it. *)
Definition raw_header : list string :=
  ["Program"; "Project"; "Center Name"; "Submitter Donor ID"; "Donor UUID";
   "Submitter Donor Primary Site"; "Submitter Specimen ID"; "Specimen UUID";
   "Submitter Specimen Type"; "Submitter Experimental Design";
   "Submitter Sample ID"; "Sample UUID"; "Analysis Type"; "Workflow Name";
   "Workflow Version"; "File Type"; "File Path"; "Upload File ID";
   "Data Bundle UUID"; "Metadata.json"; "File URLs"; "File DOS URL"].

Definition raw_handler : BagHandler :=
  mkBagHandler (mkDataFrame raw_header (body one_pair))
    "manifest" [("organization", "UCSC")].

(** [q] is an initial part of [p]: the node at [q] holds the node at [p]. *)
Fixpoint begins (q p : list string) : bool :=
  match q with
  | [] => true
  | a :: q' =>
      match p with
      | [] => false
      | b :: p' => String.eqb a b && begins q' p'
      end
  end.

(** The paths [p] and [q] part ways: neither node holds the other. *)
Fixpoint apart (p q : list string) : bool :=
  match p with
  | [] => false
  | a :: p' =>
      match q with
      | [] => false
      | b :: q' => if String.eqb a b then apart p' q' else true
      end
  end.

(** The update [f] of a directory changes at most its entry [c]. *)
Definition only_entry (c : string) (f : node -> result node) : Prop :=
  forall m m', f m = Ok m' ->
    exists es es', m = Dir es /\ m' = Dir es' /\
                   forall k, k <> c -> child k es' = child k es.

(** A world with files in the temporary directory and beside it. *)
Definition busy_tmp : world :=
  mkWorld (Dir [("tmp", Dir [("notes.txt", File NoBytes)]);
                ("home", Dir [("manifest.tsv", File NoBytes)])])
    "/tmp" ["k3x9"; "q7w2"].

(** The header of [sample.tsv] for a manifest under [raw_header]. *)
Definition sample_header : list string :=
  ["entity:sample_id"; "participant_id"; "submitter_donor_id";
   "specimen_uuid"; "submitter_donor_primary_site"; "submitter_specimen_id";
   "submitter_specimen_type"; "submitter_experimental_design";
   "submitter_sample_id"; "analysis_type"; "workflow_name";
   "workflow_version"; "program"; "project"; "center_name";
   "data_bundle_uuid"; "metadata_json"; "file_type1"; "file_path1";
   "upload_file_id1"; "file_urls1"; "file_dos_url1"; "file_type2";
   "file_path2"; "upload_file_id2"; "file_urls2"; "file_dos_url2"].

(** * Facts *)

(** ** Results *)

Lemma bind_ok {A B} (r : result A) (k : A -> result B) (b : B) :
  bind r k = Ok b -> exists a, r = Ok a /\ k a = Ok b.
Proof.
  destruct r as [a | e]; simpl; intros H; [eauto | discriminate].
Qed.

Lemma bind_raise {A B} (r : result A) (k : A -> result B) (e : exn) :
  bind r k = Raise e ->
  r = Raise e \/ exists a, r = Ok a /\ k a = Raise e.
Proof.
  destruct r as [a | e']; simpl; intros H; [right; eauto | left; congruence].
Qed.

(** ** Equality tests *)

Lemma cell_eqb_eq (a b : cell) : cell_eqb a b = true <-> a = b.
Proof.
  destruct a as [| s], b as [| t]; simpl; split; intros H;
    try reflexivity; try discriminate.
  - apply String.eqb_eq in H. now subst.
  - injection H as ->. apply String.eqb_refl.
Qed.

Lemma row_eqb_eq (r1 r2 : list cell) : row_eqb r1 r2 = true <-> r1 = r2.
Proof.
  revert r2.
  induction r1 as [| a r1 IH]; intros [| b r2]; simpl; split; intros H;
    try reflexivity; try discriminate.
  - apply andb_true_iff in H as [Hab Hr].
    apply cell_eqb_eq in Hab. apply IH in Hr. now subst.
  - injection H as -> ->.
    apply andb_true_iff; split; [now apply cell_eqb_eq | now apply IH].
Qed.

Lemma labels_eqb_eq (a b : list string) : labels_eqb a b = true <-> a = b.
Proof.
  revert b.
  induction a as [| x a IH]; intros [| y b]; simpl; split; intros H;
    try reflexivity; try discriminate.
  - apply andb_true_iff in H as [Hxy Hab].
    apply String.eqb_eq in Hxy. apply IH in Hab. now subst.
  - injection H as -> ->.
    apply andb_true_iff; split; [apply String.eqb_refl | now apply IH].
Qed.

(** ** Column lookup *)

Lemma col_pos_none (k : string) (cols : list string) :
  col_pos k cols = None <-> ~ In k cols.
Proof.
  induction cols as [| c cols IH]; simpl.
  - split; [intros _ [] | reflexivity].
  - destruct (String.eqb_spec c k) as [-> | Hne].
    + split; [discriminate | intros H; exfalso; apply H; now left].
    + destruct (col_pos k cols) as [j |]; simpl.
      * split; [discriminate |].
        intros H. exfalso. apply H. right.
        destruct (in_dec string_dec k cols) as [Hin | Hnin]; [exact Hin |].
        apply IH in Hnin. discriminate.
      * split; [| reflexivity].
        intros _ [Heq | Hin]; [now apply Hne | now apply IH in Hin].
Qed.

Lemma col_pos_some (k : string) (cols : list string) (j : nat) :
  col_pos k cols = Some j -> nth_error cols j = Some k.
Proof.
  revert j.
  induction cols as [| c cols IH]; simpl; intros j H; [discriminate |].
  destruct (String.eqb_spec c k) as [-> | Hne].
  - injection H as <-. reflexivity.
  - destruct (col_pos k cols) as [j' |]; simpl in H; [| discriminate].
    injection H as <-. simpl. now apply IH.
Qed.

Lemma has_col_in (k : string) (cols : list string) :
  has_col k cols = true <-> In k cols.
Proof.
  unfold has_col.
  destruct (col_pos k cols) as [j |] eqn:E.
  - split; [intros _ | reflexivity].
    apply col_pos_some in E. now apply nth_error_In in E.
  - split; [discriminate |].
    intros Hin. apply col_pos_none in E. contradiction.
Qed.

Lemma is_unique_nodup (cols : list string) :
  is_unique cols = true <-> NoDup cols.
Proof.
  induction cols as [| c cols IH]; simpl.
  - split; [intros _; constructor | reflexivity].
  - rewrite andb_true_iff, negb_true_iff, IH. split.
    + intros [Hc Hnd]. constructor; [| exact Hnd].
      intros Hin. apply has_col_in in Hin. congruence.
    + intros Hnd. inversion Hnd as [| ? ? Hnin Hnd']; subst.
      split; [| exact Hnd'].
      destruct (has_col c cols) eqn:E; [| reflexivity].
      apply has_col_in in E. contradiction.
Qed.

(** ** Header normalisation *)

Lemma reformat_char_idem (c : ascii) :
  let f c :=
    lower_ascii
      (let c := if Ascii.eqb c " " then "_"%char else c in
       if Ascii.eqb c "." then "_"%char else c) in
  f (f c) = f c.
Proof.
  destruct c as [[] [] [] [] [] [] [] []]; reflexivity.
Qed.

Lemma reformat_header_chars (x : string) :
  reformat_header x =
  string_of_list_ascii
    (map (fun c =>
            lower_ascii
              (let c := if Ascii.eqb c " " then "_"%char else c in
               if Ascii.eqb c "." then "_"%char else c))
         (list_ascii_of_string x)).
Proof.
  unfold reformat_header, lower, replace_char.
  rewrite !list_ascii_of_string_of_list_ascii, !map_map. reflexivity.
Qed.

Lemma reformat_header_idem (x : string) :
  reformat_header (reformat_header x) = reformat_header x.
Proof.
  rewrite !reformat_header_chars.
  rewrite list_ascii_of_string_of_list_ascii, map_map.
  f_equal. apply map_ext. intros c. apply reformat_char_idem.
Qed.

Lemma reformat_headers_columns (df : DataFrame) :
  columns (_reformat_headers df) = map reformat_header (columns df).
Proof.
  unfold _reformat_headers, rename_columns; simpl.
  rewrite !map_map. reflexivity.
Qed.

Lemma reformat_headers_body (df : DataFrame) :
  body (_reformat_headers df) = body df.
Proof. reflexivity. Qed.

(** C6.  The renaming of [_reformat_headers] (spaces to underscores, dots to
    underscores, lower case) is idempotent, on one label and on a whole
    frame, and it is defined on every label: it relabels each column of any
    frame and leaves the rows alone. *)
Theorem reformat_headers_idempotent :
  (forall x : string, reformat_header (reformat_header x) = reformat_header x) /\
  (forall df : DataFrame,
     _reformat_headers (_reformat_headers df) = _reformat_headers df) /\
  (forall df : DataFrame,
     columns (_reformat_headers df) = map reformat_header (columns df) /\
     body (_reformat_headers df) = body df).
Proof.
  split; [exact reformat_header_idem |]. split.
  - intros df.
    assert (Hc : columns (_reformat_headers (_reformat_headers df)) =
                 columns (_reformat_headers df)).
    { rewrite (reformat_headers_columns (_reformat_headers df)).
      rewrite (reformat_headers_columns df), map_map.
      apply map_ext. intros x. apply reformat_header_idem. }
    pose proof (reformat_headers_body (_reformat_headers df)) as Hb.
    destruct (_reformat_headers (_reformat_headers df)) as [c1 b1].
    destruct (_reformat_headers df) as [c2 b2].
    simpl in *. now subst.
  - intros df. split;
      [apply reformat_headers_columns | apply reformat_headers_body].
Qed.

(** ** Slices *)

Lemma map_snd_combine {A B} (l1 : list A) (l2 : list B) :
  length l1 = length l2 -> map snd (combine l1 l2) = l2.
Proof.
  revert l2.
  induction l1 as [| a l1 IH]; intros [| b l2] H; simpl in *;
    try discriminate; [reflexivity |].
  f_equal. apply IH. lia.
Qed.

Lemma map_fst_combine {A B} (l1 : list A) (l2 : list B) :
  length l1 = length l2 -> map fst (combine l1 l2) = l1.
Proof.
  revert l2.
  induction l1 as [| a l1 IH]; intros [| b l2] H; simpl in *;
    try discriminate; [reflexivity |].
  f_equal. apply IH. lia.
Qed.

Lemma reset_index_index (df : DataFrame) :
  index (reset_index df) = map ILoc (seq 0 (length (body df))).
Proof.
  unfold reset_index, index, data; simpl.
  apply map_fst_combine. now rewrite !length_map, length_seq.
Qed.

Lemma reset_index_body (df : DataFrame) :
  body (reset_index df) =
  combine (map ILoc (seq 0 (length (data df)))) (data df).
Proof.
  unfold reset_index, data; simpl. now rewrite length_map.
Qed.

(** The mask [df['file_type'] == v] selects [subset v df]. *)
Lemma slice_data (df : DataFrame) (j : nat) (v : string)
      (h : list cell -> list cell) :
  col_pos "file_type" (columns df) = Some j ->
  map snd
    (map snd
       (filter fst
          (combine
             (eq_scalar
                (mkSeries "file_type"
                   (map (fun lr => (fst lr, at_pos j (snd lr))) (body df)))
                v)
             (map (fun lr => (fst lr, h (snd lr))) (body df))))) =
  map h (subset v df).
Proof.
  intros Hj. unfold subset, eq_scalar, values, data; simpl. rewrite Hj.
  induction (body df) as [| [l r] b IH]; simpl; [reflexivity |].
  destruct (cell_is v (at_pos j r)); simpl; now rewrite IH.
Qed.

Lemma missing_none (cols ks : list string) :
  filter (fun k => negb (has_col k cols)) ks = [] <->
  forallb (fun k => has_col k cols) ks = true.
Proof.
  induction ks as [| k ks IH]; simpl; [split; reflexivity |].
  destruct (has_col k cols); simpl; [exact IH | split; discriminate].
Qed.

(** What [frames] returns, and when. *)
Lemma frames_ok (df df1 df2 : DataFrame) :
  frames df = Ok (df1, df2) ->
  forallb (fun k => has_col k (columns df)) cram_columns = true /\
  exists d1 d2,
    df1 = reset_index d1 /\ df2 = reset_index d2 /\
    columns d1 = columns df /\
    data d1 = subset "crai" df /\
    columns d2 = map (mapper cram_renames) cram_columns /\
    data d2 = map (select (columns df) cram_columns) (subset "cram" df).
Proof.
  unfold frames. intros H.
  apply bind_ok in H as [ft [Hft H]].
  apply bind_ok in H as [proj [Hproj H]].
  apply bind_ok in H as [ft' [Hft' H]].
  injection H as <- <-.
  unfold getitem in Hft, Hft'.
  destruct (col_pos "file_type" (columns df)) as [j |] eqn:Hj;
    [| discriminate].
  injection Hft as <-. injection Hft' as <-.
  unfold getitem_list in Hproj.
  destruct (filter (fun k => negb (has_col k (columns df))) cram_columns)
    as [| m ms] eqn:Hm; [| discriminate].
  injection Hproj as <-.
  split; [now apply missing_none |].
  eexists _, _. split; [reflexivity |]. split; [reflexivity |].
  unfold data, getitem_bool; cbn [body columns].
  split; [reflexivity |]. split; [| split; [reflexivity |]].
  - pose proof (slice_data df j "crai" (fun r => r) Hj) as E.
    rewrite map_id in E. rewrite <- E.
    do 4 f_equal. clear. induction (body df) as [| [l r] b IH]; simpl;
      [reflexivity | now rewrite <- IH].
  - unfold rename_columns, rename_index_str; cbn [body columns].
    rewrite map_map; cbn [snd].
    exact (slice_data df j "cram" (select (columns df) cram_columns) Hj).
Qed.

Lemma frames_raise (df : DataFrame) (e : exn) :
  frames df = Raise e -> exists ks, e = KeyError ks.
Proof.
  unfold frames, getitem, getitem_list. intros H.
  destruct (col_pos "file_type" (columns df)) as [j |] eqn:Hj;
    cbn [bind] in H.
  - destruct (filter (fun k => negb (has_col k (columns df))) cram_columns)
      as [| m ms] eqn:Hm; cbn [bind] in H; [discriminate |].
    injection H as <-. eauto.
  - injection H as <-. eauto.
Qed.

Lemma frames_total (df : DataFrame) :
  forallb (fun k => has_col k (columns df)) cram_columns = true ->
  exists fs, frames df = Ok fs.
Proof.
  intros Hall. unfold frames, getitem, getitem_list.
  assert (Hft : has_col "file_type" (columns df) = true).
  { cbn [forallb cram_columns] in Hall.
    now apply andb_true_iff in Hall as [Hft _]. }
  unfold has_col in Hft.
  destruct (col_pos "file_type" (columns df)) as [j |]; [| discriminate].
  apply missing_none in Hall. rewrite Hall. cbn [bind]. eauto.
Qed.

(** ** The join *)

Lemma row_of_range (rows : list (list cell)) (s i : nat) :
  row_of (ILoc (s + i)) (combine (map ILoc (seq s (length rows))) rows) =
  nth_error rows i.
Proof.
  revert s i.
  induction rows as [| r rows IH]; intros s i; simpl.
  - now destruct i.
  - destruct i as [| i]; simpl.
    + now rewrite Nat.add_0_r, Nat.eqb_refl.
    + replace (s =? s + S i)%nat with false
        by (symmetry; apply Nat.eqb_neq; lia).
      replace (s + S i) with (S s + i) by lia. apply IH.
Qed.

Lemma row_at_reset (df : DataFrame) (i : nat) :
  row_at (reset_index df) (ILoc i) =
  fill (length (columns df)) (nth_error (data df) i).
Proof.
  unfold row_at. rewrite reset_index_body.
  pose proof (row_of_range (data df) 0 i) as E. cbn [Nat.add] in E.
  now rewrite E.
Qed.

Lemma joined_ok (df w : DataFrame) :
  joined df = Ok w ->
  forallb (fun k => has_col k (columns df)) cram_columns = true /\
  columns w = wide_columns (columns df) /\
  body w =
    map (fun i =>
           (ILoc i,
            fill (length (columns df)) (nth_error (subset "crai" df) i) ++
            fill 5 (nth_error
                      (map (select (columns df) cram_columns)
                           (subset "cram" df)) i)))
        (seq 0 (length (subset "crai" df))).
Proof.
  unfold joined. intros H.
  apply bind_ok in H as [[df1 df2] [Hf H]]. injection H as <-.
  apply frames_ok in Hf
    as (Hall & d1 & d2 & -> & -> & Hc1 & Hd1 & Hc2 & Hd2).
  split; [exact Hall |].
  unfold concat_axis1; cbn [fst snd flat_map columns body].
  rewrite app_nil_r. split.
  - unfold wide_columns, reset_index; cbn [columns]. now rewrite Hc1, Hc2.
  - rewrite reset_index_index.
    rewrite <- (length_map snd (body d1)). fold (data d1).
    rewrite Hd1, map_map.
    apply map_ext. intros i. rewrite app_nil_r.
    rewrite !row_at_reset, Hd1, Hd2, Hc1, Hc2. reflexivity.
Qed.

(** ** Dropping duplicates *)

Lemma seen_row_in (r : list cell) (seen : list (list cell)) :
  seen_row r seen = true <-> In r seen.
Proof.
  induction seen as [| r' seen IH]; simpl.
  - split; [discriminate | intros []].
  - rewrite orb_true_iff, row_eqb_eq, IH. reflexivity.
Qed.

Lemma keep_first_length (seen : list (list cell))
      (b : list (label * list cell)) :
  length (keep_first seen b) <= length b.
Proof.
  revert seen.
  induction b as [| [l r] b IH]; intros seen; simpl; [lia |].
  destruct (seen_row r seen); simpl.
  - specialize (IH seen). lia.
  - specialize (IH (r :: seen)). lia.
Qed.

Lemma keep_first_distinct (seen : list (list cell))
      (b : list (label * list cell)) :
  NoDup (map snd b) ->
  (forall r, In r (map snd b) -> ~ In r seen) ->
  keep_first seen b = b.
Proof.
  revert seen.
  induction b as [| [l r] b IH]; intros seen Hnd Hfresh; simpl;
    [reflexivity |].
  simpl in Hnd. inversion Hnd as [| ? ? Hnin Hnd']; subst.
  destruct (seen_row r seen) eqn:E.
  - apply seen_row_in in E. exfalso.
    apply (Hfresh r); [now left | exact E].
  - f_equal. apply IH; [exact Hnd' |].
    intros r' Hin [<- | Hseen]; [contradiction |].
    apply (Hfresh r'); [now right | exact Hseen].
Qed.

(** ** The index list *)

Lemma take_at_ok (L : list string) (idx : list nat) (order : list string) :
  take_at L idx = Ok order ->
  order = map (fun x => nth x L "") idx /\
  Forall (fun x => x < length L) idx.
Proof.
  revert order.
  induction idx as [| x idx IH]; intros order H; simpl in H.
  - injection H as <-. split; [reflexivity | constructor].
  - destruct (nth_error L x) as [c |] eqn:E; [| discriminate].
    apply bind_ok in H as [rest [Hrest H]]. injection H as <-.
    destruct (IH rest Hrest) as [-> Hall].
    split.
    + simpl. f_equal. symmetry. now apply nth_error_nth.
    + constructor; [| exact Hall].
      apply nth_error_Some. congruence.
Qed.

Lemma take_at_raise (L : list string) (idx : list nat) (e : exn) :
  take_at L idx = Raise e ->
  e = IndexError /\ Exists (fun x => length L <= x) idx.
Proof.
  induction idx as [| x idx IH]; intros H; simpl in H; [discriminate |].
  destruct (nth_error L x) as [c |] eqn:E.
  - apply bind_raise in H as [H | [rest [_ H]]]; [| discriminate].
    destruct (IH H) as [-> Hex]. split; [reflexivity | now right].
  - injection H as <-. split; [reflexivity |].
    left. now apply nth_error_None.
Qed.

Lemma new_index_in_range (n : nat) :
  Forall (fun x => x < n) new_index <-> 27 <= n.
Proof.
  split.
  - intros H. rewrite Forall_forall in H.
    assert (H26 : In 26 new_index) by (unfold new_index; simpl; tauto).
    specialize (H 26 H26). lia.
  - intros H. unfold new_index; simpl. repeat constructor; lia.
Qed.

(** ** What [finish] does *)

Lemma finish_ok (w : DataFrame) (p : Series) (s : DataFrame) :
  finish w = Ok (p, s) ->
  exists j order s0,
    col_pos "donor_uuid" (columns w) = Some j /\
    take_at (columns w) new_index = Ok order /\
    reindex_columns w order = Ok s0 /\
    p = mkSeries "entity:participant_id"
          (map (fun lr => (fst lr, at_pos j (snd lr))) (body w)) /\
    s = rename_columns (mapper sample_renames) (rename_index_str s0).
Proof.
  unfold finish. intros H.
  apply bind_ok in H as [p0 [Hp H]].
  apply bind_ok in H as [order [Ho H]].
  apply bind_ok in H as [s0 [Hs H]].
  injection H as <- <-.
  unfold getitem in Hp.
  destruct (col_pos "donor_uuid" (columns w)) as [j |] eqn:Hj;
    [| discriminate].
  injection Hp as <-.
  exists j, order, s0. repeat split; assumption || reflexivity.
Qed.

Lemma reindex_columns_length (w s0 : DataFrame) (order : list string) :
  reindex_columns w order = Ok s0 -> length (body s0) = length (body w).
Proof.
  unfold reindex_columns. intros H.
  destruct (labels_eqb (columns w) order).
  - now injection H as <-.
  - destruct (is_unique (columns w)); [| discriminate].
    injection H as <-. simpl. now rewrite length_map.
Qed.

Lemma finish_length (w : DataFrame) (p : Series) (s : DataFrame) :
  finish w = Ok (p, s) ->
  length (items p) = length (body w) /\ length (body s) = length (body w).
Proof.
  intros H.
  apply finish_ok in H as (j & order & s0 & _ & _ & Hs & -> & ->).
  simpl. rewrite !length_map. split; [reflexivity |].
  now apply reindex_columns_length in Hs.
Qed.

(** Whether [finish] raises, and what, is decided by the column labels. *)
Lemma finish_raise_cols (a b : DataFrame) (e : exn) :
  columns a = columns b -> finish a = Raise e -> finish b = Raise e.
Proof.
  unfold finish, getitem, reindex_columns. intros Hc H.
  rewrite <- Hc.
  destruct (col_pos "donor_uuid" (columns a)) as [j |]; cbn [bind] in *;
    [| exact H].
  destruct (take_at (columns a) new_index) as [order |]; cbn [bind] in *;
    [| exact H].
  destruct (labels_eqb (columns a) order); cbn [bind] in *; [discriminate |].
  destruct (is_unique (columns a)); cbn [bind] in *; [discriminate |].
  exact H.
Qed.

Lemma joined_total (df : DataFrame) :
  forallb (fun k => has_col k (columns df)) cram_columns = true ->
  exists w, joined df = Ok w.
Proof.
  intros Hall. destruct (frames_total df Hall) as [fs Hfs].
  unfold joined. rewrite Hfs. cbn [bind]. eauto.
Qed.

Lemma joined_raise (df : DataFrame) (e : exn) :
  joined df = Raise e ->
  forallb (fun k => has_col k (columns df)) cram_columns = false /\
  exists ks, e = KeyError ks.
Proof.
  intros H. split.
  - destruct (forallb (fun k => has_col k (columns df)) cram_columns) eqn:E;
      [| reflexivity].
    destruct (joined_total df E) as [w Hw]. congruence.
  - unfold joined in H.
    apply bind_raise in H as [H | [fs [_ H]]]; [| discriminate].
    now apply frames_raise in H.
Qed.

Lemma joined_raise_cols (a b : DataFrame) (e : exn) :
  columns a = columns b -> joined a = Raise e -> joined b = Raise e.
Proof.
  unfold joined, frames, getitem, getitem_list. intros Hc H.
  rewrite <- Hc.
  destruct (col_pos "file_type" (columns a)) as [j |]; cbn [bind] in *;
    [| exact H].
  destruct (filter (fun k => negb (has_col k (columns a))) cram_columns);
    cbn [bind] in *; [discriminate | exact H].
Qed.

Lemma transform_raise_cols (a b : DataFrame) (e : exn) :
  columns a = columns b -> transform a = Raise e -> transform b = Raise e.
Proof.
  unfold transform. intros Hc H.
  apply bind_raise in H as [H | [wa [Ha H]]].
  - now rewrite (joined_raise_cols a b e Hc H).
  - destruct (joined b) as [wb | eb] eqn:Hb.
    + cbn [bind]. apply (finish_raise_cols (drop_duplicates wa) (drop_duplicates wb) e); [| exact H].
      apply joined_ok in Ha as (_ & Hca & _).
      apply joined_ok in Hb as (_ & Hcb & _).
      unfold drop_duplicates; simpl. now rewrite Hca, Hcb, Hc.
    + symmetry in Hc. apply (joined_raise_cols b a eb Hc) in Hb. congruence.
Qed.

Lemma transform_ok_cols (a b : DataFrame) (r : Series * DataFrame) :
  columns a = columns b -> transform a = Ok r -> exists r', transform b = Ok r'.
Proof.
  intros Hc H.
  destruct (transform b) as [r' | e] eqn:Hb; [eauto |].
  symmetry in Hc. apply (transform_raise_cols b a e Hc) in Hb. congruence.
Qed.

(** ** The rows of the join *)

Lemma nth_error_map_seq {A} (g : nat -> A) (n i : nat) :
  i < n -> nth_error (map g (seq 0 n)) i = Some (g i).
Proof.
  intros Hi. rewrite nth_error_map.
  rewrite (nth_error_nth' (seq 0 n) 0) by now rewrite length_seq.
  rewrite seq_nth by exact Hi. reflexivity.
Qed.

Lemma joined_rows (df w : DataFrame) :
  joined df = Ok w ->
  length (body w) = length (subset "crai" df) /\
  forall i r,
    nth_error (subset "crai" df) i = Some r ->
    nth_error (data w) i =
    Some (r ++ match nth_error (subset "cram" df) i with
               | Some r2 => select (columns df) cram_columns r2
               | None => repeat NaN 5
               end).
Proof.
  intros H. apply joined_ok in H as (_ & _ & Hb).
  split.
  - now rewrite Hb, length_map, length_seq.
  - intros i r Hr. unfold data. rewrite Hb, map_map. cbn [snd].
    rewrite nth_error_map_seq
      by (apply nth_error_Some; congruence).
    rewrite Hr, nth_error_map. cbn [fill].
    now destruct (nth_error (subset "cram" df) i).
Qed.

Lemma transform_ok (df : DataFrame) (p : Series) (s : DataFrame) :
  transform df = Ok (p, s) ->
  exists w, joined df = Ok w /\ finish (drop_duplicates w) = Ok (p, s).
Proof.
  unfold transform. intros H. now apply bind_ok in H.
Qed.

Lemma drop_duplicates_length (w : DataFrame) :
  length (body (drop_duplicates w)) <= length (body w).
Proof. apply keep_first_length. Qed.

Lemma drop_duplicates_distinct (w : DataFrame) :
  NoDup (data w) -> drop_duplicates w = w.
Proof.
  intros Hnd. unfold drop_duplicates.
  rewrite keep_first_distinct; [now destruct w | exact Hnd | auto].
Qed.

(** C1 (amended).  A difference between the number of cram rows and the
    number of crai rows never makes [transform] raise: a table with the same
    column labels as one that [transform] accepts is accepted too, whatever
    its rows.  The join follows the crai subset: it has one row per crai
    row, the i-th crai row followed by the five projected cells of the i-th
    cram row when there is one, and by five missing values otherwise; cram
    rows beyond the crai count are left out.  SampleTable has one row per
    distinct row of this join. *)
Theorem join_follows_crai_subset (df : DataFrame) (p : Series)
        (s : DataFrame) :
  NoDup (columns df) ->
  transform df = Ok (p, s) ->
  (forall df', columns df' = columns df -> exists r, transform df' = Ok r) /\
  exists w,
    joined df = Ok w /\
    length (body w) = length (subset "crai" df) /\
    (forall i r,
       nth_error (subset "crai" df) i = Some r ->
       nth_error (data w) i =
       Some (r ++ match nth_error (subset "cram" df) i with
                  | Some r2 => select (columns df) cram_columns r2
                  | None => repeat NaN 5
                  end)) /\
    length (body s) = length (body (drop_duplicates w)) /\
    length (body s) <= length (subset "crai" df).
Proof.
  intros _ H. split.
  - intros df' Hc. symmetry in Hc. eapply transform_ok_cols; eauto.
  - apply transform_ok in H as (w & Hw & Hf).
    exists w. split; [exact Hw |].
    destruct (joined_rows df w Hw) as [Hlen Hrows].
    apply finish_length in Hf as [_ Hs].
    repeat split; try assumption.
    rewrite Hs, <- Hlen. apply drop_duplicates_length.
Qed.

(** C5 (amended).  For a table with N cram rows and N crai rows, the join
    has exactly N rows, the i-th crai row beside the projected cells of the
    i-th cram row.  The SampleTable that [transform] returns is the join
    with exact duplicates already removed: it has at most N rows, and
    exactly N when the rows of the join are pairwise distinct. *)
Theorem sample_rows_for_complete_pairs (df : DataFrame) (p : Series)
        (s : DataFrame) (N : nat) :
  NoDup (columns df) ->
  transform df = Ok (p, s) ->
  length (subset "cram" df) = N ->
  length (subset "crai" df) = N ->
  exists w,
    joined df = Ok w /\
    length (body w) = N /\
    (forall i r1 r2,
       nth_error (subset "crai" df) i = Some r1 ->
       nth_error (subset "cram" df) i = Some r2 ->
       nth_error (data w) i =
       Some (r1 ++ select (columns df) cram_columns r2)) /\
    length (body s) <= N /\
    (NoDup (data w) -> length (body s) = N).
Proof.
  intros _ H Hcram Hcrai.
  apply transform_ok in H as (w & Hw & Hf).
  exists w. split; [exact Hw |].
  destruct (joined_rows df w Hw) as [Hlen Hrows].
  apply finish_length in Hf as [_ Hs].
  split; [congruence |]. split; [| split].
  - intros i r1 r2 H1 H2. rewrite (Hrows i r1 H1), H2. reflexivity.
  - rewrite Hs, <- Hcrai, <- Hlen. apply drop_duplicates_length.
  - intros Hnd. rewrite Hs, drop_duplicates_distinct by exact Hnd.
    congruence.
Qed.

(** ** When [transform] raises *)

Lemma wide_columns_length (cols : list string) :
  length (wide_columns cols) = length cols + 5.
Proof. unfold wide_columns. now rewrite length_app. Qed.

Lemma donor_in_wide (cols : list string) :
  In "donor_uuid" (wide_columns cols) <-> In "donor_uuid" cols.
Proof.
  unfold wide_columns. rewrite in_app_iff. split; [| tauto].
  intros [H | H]; [exact H |].
  apply has_col_in in H. vm_compute in H. discriminate.
Qed.

Lemma finish_raise (w : DataFrame) (e : exn) :
  finish w = Raise e ->
  (~ In "donor_uuid" (columns w) /\ e = KeyError ["donor_uuid"]) \/
  (In "donor_uuid" (columns w) /\ length (columns w) < 27 /\
   e = IndexError) \/
  (In "donor_uuid" (columns w) /\ 27 <= length (columns w) /\
   e = ValueError).
Proof.
  unfold finish, getitem. intros H.
  destruct (col_pos "donor_uuid" (columns w)) as [j |] eqn:Hj;
    cbn [bind] in H.
  - right.
    assert (Hin : In "donor_uuid" (columns w)).
    { apply col_pos_some in Hj. now apply nth_error_In in Hj. }
    destruct (take_at (columns w) new_index) as [order |] eqn:Ho;
      cbn [bind] in H.
    + right. apply take_at_ok in Ho as [_ Hall].
      apply new_index_in_range in Hall.
      unfold reindex_columns in H.
      destruct (labels_eqb (columns w) order); cbn [bind] in H;
        [discriminate |].
      destruct (is_unique (columns w)); cbn [bind] in H; [discriminate |].
      injection H as <-. auto.
    + left. apply take_at_raise in Ho as [-> Hex]. injection H as <-.
      split; [exact Hin |]. split; [| reflexivity].
      destruct (le_lt_dec 27 (length (columns w))) as [Hle | Hlt];
        [| exact Hlt].
      apply new_index_in_range in Hle. rewrite Forall_forall in Hle.
      apply Exists_exists in Hex as (x & Hx & Hlen).
      specialize (Hle x Hx). lia.
  - left. injection H as <-. split; [| reflexivity].
    now apply col_pos_none.
Qed.

Lemma missing_required (cols : list string) :
  forallb (fun k => has_col k cols) cram_columns = false ->
  exists k, In k required_columns /\ ~ In k cols.
Proof.
  intros H.
  assert (Hex : exists k, In k cram_columns /\ has_col k cols = false).
  { induction cram_columns as [| k ks IH]; simpl in H; [discriminate |].
    destruct (has_col k cols) eqn:E.
    - destruct (IH H) as (k' & Hin & Hk'). exists k'. split; [now right | exact Hk'].
    - exists k. split; [now left | exact E]. }
  destruct Hex as (k & Hin & Hk). exists k. split.
  - unfold required_columns. apply in_app_iff. now left.
  - intros Hc. apply has_col_in in Hc. congruence.
Qed.

(** C7 (amended).  [transform] raises a key error exactly when one of the
    columns it looks up by label is absent: [file_type], the four other
    projected file columns, or [donor_uuid].  A label that only the rename
    dictionaries mention ([sample_uuid], [metadata.json]) may be absent
    without any error, and the numeric reorder list never raises a key
    error. *)
Theorem key_error_iff_required_column_absent (df : DataFrame) :
  NoDup (columns df) ->
  (exists ks, transform df = Raise (KeyError ks)) <->
  (exists k, In k required_columns /\ ~ In k (columns df)).
Proof.
  intros _. split.
  - intros [ks H]. unfold transform in H.
    apply bind_raise in H as [H | [w [Hw H]]].
    + apply joined_raise in H as [H _]. now apply missing_required.
    + apply joined_ok in Hw as (_ & Hc & _).
      apply finish_raise in H as [[Hnin _] | [(_ & _ & H) | (_ & _ & H)]];
        try discriminate.
      exists "donor_uuid". split.
      * unfold required_columns. apply in_app_iff. right. now left.
      * intros Hin. apply Hnin. unfold drop_duplicates; simpl.
        rewrite Hc. now apply donor_in_wide.
  - intros (k & Hk & Hnin). unfold transform.
    destruct (joined df) as [w | e] eqn:Hw; cbn [bind].
    + apply joined_ok in Hw as (Hall & Hc & _).
      unfold required_columns in Hk. apply in_app_iff in Hk as [Hk | Hk].
      * exfalso. rewrite forallb_forall in Hall.
        apply Hnin, has_col_in, Hall, Hk.
      * destruct Hk as [<- | []].
        exists ["donor_uuid"]. unfold finish, getitem.
        unfold drop_duplicates; simpl. rewrite Hc.
        replace (col_pos "donor_uuid" (wide_columns (columns df)))
          with (@None nat); [reflexivity |].
        symmetry. apply col_pos_none. now rewrite donor_in_wide.
    + apply joined_raise in Hw as [_ [ks ->]]. eauto.
Qed.

(** C9 (amended).  [transform] returns a result only when the wide table
    has at least 27 columns.  When the wide table has fewer, [transform]
    raises: an index error from the reorder list when the wide table has a
    [donor_uuid] column, and before that a key error when it has none. *)
Theorem fewer_than_27_columns_raise (df : DataFrame) :
  NoDup (columns df) ->
  (forall r, transform df = Ok r ->
             27 <= length (wide_columns (columns df))) /\
  (forall w,
     joined df = Ok w ->
     length (columns w) < 27 ->
     (In "donor_uuid" (columns w) -> transform df = Raise IndexError) /\
     (~ In "donor_uuid" (columns w) ->
      transform df = Raise (KeyError ["donor_uuid"]))).
Proof.
  intros _. split.
  - intros [p s] H.
    apply transform_ok in H as (w & Hw & Hf).
    apply joined_ok in Hw as (_ & Hc & _).
    apply finish_ok in Hf as (j & order & s0 & _ & Ho & _).
    apply take_at_ok in Ho as [_ Hall].
    apply new_index_in_range in Hall.
    unfold drop_duplicates in Hall; simpl in Hall. now rewrite Hc in Hall.
  - intros w Hw Hlt. unfold transform. rewrite Hw. cbn [bind].
    destruct (finish (drop_duplicates w)) as [r | e] eqn:Hf.
    + exfalso. destruct r as [p s].
      apply finish_ok in Hf as (j & order & s0 & _ & Ho & _).
      apply take_at_ok in Ho as [_ Hall].
      apply new_index_in_range in Hall.
      unfold drop_duplicates in Hall; simpl in Hall. lia.
    + apply finish_raise in Hf.
      unfold drop_duplicates in Hf; simpl in Hf.
      destruct Hf as [[Hnin ->] | [(Hin & _ & ->) | (_ & Hge & _)]];
        [| | lia]; split; intros H; try reflexivity; contradiction.
Qed.

(** ** The participant column *)

(** With distinct input labels the reorder list never gives back the wide
    header itself, so [reindex] really selects. *)
Lemma wide_is_reordered (cols order : list string) :
  NoDup cols ->
  take_at (wide_columns cols) new_index = Ok order ->
  labels_eqb (wide_columns cols) order = false.
Proof.
  intros Hnd Ho.
  destruct (labels_eqb (wide_columns cols) order) eqn:E; [| reflexivity].
  exfalso. apply labels_eqb_eq in E.
  apply take_at_ok in Ho as [Horder Hall].
  apply new_index_in_range in Hall.
  rewrite wide_columns_length in Hall.
  assert (H0 : nth 0 (wide_columns cols) "" = nth 11 (wide_columns cols) "").
  { rewrite E at 1. rewrite Horder. reflexivity. }
  unfold wide_columns in H0.
  rewrite !app_nth1 in H0 by lia.
  apply (proj1 (NoDup_nth cols "") Hnd) in H0; [discriminate | lia | lia].
Qed.

Lemma select_at (cols order : list string) (r : list cell) (q : nat)
      (k : string) (j : nat) :
  nth_error order q = Some k ->
  col_pos k cols = Some j ->
  at_pos q (select cols order r) = at_pos j r.
Proof.
  intros Hq Hj. unfold at_pos at 1, select.
  assert (Hlt : q < length order) by (apply nth_error_Some; congruence).
  rewrite (nth_indep _ NaN
             (match col_pos "" cols with
              | Some j => at_pos j r
              | None => NaN
              end))
    by now rewrite length_map.
  rewrite (map_nth (fun k => match col_pos k cols with
                             | Some j => at_pos j r
                             | None => NaN
                             end) order "" q).
  rewrite (nth_error_nth order q "" Hq), Hj. reflexivity.
Qed.

Lemma finish_selects (w : DataFrame) (p : Series) (s : DataFrame) :
  is_unique (columns w) = true ->
  (forall order, take_at (columns w) new_index = Ok order ->
                 labels_eqb (columns w) order = false) ->
  finish w = Ok (p, s) ->
  exists j order,
    col_pos "donor_uuid" (columns w) = Some j /\
    take_at (columns w) new_index = Ok order /\
    items p = map (fun lr => (fst lr, at_pos j (snd lr))) (body w) /\
    columns s = map (mapper sample_renames) order /\
    body s = map (fun lr => (SLoc (str (fst lr)),
                             select (columns w) order (snd lr))) (body w).
Proof.
  intros Hu Hneq H.
  apply finish_ok in H as (j & order & s0 & Hj & Ho & Hs & -> & ->).
  exists j, order. split; [exact Hj |]. split; [exact Ho |].
  split; [reflexivity |].
  unfold reindex_columns in Hs. rewrite (Hneq order Ho), Hu in Hs.
  injection Hs as <-. simpl. split; [reflexivity |].
  rewrite map_map. reflexivity.
Qed.

Lemma transform_selects (df : DataFrame) (p : Series) (s : DataFrame) :
  NoDup (columns df) ->
  transform df = Ok (p, s) ->
  exists w j order,
    joined df = Ok w /\
    col_pos "donor_uuid" (columns w) = Some j /\
    take_at (columns w) new_index = Ok order /\
    items p = map (fun lr => (fst lr, at_pos j (snd lr)))
                  (body (drop_duplicates w)) /\
    columns s = map (mapper sample_renames) order /\
    body s = map (fun lr => (SLoc (str (fst lr)),
                             select (columns w) order (snd lr)))
                 (body (drop_duplicates w)).
Proof.
  intros Hnd H.
  apply transform_ok in H as (w & Hw & Hf).
  pose proof Hw as Hw'. apply joined_ok in Hw' as (_ & Hc & _).
  assert (Hneq : forall order,
             take_at (columns (drop_duplicates w)) new_index = Ok order ->
             labels_eqb (columns (drop_duplicates w)) order = false).
  { unfold drop_duplicates; simpl. rewrite Hc. intros order.
    now apply wide_is_reordered. }
  assert (Hu : is_unique (columns (drop_duplicates w)) = true).
  { pose proof Hf as Hf'.
    apply finish_ok in Hf' as (j & order & s0 & _ & Ho & Hs & _).
    unfold reindex_columns in Hs. rewrite (Hneq order Ho) in Hs.
    destruct (is_unique (columns (drop_duplicates w)));
      [reflexivity | discriminate]. }
  destruct (finish_selects _ p s Hu Hneq Hf)
    as (j & order & Hj & Ho & Hp & Hcs & Hbs).
  exists w, j, order. repeat split; assumption.
Qed.

(** C3 (amended).  ParticipantTable is the [donor_uuid] column of the wide
    table after exact-duplicate rows are dropped, under the name
    [entity:participant_id]: it has one entry per SampleTable row, in row
    order, and is not deduplicated any further.  Where the reorder list
    picks the [donor_uuid] column, SampleTable shows it as [participant_id]
    with the same values, so every SampleTable row has its donor in
    ParticipantTable at the same position (at least once, not exactly
    once). *)
Theorem participant_lists_sample_donors (df : DataFrame) (p : Series)
        (s : DataFrame) :
  NoDup (columns df) ->
  transform df = Ok (p, s) ->
  name p = "entity:participant_id" /\
  length (values p) = length (body s) /\
  map (fun l => SLoc (str l)) (map fst (items p)) = index s /\
  exists w,
    joined df = Ok w /\
    forall q x,
      nth_error new_index q = Some x ->
      nth_error (columns w) x = Some "donor_uuid" ->
      nth_error (columns s) q = Some "participant_id" /\
      map (at_pos q) (data s) = values p.
Proof.
  intros Hnd H.
  assert (Hname : name p = "entity:participant_id").
  { apply transform_ok in H as (w & _ & Hf).
    now apply finish_ok in Hf as (? & ? & ? & _ & _ & _ & -> & _). }
  destruct (transform_selects df p s Hnd H)
    as (w & j & order & Hw & Hj & Ho & Hp & Hcs & Hbs).
  split; [exact Hname |].
  unfold values, index, data. rewrite Hp, Hbs, !map_map, !length_map.
  split; [reflexivity |]. split; [reflexivity |].
  exists w. split; [exact Hw |].
  intros q x Hq Hx.
  apply take_at_ok in Ho as [Horder _].
  assert (Hoq : nth_error order q = Some "donor_uuid").
  { rewrite Horder, nth_error_map, Hq. simpl. f_equal.
    now apply nth_error_nth. }
  split.
  - now rewrite Hcs, nth_error_map, Hoq.
  - rewrite ?map_map. apply map_ext. intros [l r]. cbn [fst snd].
    now apply (select_at (columns w) order r q "donor_uuid" j Hoq Hj).
Qed.

(** ** The example scenario *)

Ltac destruct_row r Hlen :=
  repeat (destruct r as [| ? r]; simpl in Hlen; try discriminate Hlen).

(** C4 (amended).  For the example input, a crai row and a cram row with
    donor D1 and sample S1, the cram row with [file_path] a.cram,
    [transform] returns the ParticipantTable [D1] and a SampleTable of one
    row with [participant_id] D1 and [entity:sample_id] S1.  The crai row
    keeps the suffix 1 and the cram row gets the suffix 2: a.cram is under
    [file_path2], and [file_path1] holds the [file_path] of the crai row. *)
Theorem example_pair_tables (crai cram : list cell) :
  length crai = 22 ->
  length cram = 22 ->
  row_cell (example_pair crai cram) crai "file_type" = Some (Str "crai") ->
  row_cell (example_pair crai cram) crai "donor_uuid" = Some (Str "D1") ->
  row_cell (example_pair crai cram) crai "sample_uuid" = Some (Str "S1") ->
  row_cell (example_pair crai cram) cram "file_type" = Some (Str "cram") ->
  row_cell (example_pair crai cram) cram "donor_uuid" = Some (Str "D1") ->
  row_cell (example_pair crai cram) cram "sample_uuid" = Some (Str "S1") ->
  row_cell (example_pair crai cram) cram "file_path" = Some (Str "a.cram") ->
  exists p s row,
    transform (example_pair crai cram) = Ok (p, s) /\
    values p = [Str "D1"] /\
    data s = [row] /\
    row_cell s row "participant_id" = Some (Str "D1") /\
    row_cell s row "entity:sample_id" = Some (Str "S1") /\
    row_cell s row "file_path2" = Some (Str "a.cram") /\
    row_cell s row "file_path1" =
      row_cell (example_pair crai cram) crai "file_path".
Proof.
  intros Hl1 Hl2 Ht1 Hd1 Hs1 Ht2 Hd2 Hs2 Hp2.
  destruct_row crai Hl1. destruct_row cram Hl2.
  vm_compute in Ht1, Hd1, Hs1, Ht2, Hd2, Hs2, Hp2.
  injection Ht1 as ->. injection Hd1 as ->. injection Hs1 as ->.
  injection Ht2 as ->. injection Hd2 as ->. injection Hs2 as ->.
  injection Hp2 as ->.
  eexists _, _, _.
  split; [vm_compute; reflexivity |].
  repeat split; vm_compute; reflexivity.
Qed.

(** ** [__normalize] *)

Lemma normalize_loop_ok (filetype : list cell) (nrecords : nat)
      (L out : list string) :
  filetype <> [] ->
  normalize_loop filetype nrecords L out = Ok (out ++ L).
Proof.
  intros Hne. revert out.
  induction L as [| item L IH]; intros out; simpl.
  - now rewrite app_nil_r.
  - destruct filetype as [| v vs]; [contradiction |]. simpl.
    rewrite IH, <- app_assoc. reflexivity.
Qed.

Lemma unique_nonempty (s : Series) : items s <> [] -> unique s <> [].
Proof.
  unfold unique, values. destruct (items s) as [| [l v] its];
    [contradiction |].
  intros _. simpl. discriminate.
Qed.

(** C10 (amended).  For every stored table that has the columns
    [donor_uuid] and [file_type] and at least one row, [__normalize] prints
    the labels that contain [File] or [file] and returns the stored table
    unchanged: the loop computes values and drops them. *)
Theorem normalize_is_identity (df : DataFrame) :
  NoDup (columns df) ->
  In "donor_uuid" (columns df) ->
  In "file_type" (columns df) ->
  body df <> [] ->
  __normalize df = Ok (filter search_file (columns df), df).
Proof.
  intros _ Hd Ht Hrows. unfold __normalize, getitem.
  destruct (col_pos "donor_uuid" (columns df)) as [jd |] eqn:Ed.
  2: { apply col_pos_none in Ed. contradiction. }
  destruct (col_pos "file_type" (columns df)) as [jt |] eqn:Et.
  2: { apply col_pos_none in Et. contradiction. }
  cbn [bind].
  rewrite normalize_loop_ok; [reflexivity |].
  apply unique_nonempty. cbn [items].
  destruct (body df); [contradiction | discriminate].
Qed.

(** ** The statements on concrete tables *)

Lemma manifest_header_distinct : NoDup manifest_header.
Proof. apply is_unique_nodup. reflexivity. Qed.

(** Against C1 as stated: with three crai rows and two cram rows the
    SampleTable has three rows, not two; the third has no cram cells. *)
Lemma three_crai_two_cram_keeps_three_rows :
  length (subset "cram" three_crai_two_cram) = 2 /\
  length (subset "crai" three_crai_two_cram) = 3 /\
  exists p s row,
    transform three_crai_two_cram = Ok (p, s) /\
    length (body s) = 3 /\
    length (body s) <> Nat.min 3 2 /\
    nth_error (data s) 2 = Some row /\
    row_cell s row "entity:sample_id" = Some (Str "S3") /\
    row_cell s row "file_path2" = Some NaN.
Proof.
  split; [reflexivity |]. split; [reflexivity |].
  eexists _, _, _.
  split; [vm_compute; reflexivity |].
  split; [reflexivity |].
  split; [vm_compute; discriminate |].
  split; [vm_compute; reflexivity |].
  split; vm_compute; reflexivity.
Qed.

Lemma join_follows_crai_subset_witness :
  NoDup (columns three_crai_two_cram) /\
  transform three_crai_two_cram = Ok (tables three_crai_two_cram) /\
  exists w,
    joined three_crai_two_cram = Ok w /\
    length (body w) = 3 /\
    length (body (snd (tables three_crai_two_cram))) <= 3.
Proof.
  assert (Ht : transform three_crai_two_cram =
               Ok (fst (tables three_crai_two_cram),
                   snd (tables three_crai_two_cram)))
    by (vm_compute; reflexivity).
  split; [exact manifest_header_distinct |].
  split; [vm_compute; reflexivity |].
  destruct (join_follows_crai_subset three_crai_two_cram _ _
              manifest_header_distinct Ht)
    as (_ & w & Hw & Hlen & _ & _ & Hle).
  exists w. split; [exact Hw |]. split; [exact Hlen | exact Hle].
Defined.

(** Against C3 as stated: two samples of one donor give a ParticipantTable
    that lists the donor twice. *)
Lemma shared_donor_listed_twice :
  exists p s,
    transform two_samples_one_donor = Ok (p, s) /\
    values p = [Str "D1"; Str "D1"] /\
    ~ NoDup (values p).
Proof.
  eexists _, _.
  split; [vm_compute; reflexivity |].
  split; [reflexivity |].
  intros H. inversion H as [| ? ? Hnin _]; subst.
  apply Hnin. now left.
Qed.

Lemma participant_lists_sample_donors_witness :
  NoDup (columns two_samples_one_donor) /\
  transform two_samples_one_donor = Ok (tables two_samples_one_donor) /\
  length (values (fst (tables two_samples_one_donor))) =
  length (body (snd (tables two_samples_one_donor))).
Proof.
  assert (Ht : transform two_samples_one_donor =
               Ok (fst (tables two_samples_one_donor),
                   snd (tables two_samples_one_donor)))
    by (vm_compute; reflexivity).
  split; [exact manifest_header_distinct |].
  split; [vm_compute; reflexivity |].
  exact (proj1 (proj2 (participant_lists_sample_donors
                         two_samples_one_donor _ _
                         manifest_header_distinct Ht))).
Defined.

(** Against C4 as stated: in the example the cell under [file_path1] is the
    path of the crai row, not a.cram. *)
Lemma one_pair_file_path1_is_crai :
  exists p s row,
    transform one_pair = Ok (p, s) /\
    data s = [row] /\
    row_cell s row "file_path1" = Some (Str "a.cram.crai") /\
    row_cell s row "file_path1" <> Some (Str "a.cram").
Proof.
  eexists _, _, _.
  split; [vm_compute; reflexivity |].
  split; [reflexivity |].
  split; [vm_compute; reflexivity | vm_compute; discriminate].
Qed.

Lemma example_pair_tables_witness :
  exists p s row,
    transform one_pair = Ok (p, s) /\
    data s = [row] /\
    row_cell s row "file_path2" = Some (Str "a.cram").
Proof.
  destruct (example_pair_tables
              (manifest_row "D1" "S1" "crai" "a.cram.crai")
              (manifest_row "D1" "S1" "cram" "a.cram")
              eq_refl eq_refl eq_refl eq_refl eq_refl eq_refl eq_refl
              eq_refl eq_refl)
    as (p & s & row & Ht & _ & Hrow & _ & _ & Hpath & _).
  exists p, s, row. split; [exact Ht |]. split; [exact Hrow | exact Hpath].
Defined.

(** Against C5 as stated: the same pair listed twice makes two cram rows
    and two crai rows, and a SampleTable of one row. *)
Lemma pair_listed_twice_one_row :
  length (subset "cram" pair_listed_twice) = 2 /\
  length (subset "crai" pair_listed_twice) = 2 /\
  exists p s,
    transform pair_listed_twice = Ok (p, s) /\
    length (body s) = 1.
Proof.
  split; [reflexivity |]. split; [reflexivity |].
  eexists _, _. split; [vm_compute; reflexivity | reflexivity].
Qed.

Lemma sample_rows_for_complete_pairs_witness :
  NoDup (columns two_samples_one_donor) /\
  transform two_samples_one_donor = Ok (tables two_samples_one_donor) /\
  length (subset "cram" two_samples_one_donor) = 2 /\
  length (subset "crai" two_samples_one_donor) = 2 /\
  length (body (snd (tables two_samples_one_donor))) <= 2.
Proof.
  assert (Ht : transform two_samples_one_donor =
               Ok (fst (tables two_samples_one_donor),
                   snd (tables two_samples_one_donor)))
    by (vm_compute; reflexivity).
  split; [exact manifest_header_distinct |].
  split; [vm_compute; reflexivity |].
  split; [reflexivity |]. split; [reflexivity |].
  destruct (sample_rows_for_complete_pairs two_samples_one_donor _ _ 2
              manifest_header_distinct Ht eq_refl eq_refl)
    as (w & _ & _ & _ & Hle & _).
  exact Hle.
Defined.

(** Against C7 as stated: [sample_uuid] and [metadata.json] are keys of the
    rename dictionary; a table without them goes through. *)
Lemma renamed_labels_may_be_absent :
  In "sample_uuid" (map fst sample_renames) /\
  In "metadata.json" (map fst sample_renames) /\
  ~ In "sample_uuid" (columns no_sample_uuid) /\
  ~ In "metadata.json" (columns no_sample_uuid) /\
  exists r, transform no_sample_uuid = Ok r.
Proof.
  split; [simpl; tauto |]. split; [simpl; tauto |].
  split; [| split].
  - intros H. apply has_col_in in H. vm_compute in H. discriminate.
  - intros H. apply has_col_in in H. vm_compute in H. discriminate.
  - eexists. vm_compute. reflexivity.
Qed.

Lemma key_error_iff_required_column_absent_witness :
  NoDup (columns file_columns_only) /\
  exists ks, transform file_columns_only = Raise (KeyError ks).
Proof.
  assert (Hnd : NoDup (columns file_columns_only))
    by (apply is_unique_nodup; reflexivity).
  split; [exact Hnd |].
  apply (proj2 (key_error_iff_required_column_absent file_columns_only Hnd)).
  exists "donor_uuid". split.
  - unfold required_columns. apply in_app_iff. right. now left.
  - intros H. apply has_col_in in H. vm_compute in H. discriminate.
Defined.

(** Against C9 as stated: a wide table of ten columns without [donor_uuid]
    makes [transform] raise a key error, not an index error. *)
Lemma narrow_table_raises_key_error :
  exists w,
    joined file_columns_only = Ok w /\
    length (columns w) = 10 /\
    transform file_columns_only = Raise (KeyError ["donor_uuid"]) /\
    transform file_columns_only <> Raise IndexError.
Proof.
  eexists. split; [vm_compute; reflexivity |].
  split; [reflexivity |].
  split; [vm_compute; reflexivity | vm_compute; discriminate].
Qed.

Lemma fewer_than_27_columns_raise_witness :
  NoDup (columns file_columns_only) /\
  transform file_columns_only = Raise (KeyError ["donor_uuid"]).
Proof.
  assert (Hnd : NoDup (columns file_columns_only))
    by (apply is_unique_nodup; reflexivity).
  split; [exact Hnd |].
  destruct (fewer_than_27_columns_raise file_columns_only Hnd) as [_ H].
  refine (proj2 (H (concat_axis1
                      [reset_index (getitem_bool file_columns_only
                                      [true; false]);
                       reset_index
                         (rename_columns (mapper cram_renames)
                            (rename_index_str
                               (getitem_bool file_columns_only
                                  [false; true])))]
                      [ILoc 0]) _ _) _).
  - vm_compute. reflexivity.
  - vm_compute. lia.
  - intros Hin. apply has_col_in in Hin. vm_compute in Hin. discriminate.
Defined.

(** Against C10 as stated: on a table with the two columns and no row,
    [__normalize] raises an index error at [filetype[0]]. *)
Lemma normalize_raises_on_no_rows :
  In "donor_uuid" (columns no_rows) /\
  In "file_type" (columns no_rows) /\
  __normalize no_rows = Raise IndexError.
Proof.
  split; [apply has_col_in; reflexivity |].
  split; [apply has_col_in; reflexivity | reflexivity].
Qed.

Lemma normalize_is_identity_witness :
  NoDup (columns one_pair) /\
  In "donor_uuid" (columns one_pair) /\
  In "file_type" (columns one_pair) /\
  body one_pair <> [] /\
  __normalize one_pair = Ok (filter search_file (columns one_pair), one_pair).
Proof.
  assert (Hd : In "donor_uuid" (columns one_pair))
    by (apply has_col_in; reflexivity).
  assert (Ht : In "file_type" (columns one_pair))
    by (apply has_col_in; reflexivity).
  assert (Hb : body one_pair <> []) by discriminate.
  split; [exact manifest_header_distinct |].
  split; [exact Hd |]. split; [exact Ht |]. split; [exact Hb |].
  exact (normalize_is_identity one_pair manifest_header_distinct Hd Ht Hb).
Defined.

(** ** Path strings *)

Lemma append_assoc (a b c : string) :
  ((a ++ b) ++ c = a ++ (b ++ c))%string.
Proof. induction a as [| x a IH]; simpl; [reflexivity | now rewrite IH]. Qed.

Lemma append_nil_r (a : string) : (a ++ "" = a)%string.
Proof. induction a as [| x a IH]; simpl; [reflexivity | now rewrite IH]. Qed.

Lemma drop_chars_append (a b : string) :
  drop_chars (String.length a) (a ++ b) = b.
Proof. induction a as [| x a IH]; simpl; [now destruct b | exact IH]. Qed.

Lemma split_slash_nonempty (s : string) : split_slash s <> [].
Proof.
  destruct s as [| c s]; simpl; [discriminate |].
  destruct (Ascii.eqb c "/"); [discriminate |].
  destruct (split_slash s); discriminate.
Qed.

Lemma split_slash_append (a b : string) :
  split_slash (a ++ "/" ++ b) = split_slash a ++ split_slash b.
Proof.
  induction a as [| x a IH]; simpl in *; [reflexivity |].
  destruct (Ascii.eqb x "/"); simpl; [now rewrite IH |].
  rewrite IH.
  destruct (split_slash a) as [| h t] eqn:E; [| reflexivity].
  now apply split_slash_nonempty in E.
Qed.

Lemma split_slash_no_slash (c : string) :
  no_slash c = true -> split_slash c = [c].
Proof.
  induction c as [| x c IH]; simpl; [reflexivity |].
  intros H. apply andb_true_iff in H as [Hx Hc].
  apply negb_true_iff in Hx. rewrite Hx, (IH Hc). reflexivity.
Qed.

Lemma valid_name_no_slash (c : string) :
  valid_name c = true -> no_slash c = true.
Proof.
  unfold valid_name. rewrite !andb_true_iff. tauto.
Qed.

Lemma valid_name_head (c : string) :
  valid_name c = true ->
  exists x c', c = String x c' /\ Ascii.eqb x "/" = false.
Proof.
  unfold valid_name. rewrite !andb_true_iff.
  intros [[[Hs Hne] _] _].
  destruct c as [| x c']; [discriminate |].
  exists x, c'. split; [reflexivity |].
  simpl in Hs. apply andb_true_iff in Hs as [Hx _].
  now apply negb_true_iff in Hx.
Qed.

Lemma no_slash_not_ends (c : string) :
  no_slash c = true -> ends_with_slash c = false.
Proof.
  induction c as [| x c IH]; simpl; [reflexivity |].
  intros H. apply andb_true_iff in H as [Hx Hc].
  apply negb_true_iff in Hx.
  destruct c as [| y c']; [exact Hx | now apply IH].
Qed.

Lemma ends_with_slash_append (a b : string) :
  b <> "" -> ends_with_slash (a ++ b) = ends_with_slash b.
Proof.
  intros Hb. induction a as [| x a IH]; simpl; [reflexivity |].
  destruct (a ++ b)%string as [| y ab] eqn:E; [| exact IH].
  destruct a; simpl in E; [contradiction | discriminate].
Qed.

Lemma ends_with_slash_split (a : string) :
  ends_with_slash a = true -> exists a', a = (a' ++ "/")%string.
Proof.
  induction a as [| x a IH]; simpl; [discriminate |].
  destruct a as [| y a'].
  - intros H. apply Ascii.eqb_eq in H. subst. now exists "".
  - intros H. destruct (IH H) as [a'' E]. exists (String x a'').
    simpl. now rewrite <- E.
Qed.

Lemma norm_loop_app (b : bool) (xs ys acc : list string) :
  norm_loop b (xs ++ ys) acc = norm_loop b ys (norm_loop b xs acc).
Proof.
  revert acc.
  induction xs as [| x xs IH]; intros acc; simpl; [reflexivity |].
  destruct (String.eqb x "" || String.eqb x "."); [apply IH |].
  destruct (negb (String.eqb x "..") || negb b && is_nil acc
            || last_is_dotdot acc); apply IH.
Qed.

Lemma norm_loop_valid (b : bool) (c : string) (acc : list string) :
  valid_name c = true -> norm_loop b [c] acc = acc ++ [c].
Proof.
  unfold valid_name. rewrite !andb_true_iff, !negb_true_iff.
  intros [[[_ H0] H1] H2]. simpl. rewrite H0, H1, H2. reflexivity.
Qed.

Lemma norm_loop_all_valid (b : bool) (cs acc : list string) :
  forallb valid_name cs = true -> norm_loop b cs acc = acc ++ cs.
Proof.
  revert acc.
  induction cs as [| c cs IH]; intros acc H; simpl in H.
  - simpl. now rewrite app_nil_r.
  - apply andb_true_iff in H as [Hc Hcs].
    change (c :: cs) with ([c] ++ cs).
    rewrite norm_loop_app, norm_loop_valid by exact Hc.
    rewrite IH by exact Hcs. now rewrite <- app_assoc.
Qed.

(** Appending one more valid component to a path. *)
Lemma resolve_snoc (s c : string) :
  valid_name c = true -> resolve (s ++ "/" ++ c) = resolve s ++ [c].
Proof.
  intros Hc. unfold resolve.
  rewrite split_slash_append, norm_loop_app.
  rewrite (split_slash_no_slash c) by now apply valid_name_no_slash.
  now apply norm_loop_valid.
Qed.

Lemma prefix_slash (x : ascii) (c : string) :
  prefix "/" (String x c) = Ascii.eqb x "/".
Proof.
  change (prefix "/" (String x c))
    with (match ascii_dec "/" x with
          | left _ => prefix "" c
          | right _ => false
          end).
  destruct (ascii_dec "/" x) as [<- | Hne].
  - now destruct c.
  - symmetry. apply Ascii.eqb_neq. congruence.
Qed.

Lemma path_join_valid (a c : string) :
  a <> "" -> ends_with_slash a = false -> valid_name c = true ->
  path_join a c = (a ++ "/" ++ c)%string.
Proof.
  intros Ha He Hc. unfold path_join.
  destruct (valid_name_head c Hc) as (x & c' & -> & Hx).
  rewrite prefix_slash, Hx, He.
  apply String.eqb_neq in Ha. rewrite Ha. reflexivity.
Qed.

Lemma resolve_join (d c : string) :
  valid_name c = true -> resolve (path_join d c) = resolve d ++ [c].
Proof.
  intros Hc. unfold path_join.
  destruct (valid_name_head c Hc) as (x & c' & E & Hx).
  replace (prefix "/" c) with false by (now rewrite E, prefix_slash, Hx).
  destruct (String.eqb_spec d "") as [-> | Hd]; simpl.
  - unfold resolve.
    rewrite (split_slash_no_slash c) by now apply valid_name_no_slash.
    now apply norm_loop_valid.
  - destruct (ends_with_slash d) eqn:He.
    + apply ends_with_slash_split in He as [d' ->].
      rewrite append_assoc. rewrite resolve_snoc by exact Hc.
      f_equal. unfold resolve.
      replace (d' ++ "/")%string with (d' ++ "/" ++ "")%string
        by reflexivity.
      rewrite split_slash_append, norm_loop_app. reflexivity.
    + now apply resolve_snoc.
Qed.

Lemma append_not_empty (a b : string) : b <> "" -> (a ++ b)%string <> "".
Proof.
  intros Hb. destruct a; simpl; [exact Hb | discriminate].
Qed.

(** ** Trees *)

Lemma child_set_same (c : string) (v : node) (es : list (string * node)) :
  child c (set_child c v es) = Some v.
Proof.
  induction es as [| [c' n] es IH]; simpl.
  - now rewrite String.eqb_refl.
  - destruct (String.eqb_spec c' c) as [-> | Hne]; simpl.
    + now rewrite String.eqb_refl.
    + apply String.eqb_neq in Hne. now rewrite Hne.
Qed.

Lemma child_set_other (c t : string) (v : node) (es : list (string * node)) :
  c <> t -> child c (set_child t v es) = child c es.
Proof.
  intros Hct.
  induction es as [| [c' n] es IH]; simpl.
  - destruct (String.eqb_spec t c) as [-> | _]; [contradiction | reflexivity].
  - destruct (String.eqb_spec c' t) as [-> | Hne]; simpl.
    + destruct (String.eqb_spec t c) as [-> | _];
        [contradiction | reflexivity].
    + destruct (String.eqb c' c); [reflexivity | exact IH].
Qed.

Lemma child_remove_same (c : string) (es : list (string * node)) :
  child c (remove_child c es) = None.
Proof.
  unfold remove_child.
  induction es as [| [c' n] es IH]; simpl; [reflexivity |].
  destruct (String.eqb c' c) eqn:E; simpl; [exact IH |].
  now rewrite E.
Qed.

Lemma lookup_app (p q : list string) (n : node) :
  lookup (p ++ q) n =
  match lookup p n with
  | Some m => lookup q m
  | None => None
  end.
Proof.
  revert n.
  induction p as [| c p IH]; intros n; simpl; [reflexivity |].
  destruct n as [v | es]; [reflexivity |].
  destruct (child c es) as [ch |]; [apply IH | reflexivity].
Qed.

Lemma at_path_app (p q : list string) (f : node -> result node) (n : node) :
  at_path (p ++ q) f n = at_path p (at_path q f) n.
Proof.
  revert n.
  induction p as [| c p IH]; intros n; simpl; [reflexivity |].
  destruct n as [v | es]; [reflexivity |].
  destruct (child c es) as [ch |]; [now rewrite IH | reflexivity].
Qed.

(** An update at an existing path replaces the node found there. *)
Lemma at_path_graft (p : list string) (f : node -> result node)
      (n m : node) :
  lookup p n = Some m ->
  at_path p f n = (m' <- f m ;; Ok (graft p m' n)).
Proof.
  revert n.
  induction p as [| c p IH]; intros n H; simpl in *.
  - injection H as ->. now destruct (f m).
  - destruct n as [v | es]; [discriminate |].
    destruct (child c es) as [ch |]; [| discriminate].
    rewrite (IH ch H). now destruct (f m).
Qed.

Lemma lookup_graft_same (p : list string) (v n m : node) :
  lookup p n = Some m -> lookup p (graft p v n) = Some v.
Proof.
  revert n.
  induction p as [| c p IH]; intros n H; simpl in *; [reflexivity |].
  destruct n as [x | es]; [discriminate |].
  destruct (child c es) as [ch |] eqn:E; [| discriminate].
  simpl. rewrite child_set_same. now apply IH.
Qed.

(** Replacing below [T/t] leaves the other entries of [T] alone. *)
Lemma lookup_graft_sibling (T q : list string) (c t : string) (v n : node) :
  c <> t ->
  lookup (T ++ [c]) (graft (T ++ t :: q) v n) = lookup (T ++ [c]) n.
Proof.
  intros Hct. revert n.
  induction T as [| a T IH]; intros n; simpl.
  - destruct n as [x | es]; [reflexivity |].
    destruct (child t es) as [ch |]; [| reflexivity].
    simpl. now rewrite child_set_other.
  - destruct n as [x | es]; [reflexivity |].
    destruct (child a es) as [ch |] eqn:E; simpl; [| now rewrite E].
    rewrite child_set_same. apply IH.
Qed.

Lemma makedirs_at_graft (p q : list string) (n m : node) :
  lookup p n = Some m ->
  makedirs_at (p ++ q) n = (m' <- makedirs_at q m ;; Ok (graft p m' n)).
Proof.
  revert n.
  induction p as [| c p IH]; intros n H; simpl in *.
  - injection H as ->. now destruct (makedirs_at q m).
  - destruct n as [v | es]; [discriminate |].
    destruct (child c es) as [ch |]; [| discriminate].
    rewrite (IH ch H). now destruct (makedirs_at q m).
Qed.

Lemma lookup_single (c : string) (es : list (string * node)) :
  lookup [c] (Dir es) = child c es.
Proof. simpl. now destruct (child c es). Qed.

Lemma parent_snoc (p : list string) (c : string) : parent (p ++ [c]) = p.
Proof. apply removelast_last. Qed.

Lemma leaf_snoc (p : list string) (c : string) : leaf (p ++ [c]) = c.
Proof. apply last_last. Qed.

(** ** Member names *)

Lemma render_snoc (rel : list string) (c : string) :
  render (rel ++ [c]) = (render rel ++ "/" ++ c)%string.
Proof.
  induction rel as [| a rel IH]; simpl.
  - now rewrite append_nil_r.
  - rewrite IH. now rewrite append_assoc.
Qed.

Lemma split_slash_render (c : string) (cs : list string) :
  forallb valid_name (c :: cs) = true ->
  split_slash (c ++ render cs) = c :: cs.
Proof.
  revert c.
  induction cs as [| c2 cs IH]; intros c H.
  - simpl in *. rewrite append_nil_r. apply andb_true_iff in H as [Hc _].
    now apply split_slash_no_slash, valid_name_no_slash.
  - change (render (c2 :: cs)) with ("/" ++ (c2 ++ render cs))%string.
    rewrite split_slash_append.
    cbn [forallb] in H. apply andb_true_iff in H as [Hc Hcs].
    rewrite (split_slash_no_slash c) by now apply valid_name_no_slash.
    rewrite (IH c2 Hcs). reflexivity.
Qed.

Lemma concat_head (c : string) (cs : list string) :
  valid_name c = true ->
  exists x rest,
    String.concat "/" (c :: cs) = String x rest /\ Ascii.eqb x "/" = false.
Proof.
  intros Hc. destruct (valid_name_head c Hc) as (x & c' & -> & Hx).
  destruct cs as [| c2 cs]; simpl; eauto.
Qed.

Lemma normpath_absolute (s : string) (comps : list string) :
  prefix "/" s = false ->
  norm_loop true (split_slash s) [] = comps ->
  normpath (String "/" s) = String "/" (String.concat "/" comps).
Proof.
  intros Hs Hcomps. unfold normpath. cbv zeta.
  assert (H1 : prefix "/" (String "/" s) = true) by apply prefix_slash.
  assert (H2 : prefix "//" (String "/" s) = false).
  { change (prefix "//" (String "/" s))
      with (match ascii_dec "/" "/" with
            | left _ => prefix "/" s
            | right _ => false
            end).
    now destruct (ascii_dec "/" "/"). }
  assert (H3 : norm_loop true (split_slash (String "/" s)) [] = comps)
    by exact Hcomps.
  rewrite !H1, !H2.
  change (negb ((if false && negb (prefix "///" (String "/" s))
                 then 2 else 1) =? 0)%nat) with true.
  rewrite !H3. reflexivity.
Qed.

(** A rendered path of valid names is already normal, and stripping its
    leading separator leaves the names joined by slashes. *)
Lemma member_name (c : string) (cs : list string) :
  forallb valid_name (c :: cs) = true ->
  lstrip_sep (normpath (render (c :: cs))) =
  Ok (String.concat "/" (c :: cs)).
Proof.
  intros H.
  assert (Hc : valid_name c = true).
  { cbn [forallb] in H. now apply andb_true_iff in H as [Hc _]. }
  destruct (concat_head c cs Hc) as (x & rest & E & Hx).
  destruct (valid_name_head c Hc) as (y & c' & Ec & Hy).
  change (render (c :: cs)) with (String "/" (c ++ render cs)).
  rewrite (normpath_absolute (c ++ render cs) (c :: cs)).
  - change (lstrip_sep (String "/" (String.concat "/" (c :: cs))))
      with (lstrip_sep (String.concat "/" (c :: cs))).
    rewrite E. cbn [lstrip_sep]. now rewrite Hx.
  - rewrite Ec. change (String y c' ++ render cs)%string
      with (String y (c' ++ render cs)).
    now rewrite prefix_slash.
  - rewrite (split_slash_render c cs H).
    now apply norm_loop_all_valid.
Qed.

(** ** Walking a tree *)

Lemma node_induction (P : node -> Prop) :
  (forall c, P (File c)) ->
  (forall es, Forall (fun e => P (snd e)) es -> P (Dir es)) ->
  forall n, P n.
Proof.
  intros HF HD. fix IH 1. intros [c | es]; [apply HF |].
  apply HD.
  induction es as [| [nm ch] es IHes]; constructor; [apply IH | exact IHes].
Qed.

Lemma child_in_unique (es : list (string * node)) (e : string * node) :
  is_unique (map fst es) = true -> In e es -> child (fst e) es = Some (snd e).
Proof.
  induction es as [| [c n] es IH]; simpl; [intros _ [] |].
  intros Hu [<- | Hin].
  - simpl. now rewrite String.eqb_refl.
  - apply andb_true_iff in Hu as [Hc Hu].
    destruct (String.eqb_spec c (fst e)) as [-> | Hne]; [| now apply IH].
    exfalso. apply negb_true_iff in Hc.
    assert (Hin' : In (fst e) (map fst es)) by now apply in_map.
    apply has_col_in in Hin'. congruence.
Qed.

Lemma child_in (k : string) (es : list (string * node)) (ch : node) :
  child k es = Some ch -> In (k, ch) es.
Proof.
  induction es as [| [k' n] es IH]; simpl; [discriminate |].
  destruct (String.eqb_spec k' k) as [-> | _].
  - intros H. injection H as <-. now left.
  - intros H. right. now apply IH.
Qed.

Lemma wf_tree_dir (es : list (string * node)) :
  wf_tree (Dir es) = true ->
  NoDup (map fst es) /\ is_unique (map fst es) = true /\
  forall e, In e es -> valid_name (fst e) = true /\ wf_tree (snd e) = true.
Proof.
  cbn [wf_tree]. intros H.
  apply andb_true_iff in H as [H Hw]. apply andb_true_iff in H as [Hv Hu].
  split; [now apply is_unique_nodup |]. split; [exact Hu |].
  intros e He. rewrite forallb_forall in Hv, Hw. auto.
Qed.

Lemma wf_tree_intro (es : list (string * node)) :
  NoDup (map fst es) ->
  (forall e, In e es -> valid_name (fst e) = true /\ wf_tree (snd e) = true) ->
  wf_tree (Dir es) = true.
Proof.
  intros Hnd Hall. cbn [wf_tree].
  apply andb_true_iff. split; [apply andb_true_iff; split |].
  - apply forallb_forall. intros e He. now apply Hall.
  - now apply is_unique_nodup.
  - apply forallb_forall. intros e He. now apply Hall.
Qed.

(** What is found in a well-formed tree has valid names on its path. *)
Lemma lookup_wf (p : list string) :
  forall n m, wf_tree n = true -> lookup p n = Some m ->
              forallb valid_name p = true /\ wf_tree m = true.
Proof.
  induction p as [| k p IH]; intros n m Hwf H.
  - simpl in H. injection H as <-. now split.
  - destruct n as [c | es]; [discriminate |]. cbn [lookup] in H.
    destruct (child k es) as [ch |] eqn:Ek; [| discriminate].
    apply child_in in Ek.
    destruct (wf_tree_dir es Hwf) as (_ & _ & Hall).
    destruct (Hall _ Ek) as [Hk Hch]. cbn [fst snd] in Hk, Hch.
    destruct (IH ch m Hch H) as [Hp Hm].
    split; [| exact Hm]. cbn [forallb]. now rewrite Hk, Hp.
Qed.

(** The files below a node are the files found by a path from it. *)
Lemma files_below_lookup (n : node) :
  wf_tree n = true ->
  forall p c, In (p, c) (files_below n) <->
              p <> [] /\ lookup p n = Some (File c).
Proof.
  induction n as [c0 | es IH] using node_induction; intros Hwf p c.
  - simpl. split; [contradiction |].
    intros [Hne H]. destruct p; [contradiction | discriminate].
  - destruct (wf_tree_dir es Hwf) as (_ & Hu & Hall).
    rewrite Forall_forall in IH.
    cbn [files_below]. rewrite in_app_iff, !in_flat_map. split.
    + intros [(e & He & Hin) | (e & He & Hin)].
      * destruct e as [k [c1 | sub]]; cbn [fst snd] in Hin;
          [| contradiction].
        destruct Hin as [Heq | []]. injection Heq as <- <-.
        split; [discriminate |].
        rewrite lookup_single.
        exact (child_in_unique es (k, File c1) Hu He).
      * apply in_map_iff in Hin as ([p' c'] & Heq & Hf).
        cbn [fst snd] in Heq. injection Heq as <- <-.
        split; [discriminate |].
        cbn [lookup]. rewrite (child_in_unique es e Hu He).
        apply (IH e He (proj2 (Hall e He))) in Hf. tauto.
    + intros [Hne H].
      destruct p as [| k p']; [contradiction |]. cbn [lookup] in H.
      destruct (child k es) as [ch |] eqn:Ek; [| discriminate].
      apply child_in in Ek.
      destruct p' as [| k' p''].
      * simpl in H. injection H as ->. left.
        exists (k, File c). split; [exact Ek | now left].
      * right. exists (k, ch). split; [exact Ek |].
        apply in_map_iff. exists (k' :: p'', c). split; [reflexivity |].
        apply (IH (k, ch) Ek (proj2 (Hall _ Ek))).
        split; [discriminate | exact H].
Qed.

Lemma render_ends (rel : list string) (path : string) :
  path <> "" -> ends_with_slash path = false ->
  forallb valid_name rel = true ->
  (path ++ render rel)%string <> "" /\
  ends_with_slash (path ++ render rel) = false.
Proof.
  intros Hp He Hrel. split.
  - destruct path; [contradiction | discriminate].
  - destruct rel as [| c rel] using rev_ind.
    + simpl. now rewrite append_nil_r.
    + rewrite render_snoc, <- !append_assoc.
      rewrite forallb_app in Hrel. apply andb_true_iff in Hrel as [_ Hc].
      simpl in Hc. rewrite andb_true_r in Hc.
      destruct (valid_name_head c Hc) as (x & c' & E & _).
      rewrite ends_with_slash_append by (rewrite E; discriminate).
      now apply no_slash_not_ends, valid_name_no_slash.
Qed.

Lemma resolve_render (rel : list string) (path : string) :
  forallb valid_name rel = true ->
  resolve (path ++ render rel) = resolve path ++ rel.
Proof.
  induction rel as [| c rel IH] using rev_ind; intros Hrel.
  - simpl. now rewrite append_nil_r, app_nil_r.
  - rewrite forallb_app in Hrel. apply andb_true_iff in Hrel as [Hrel Hc].
    simpl in Hc. rewrite andb_true_r in Hc.
    rewrite render_snoc, <- append_assoc, resolve_snoc by exact Hc.
    rewrite (IH Hrel). now rewrite <- app_assoc.
Qed.

(** ** Paths that part ways *)

Lemma at_path_ok (p : list string) (f : node -> result node) (n n' : node) :
  at_path p f n = Ok n' ->
  exists m m', lookup p n = Some m /\ f m = Ok m' /\ n' = graft p m' n.
Proof.
  revert n n'.
  induction p as [| c p IH]; intros n n' H; simpl in *.
  - exists n, n'. auto.
  - destruct n as [v | es]; [discriminate |].
    destruct (child c es) as [ch |] eqn:Ec; [| discriminate].
    apply bind_ok in H as [ch' [Hch H]]. injection H as <-.
    destruct (IH ch ch' Hch) as (m & m' & Hl & Hf & ->).
    exists m, m'. auto.
Qed.

Lemma child_remove_other (c t : string) (es : list (string * node)) :
  c <> t -> child c (remove_child t es) = child c es.
Proof.
  intros Hct. unfold remove_child.
  induction es as [| [c' n] es IH]; simpl; [reflexivity |].
  destruct (String.eqb_spec c' t) as [-> | Hne]; simpl.
  - destruct (String.eqb_spec t c) as [-> | _]; [contradiction | exact IH].
  - destruct (String.eqb c' c); [reflexivity | exact IH].
Qed.

Lemma graft_apart (P : list string) (v : node) :
  forall q n, apart P q = true -> lookup q (graft P v n) = lookup q n.
Proof.
  induction P as [| a P IH]; intros q n H; [discriminate |].
  destruct q as [| b q]; [discriminate |]. cbn [apart] in H.
  destruct n as [x | es]; [reflexivity |]. cbn [graft].
  destruct (child a es) as [ch |] eqn:Ea; [| reflexivity].
  cbn [lookup]. destruct (String.eqb_spec a b) as [<- | Hab].
  - rewrite child_set_same, Ea. now apply IH.
  - rewrite child_set_other by congruence. reflexivity.
Qed.

Lemma dir_entry_keeps (P : list string) (c : string)
      (es es' : list (string * node)) :
  (forall k, k <> c -> child k es' = child k es) ->
  forall q r, lookup P r = Some (Dir es) ->
              apart (P ++ [c]) q = true ->
              lookup q (graft P (Dir es') r) = lookup q r.
Proof.
  intros Hk. induction P as [| a P IH]; intros q r HP Hap.
  - simpl in HP. injection HP as ->. cbn [graft].
    destruct q as [| b q]; [discriminate |]. cbn [app apart] in Hap.
    destruct (String.eqb_spec c b) as [-> | Hcb]; [discriminate |].
    cbn [lookup]. rewrite Hk by congruence. reflexivity.
  - destruct r as [x | es0]; [discriminate |]. cbn [lookup] in HP.
    destruct (child a es0) as [ch |] eqn:Ea; [| discriminate].
    destruct q as [| b q]; [discriminate |].
    change ((a :: P) ++ [c]) with (a :: (P ++ [c])) in Hap.
    cbn [apart] in Hap. cbn [graft]. rewrite Ea. cbn [lookup].
    destruct (String.eqb_spec a b) as [<- | Hab].
    + rewrite child_set_same, Ea. now apply IH.
    + rewrite child_set_other by congruence. reflexivity.
Qed.

(** A path that is found, and does not lead to [P], parts ways with a free
    name in [P]. *)
Lemma free_name_apart (P : list string) (c : string) :
  forall q r n,
    lookup (P ++ [c]) r = None ->
    lookup q r = Some n ->
    begins q P = false ->
    apart (P ++ [c]) q = true.
Proof.
  induction P as [| a P IH]; intros q r n Hfree Hq Hb.
  - destruct q as [| b q]; [discriminate |]. cbn [app apart].
    destruct (String.eqb_spec c b) as [-> | _]; [| reflexivity].
    destruct r as [x | es]; [discriminate |].
    cbn [app lookup] in Hfree, Hq.
    destruct (child b es); discriminate.
  - destruct q as [| b q]; [discriminate |].
    change ((a :: P) ++ [c]) with (a :: (P ++ [c])) in Hfree |- *.
    cbn [apart]. cbn [begins] in Hb.
    destruct (String.eqb_spec a b) as [<- | _]; [| reflexivity].
    rewrite String.eqb_refl in Hb. cbn [andb] in Hb.
    destruct r as [x | es]; [discriminate |].
    cbn [lookup] in Hfree, Hq.
    destruct (child a es) as [ch |]; [| discriminate].
    now apply (IH q ch n).
Qed.

Lemma apart_not_begins (P s : list string) :
  forall q, apart (P ++ s) q = true -> begins q P = false.
Proof.
  induction P as [| a P IH]; intros q H.
  - destruct q as [| b q]; [| reflexivity].
    destruct s; discriminate.
  - destruct q as [| b q]; [discriminate |].
    change ((a :: P) ++ s) with (a :: (P ++ s)) in H.
    cbn [apart] in H. cbn [begins].
    destruct (String.eqb_spec a b) as [<- | Hab].
    + rewrite String.eqb_refl. cbn [andb]. now apply IH.
    + destruct (String.eqb_spec b a) as [-> | _];
        [contradiction | reflexivity].
Qed.

(** Paths that have parted stay apart. *)
Lemma apart_app (p q r : list string) :
  apart p q = true -> apart p (q ++ r) = true.
Proof.
  revert q. induction p as [| a p IH]; intros q H; [discriminate |].
  destruct q as [| b q]; [discriminate |]. cbn [app apart] in H |- *.
  destruct (String.eqb a b); [now apply IH | reflexivity].
Qed.

Lemma apart_siblings (P : list string) (c t : string) (q : list string) :
  c <> t -> apart (P ++ [c]) (P ++ t :: q) = true.
Proof.
  intros Hct. induction P as [| a P IH]; cbn [app apart].
  - now destruct (String.eqb_spec c t).
  - now rewrite String.eqb_refl.
Qed.

Lemma apart_nonempty (p q : list string) : apart p q = true -> p <> [].
Proof. now destruct p. Qed.

Lemma at_path_keeps (P : list string) (c : string) (f : node -> result node)
      (r r' : node) (q : list string) :
  only_entry c f ->
  at_path P f r = Ok r' ->
  apart (P ++ [c]) q = true ->
  lookup q r' = lookup q r.
Proof.
  intros Hf Hat Hap.
  apply at_path_ok in Hat as (m & m' & HP & Hm & ->).
  destruct (Hf m m' Hm) as (es & es' & -> & -> & Hk).
  now apply (dir_entry_keeps P c es es' Hk).
Qed.

Lemma mkdir_only_entry (c : string) : only_entry c (mkdir_in c).
Proof.
  intros m m' H. unfold mkdir_in in H.
  destruct m as [x | es]; [discriminate |].
  destruct (child c es); [discriminate |]. injection H as <-.
  exists es, (set_child c (Dir []) es).
  split; [reflexivity |]. split; [reflexivity |].
  intros k Hk. now apply child_set_other.
Qed.

Lemma write_only_entry (c : string) (v : content) :
  only_entry c (write_in c v).
Proof.
  intros m m' H. unfold write_in in H.
  destruct m as [x | es]; [discriminate |].
  assert (Hm : m' = Dir (set_child c (File v) es)).
  { destruct (child c es) as [[x | sub] |]; try discriminate;
      now injection H as <-. }
  exists es, (set_child c (File v) es).
  split; [reflexivity |]. split; [exact Hm |].
  intros k Hk. now apply child_set_other.
Qed.

Lemma remove_only_entry (c : string) : only_entry c (remove_in c).
Proof.
  intros m m' H. unfold remove_in in H.
  destruct m as [x | es]; [discriminate |].
  destruct (child c es); [| discriminate]. injection H as <-.
  exists es, (remove_child c es).
  split; [reflexivity |]. split; [reflexivity |].
  intros k Hk. now apply child_remove_other.
Qed.

(** Writing the file at [zp], which is there as a file, changes that file
    and nothing on a path that parts ways with it. *)
Lemma write_file_at (zp : list string) (v x : content) (r : node) :
  lookup zp r = Some (File x) ->
  zp <> [] ->
  exists r',
    at_path (parent zp) (write_in (leaf zp) v) r = Ok r' /\
    lookup zp r' = Some (File v) /\
    forall q, apart zp q = true -> lookup q r' = lookup q r.
Proof.
  intros Hx Hne.
  assert (Hzp : zp = parent zp ++ [leaf zp])
    by (now apply app_removelast_last).
  set (P := parent zp) in *. set (l := leaf zp) in *.
  rewrite Hzp, lookup_app in Hx.
  destruct (lookup P r) as [[y | esP] |] eqn:HP; try discriminate.
  rewrite lookup_single in Hx.
  exists (graft P (Dir (set_child l (File v) esP)) r).
  split; [| split].
  - rewrite (at_path_graft _ _ _ _ HP). unfold write_in. now rewrite Hx.
  - rewrite Hzp, lookup_app, (lookup_graft_same _ _ _ _ HP), lookup_single.
    apply child_set_same.
  - intros q Hq. rewrite Hzp in Hq.
    apply (dir_entry_keeps P l esP _ (fun k Hk => child_set_other k l _ esP Hk)
             q r HP Hq).
Qed.

(** ** The order of a listing *)

(** No file lies below a directory when its entries are directories
    without files. *)
Lemma files_below_nil (es : list (string * node)) :
  files_below (Dir es) = [] <->
  Forall (fun e => (exists sub, snd e = Dir sub) /\ files_below (snd e) = [])
         es.
Proof.
  induction es as [| [k ch] es IH]; [split; constructor |].
  cbn [files_below flat_map fst snd] in IH |- *. split.
  - intros H. apply app_eq_nil in H as [H1 H2].
    apply app_eq_nil in H1 as [Ha Has]. apply app_eq_nil in H2 as [Hb Hbs].
    constructor.
    + cbn [snd]. split.
      * destruct ch; [discriminate Ha | eauto].
      * now apply map_eq_nil in Hb.
    + apply IH. now rewrite Has, Hbs.
  - intros H. inversion H as [| ? ? [[sub Hs] Hf] Hrest]; subst.
    cbn [snd] in Hs, Hf. apply IH in Hrest.
    apply app_eq_nil in Hrest as [Has Hbs].
    rewrite Has, Hbs, Hf, Hs. reflexivity.
Qed.

Lemma child_map (g : node -> node) (es : list (string * node)) (k : string) :
  child k (map (fun e => (fst e, g (snd e))) es) = option_map g (child k es).
Proof.
  induction es as [| [k' n] es IH]; simpl; [reflexivity |].
  now destruct (String.eqb k' k).
Qed.

Lemma child_perm (es es' : list (string * node)) (k : string) :
  Permutation es' es -> NoDup (map fst es) -> child k es' = child k es.
Proof.
  intros Hp Hnd.
  assert (Hnd' : NoDup (map fst es')).
  { apply (Permutation_NoDup (l := map fst es)); [| exact Hnd].
    apply Permutation_map. now symmetry. }
  apply is_unique_nodup in Hnd, Hnd'.
  destruct (child k es) as [n |] eqn:E.
  - apply child_in in E.
    apply (Permutation_in _ (Permutation_sym Hp)) in E.
    exact (child_in_unique es' (k, n) Hnd' E).
  - destruct (child k es') as [n' |] eqn:E'; [| reflexivity].
    apply child_in in E'. apply (Permutation_in _ Hp) in E'.
    pose proof (child_in_unique es (k, n') Hnd E') as H.
    cbn [fst snd] in H. congruence.
Qed.

Section Listing.

Variable listdir : list (string * node) -> list (string * node).
Hypothesis listdir_perm : listing_order listdir.

Lemma listed_names (es : list (string * node)) :
  map fst (map (fun e => (fst e, listed listdir (snd e))) es) = map fst es.
Proof. rewrite map_map. reflexivity. Qed.

Lemma child_listed (es : list (string * node)) (k : string) :
  NoDup (map fst es) ->
  child k (listdir (map (fun e => (fst e, listed listdir (snd e))) es)) =
  option_map (listed listdir) (child k es).
Proof.
  intros Hnd. rewrite <- child_map.
  apply child_perm; [apply listdir_perm | now rewrite listed_names].
Qed.

Lemma wf_listed (n : node) :
  wf_tree n = true -> wf_tree (listed listdir n) = true.
Proof.
  induction n as [c | es IH] using node_induction; intros Hwf;
    [reflexivity |].
  destruct (wf_tree_dir es Hwf) as (Hnd & _ & Hall).
  rewrite Forall_forall in IH. cbn [listed].
  apply wf_tree_intro.
  - apply (Permutation_NoDup
             (l := map fst (map (fun e => (fst e, listed listdir (snd e)))
                              es))).
    + apply Permutation_map. symmetry. apply listdir_perm.
    + now rewrite listed_names.
  - intros e He. apply (Permutation_in _ (listdir_perm _)) in He.
    apply in_map_iff in He as (e0 & <- & He0). cbn [fst snd].
    destruct (Hall e0 He0) as [Hv Hw]. split; [exact Hv |].
    now apply IH.
Qed.

Lemma lookup_listed (p : list string) :
  forall n, wf_tree n = true ->
            lookup p (listed listdir n) =
            option_map (listed listdir) (lookup p n).
Proof.
  induction p as [| k p IH]; intros n Hwf; [reflexivity |].
  destruct n as [c | es]; [reflexivity |].
  destruct (wf_tree_dir es Hwf) as (Hnd & _ & Hall).
  cbn [listed lookup]. rewrite (child_listed es k Hnd).
  destruct (child k es) as [ch |] eqn:Ek; [| reflexivity].
  cbn [option_map]. apply IH.
  apply child_in in Ek. exact (proj2 (Hall _ Ek)).
Qed.

(** The listing shows the files that are there, whatever its order. *)
Lemma listed_file (p : list string) (n : node) (c : content) :
  wf_tree n = true ->
  lookup p (listed listdir n) = Some (File c) <->
  lookup p n = Some (File c).
Proof.
  intros Hwf. rewrite (lookup_listed p n Hwf).
  destruct (lookup p n) as [[c' | es] |]; cbn [option_map listed];
    split; intros H; try discriminate; exact H.
Qed.

Lemma listed_no_files (n : node) :
  files_below n = [] -> files_below (listed listdir n) = [].
Proof.
  induction n as [c | es IH] using node_induction; intros H;
    [reflexivity |].
  rewrite Forall_forall in IH.
  apply files_below_nil in H. rewrite Forall_forall in H.
  cbn [listed]. apply files_below_nil. apply Forall_forall.
  intros e He. apply (Permutation_in _ (listdir_perm _)) in He.
  apply in_map_iff in He as (e0 & <- & He0). cbn [snd].
  destruct (H e0 He0) as [[sub Hs] Hf]. split.
  - rewrite Hs. cbn [listed]. eauto.
  - now apply IH.
Qed.

End Listing.

Section ZipWalk.

(** A run in which writing to the archive does not fail, a directory
    [path], given without a trailing slash, the archive's file [zname],
    which lies neither in that directory nor above it, and the world [w0]
    before the walk. *)
Variable fails : io_step -> bool.
Hypothesis writes_work : fails At_zip_write = false.
Variable path : string.
Hypothesis path_not_empty : path <> "".
Hypothesis path_no_slash : ends_with_slash path = false.
Variable zname : string.
Hypothesis zname_apart : apart (resolve zname) (resolve path) = true.
Variable w0 : world.

(** [w] is [w0] but for the archive's file, which is there. *)
Let beside (w : world) : Prop :=
  tmpdir w = tmpdir w0 /\ names w = names w0 /\
  (forall q, apart (resolve zname) q = true ->
             lookup q (root w) = lookup q (root w0)) /\
  exists x, lookup (resolve zname) (root w) = Some (File x).

(** From [w] the members [ms] were added to [zip_fh], which left [w']. *)
Let wrote (zip_fh : ZipFile) (ms : list (string * content)) (w w' : world)
  : Prop :=
  beside w' /\
  (ms = [] -> w' = w) /\
  (ms <> [] ->
   lookup (resolve zname) (root w') =
   Some (File (ZipMembers (zip_entries zip_fh ++ ms)))).

Lemma add_members_nil (zip_fh : ZipFile) : add_members zip_fh [] = zip_fh.
Proof. destruct zip_fh. unfold add_members; simpl. now rewrite app_nil_r. Qed.

Lemma add_members_app (zip_fh : ZipFile) (a b : list (string * content)) :
  add_members (add_members zip_fh a) b = add_members zip_fh (a ++ b).
Proof. unfold add_members; simpl. now rewrite app_assoc. Qed.

Lemma wrote_nil (zip_fh : ZipFile) (w : world) :
  beside w -> wrote zip_fh [] w w.
Proof. intros H. split; [exact H |]. split; [reflexivity | contradiction]. Qed.

Lemma wrote_app (zip_fh : ZipFile) (a b : list (string * content))
      (w w1 w' : world) :
  wrote zip_fh a w w1 ->
  wrote (add_members zip_fh a) b w1 w' ->
  wrote zip_fh (a ++ b) w w'.
Proof.
  intros (_ & Ha0 & Ha) (Hb & Hb0 & Hb1).
  split; [exact Hb |]. split.
  - intros H. apply app_eq_nil in H as [-> ->].
    now rewrite (Hb0 eq_refl), (Ha0 eq_refl).
  - intros H. destruct b as [| m b].
    + rewrite app_nil_r in H |- *. rewrite (Hb0 eq_refl). now apply Ha.
    + rewrite (Hb1 ltac:(discriminate)). cbn [add_members zip_entries].
      now rewrite <- app_assoc.
Qed.

Lemma zipdir_loop_bind (n : nat)
      (a b : list (string * list string * list string))
      (zip_fh : ZipFile) (w : world) :
  zipdir_loop fails n (a ++ b) zip_fh w =
  match zipdir_loop fails n a zip_fh w with
  | (Ok z, w') => zipdir_loop fails n b z w'
  | (Raise e, w') => (Raise e, w')
  end.
Proof.
  revert zip_fh w.
  induction a as [| [[r ds] fs] a IH]; intros zip_fh w; [reflexivity |].
  cbn [app zipdir_loop]. unfold bindIO.
  destruct (zipdir_files fails n r fs zip_fh w) as [[z | e] w1];
    [apply IH | reflexivity].
Qed.

Lemma zip_flush_beside (zip_fh : ZipFile) (c : content) (w : world) :
  zip_name zip_fh = zname ->
  beside w ->
  exists w',
    zip_flush zip_fh c w = (Ok tt, w') /\ beside w' /\
    lookup (resolve zname) (root w') = Some (File c).
Proof.
  intros Hz (Hd & Hn & Hq & x & Hx).
  destruct (write_file_at (resolve zname) c x (root w) Hx
              (apart_nonempty _ _ zname_apart)) as (r' & Hat & Hc & Hkeep).
  exists (set_root w r').
  unfold zip_flush, fs_update. rewrite Hz, Hat.
  split; [reflexivity |]. split; [| exact Hc].
  split; [exact Hd |]. split; [exact Hn |]. split.
  - intros q Hap. cbn [root set_root]. rewrite (Hkeep q Hap). now apply Hq.
  - exists c. exact Hc.
Qed.

(** One file: its member is named by its path below [path]. *)
Lemma zip_write_member (rel : list string) (f : string) (c : content)
      (zip_fh : ZipFile) (w : world) :
  forallb valid_name rel = true ->
  valid_name f = true ->
  zip_name zip_fh = zname ->
  beside w ->
  lookup (resolve path ++ rel ++ [f]) (root w0) = Some (File c) ->
  exists w',
    zip_write zip_fh (path_join (path ++ render rel) f)
      (drop_chars (String.length path) (path ++ render rel) ++ "/" ++ f) w =
    (Ok (add_members zip_fh [(String.concat "/" (rel ++ [f]), c)]), w') /\
    wrote zip_fh [(String.concat "/" (rel ++ [f]), c)] w w'.
Proof.
  intros Hrel Hf Hz Hw Hfile.
  assert (Hall : forallb valid_name (rel ++ [f]) = true)
    by (rewrite forallb_app, Hrel; simpl; now rewrite Hf).
  destruct (render_ends rel path path_not_empty path_no_slash Hrel)
    as [Hne Hends].
  pose proof Hw as (_ & _ & Hq & _).
  rewrite <- (Hq _ (apart_app _ _ (rel ++ [f]) zname_apart)) in Hfile.
  destruct (zip_flush_beside
              (add_members zip_fh [(String.concat "/" (rel ++ [f]), c)])
              (ZipMembers (zip_entries zip_fh ++
                           [(String.concat "/" (rel ++ [f]), c)]))
              w Hz Hw) as (w' & Hflush & Hw' & Hc).
  exists w'. split.
  - unfold zip_write.
    rewrite (path_join_valid _ f Hne Hends Hf).
    rewrite (append_assoc path (render rel) ("/" ++ f)), <- render_snoc.
    rewrite (resolve_render (rel ++ [f]) path Hall), Hfile.
    rewrite drop_chars_append, <- render_snoc.
    assert (Hm : lstrip_sep (normpath (render (rel ++ [f]))) =
                 Ok (String.concat "/" (rel ++ [f]))).
    { destruct (rel ++ [f]) as [| c0 cs] eqn:E;
        [now destruct rel | now apply member_name]. }
    rewrite Hm. unfold add_members in Hflush. cbn [zip_entries] in Hflush |- *.
    now rewrite Hflush.
  - split; [exact Hw' |]. split; [discriminate |]. intros _. exact Hc.
Qed.

(** One directory: every file in it becomes a member. *)
Lemma zipdir_files_members (rel : list string) (es' : list (string * node)) :
  forallb valid_name rel = true ->
  (forall e c, In e es' -> snd e = File c ->
               lookup (resolve path ++ rel ++ [fst e]) (root w0) =
               Some (File c)) ->
  forallb (fun e => valid_name (fst e)) es' = true ->
  forall (zip_fh : ZipFile) (w : world),
    zip_name zip_fh = zname ->
    beside w ->
    exists w',
      zipdir_files fails (String.length path) (path ++ render rel)
        (file_names es') zip_fh w =
      (Ok (add_members zip_fh
             (flat_map (fun e => match snd e with
                                 | File c =>
                                     [(String.concat "/" (rel ++ [fst e]), c)]
                                 | Dir _ => []
                                 end) es')), w') /\
      wrote zip_fh
        (flat_map (fun e => match snd e with
                            | File c =>
                                [(String.concat "/" (rel ++ [fst e]), c)]
                            | Dir _ => []
                            end) es') w w'.
Proof.
  intros Hrel.
  induction es' as [| [f n] es' IH]; intros Hfile Hval zip_fh w Hz Hw.
  - exists w. simpl. rewrite add_members_nil.
    split; [reflexivity | now apply wrote_nil].
  - cbn [forallb fst] in Hval. apply andb_true_iff in Hval as [Hf Hval].
    assert (IH' := IH (fun e c H => Hfile e c (or_intror H)) Hval).
    destruct n as [c | sub]; [| exact (IH' zip_fh w Hz Hw)].
    specialize (Hfile (f, File c) c (or_introl eq_refl) eq_refl).
    cbn [fst] in Hfile.
    destruct (zip_write_member rel f c zip_fh w Hrel Hf Hz Hw Hfile)
      as (w1 & Hwrite & Hw1).
    destruct (IH' (add_members zip_fh
                     [(String.concat "/" (rel ++ [f]), c)]) w1 Hz
                (proj1 Hw1)) as (w' & Hrun & Hw').
    exists w'. split.
    + change (file_names ((f, File c) :: es')) with (f :: file_names es').
      cbn [zipdir_files]. unfold bindIO at 1. unfold step.
      rewrite writes_work. unfold bindIO at 1.
      rewrite Hwrite, Hrun, add_members_app. reflexivity.
    + cbn [flat_map snd fst].
      exact (wrote_app zip_fh _ _ w w1 w' Hw1 Hw').
Qed.

(** The whole walk below [path/rel], over a tree [n] whose files are
    there in [w0]. *)
Lemma zipdir_loop_members (n : node) :
  forall (rel : list string) (zip_fh : ZipFile) (w : world),
    forallb valid_name rel = true ->
    wf_tree n = true ->
    (forall p c, lookup p n = Some (File c) ->
                 lookup (resolve path ++ rel ++ p) (root w0) =
                 Some (File c)) ->
    zip_name zip_fh = zname ->
    beside w ->
    exists w',
      zipdir_loop fails (String.length path) (walk (path ++ render rel) n)
        zip_fh w =
      (Ok (add_members zip_fh
             (map (fun f => (String.concat "/" (rel ++ fst f), snd f))
                  (files_below n))), w') /\
      wrote zip_fh
        (map (fun f => (String.concat "/" (rel ++ fst f), snd f))
             (files_below n)) w w'.
Proof.
  induction n as [c | es IH] using node_induction;
    intros rel zip_fh w Hrel Hwf Hn Hz Hw.
  - exists w. simpl. rewrite add_members_nil.
    split; [reflexivity | now apply wrote_nil].
  - destruct (wf_tree_dir es Hwf) as (_ & Huniq & Hall).
    assert (Hval : forallb (fun e => valid_name (fst e)) es = true).
    { apply forallb_forall. intros e He. now apply Hall. }
    assert (Hfiles : forall e c, In e es -> snd e = File c ->
                       lookup (resolve path ++ rel ++ [fst e]) (root w0) =
                       Some (File c)).
    { intros e c He Hs. apply Hn. rewrite lookup_single.
      rewrite (child_in_unique es e Huniq He). now rewrite Hs. }
    destruct (zipdir_files_members rel es Hrel Hfiles Hval zip_fh w Hz Hw)
      as (w1 & Hrun1 & Hw1).
    cbn [walk zipdir_loop]. unfold bindIO at 1. rewrite Hrun1.
    cbn [files_below]. rewrite map_app.
    set (direct := flat_map _ es) in Hrun1, Hw1 |- *.
    assert (Hdirect :
      map (fun f => (String.concat "/" (rel ++ fst f), snd f))
        (flat_map (fun e => match snd e with
                            | File c => [([fst e], c)]
                            | Dir _ => []
                            end) es) = direct).
    { unfold direct. clear.
      induction es as [| [f [c | sub]] es IHes]; simpl;
        [reflexivity | now rewrite IHes | exact IHes]. }
    rewrite Hdirect. clear Hdirect.
    set (z1 := add_members zip_fh direct) in *.
    assert (Hz1 : zip_name z1 = zname) by exact Hz.
    assert (Hsubs : forall es',
               (forall e, In e es' -> In e es) ->
               forall z w1,
                 zip_name z = zname -> beside w1 ->
                 exists w',
                   zipdir_loop fails (String.length path)
                     (flat_map (fun e => walk (path_join (path ++ render rel)
                                                         (fst e)) (snd e)) es')
                     z w1 =
                   (Ok (add_members z
                          (map (fun f =>
                                  (String.concat "/" (rel ++ fst f), snd f))
                               (flat_map
                                  (fun e => map (fun f => (fst e :: fst f,
                                                           snd f))
                                                (files_below (snd e))) es'))),
                    w') /\
                   wrote z
                     (map (fun f =>
                             (String.concat "/" (rel ++ fst f), snd f))
                          (flat_map
                             (fun e => map (fun f => (fst e :: fst f,
                                                      snd f))
                                           (files_below (snd e))) es'))
                     w1 w').
    { clear Hrun1 Hw1 Hw w. rewrite Forall_forall in IH.
      induction es' as [| e es' IHes']; intros Hin z w Hzn Hw.
      - exists w. simpl. rewrite add_members_nil.
        split; [reflexivity | now apply wrote_nil].
      - assert (He : In e es) by (apply Hin; now left).
        destruct (Hall e He) as [Hve Hwe].
        assert (Hrel' : forallb valid_name (rel ++ [fst e]) = true)
          by (rewrite forallb_app, Hrel; simpl; now rewrite Hve).
        destruct (render_ends rel path path_not_empty path_no_slash Hrel)
          as [Hne Hends].
        assert (Hsub : forall p c, lookup p (snd e) = Some (File c) ->
                         lookup (resolve path ++ (rel ++ [fst e]) ++ p)
                           (root w0) = Some (File c)).
        { intros p c Hp. rewrite <- app_assoc. apply Hn.
          cbn [app lookup]. now rewrite (child_in_unique es e Huniq He). }
        destruct (IH e He (rel ++ [fst e]) z w Hrel' Hwe Hsub Hzn Hw)
          as (w2 & Hrun2 & Hw2).
        set (ms2 := map (fun f => (String.concat "/"
                                     ((rel ++ [fst e]) ++ fst f), snd f))
                      (files_below (snd e))) in *.
        destruct (IHes' (fun e' H' => Hin e' (or_intror H'))
                    (add_members z ms2) w2 Hzn (proj1 Hw2))
          as (w' & Hrun' & Hw').
        exists w'.
        assert (Hms : map (fun f => (String.concat "/" (rel ++ fst f),
                                     snd f))
                        (map (fun f => (fst e :: fst f, snd f))
                           (files_below (snd e))) = ms2).
        { unfold ms2. rewrite map_map. apply map_ext.
          intros f. cbn [fst snd]. now rewrite <- app_assoc. }
        cbn [flat_map]. rewrite map_app, Hms. split.
        + rewrite zipdir_loop_bind.
          rewrite (path_join_valid _ (fst e) Hne Hends Hve).
          rewrite (append_assoc path (render rel) ("/" ++ fst e)).
          rewrite <- render_snoc, Hrun2, Hrun', add_members_app.
          reflexivity.
        + exact (wrote_app z _ _ w w2 w' Hw2 Hw'). }
    destruct (Hsubs es (fun e H => H) z1 w1 Hz1 (proj1 Hw1))
      as (w' & Hrun' & Hw').
    exists w'. split.
    + rewrite Hrun'. unfold z1. now rewrite add_members_app.
    + exact (wrote_app zip_fh _ _ w w1 w' Hw1 Hw').
Qed.

(** [__zipdir] writes one member per file below [path], named by the path
    of the file relative to [path], in the order of the listing, and
    changes the archive's file only. *)
Lemma zipdir_members
      (listdir : list (string * node) -> list (string * node))
      (n : node) (zip_fh : ZipFile) :
  listing_order listdir ->
  zip_name zip_fh = zname ->
  (exists x, lookup (resolve zname) (root w0) = Some (File x)) ->
  lookup (resolve path) (root w0) = Some n ->
  wf_tree n = true ->
  exists w',
    __zipdir fails listdir path zip_fh w0 =
    (Ok (add_members zip_fh (members (listed listdir n))), w') /\
    tmpdir w' = tmpdir w0 /\ names w' = names w0 /\
    (forall q, apart (resolve zname) q = true ->
               lookup q (root w') = lookup q (root w0)) /\
    (exists x, lookup (resolve zname) (root w') = Some (File x)) /\
    (members (listed listdir n) = [] -> w' = w0) /\
    (members (listed listdir n) <> [] ->
     lookup (resolve zname) (root w') =
     Some (File (ZipMembers
                   (zip_entries zip_fh ++ members (listed listdir n))))).
Proof.
  intros Hperm Hz Hx Hn Hwf. unfold __zipdir, os_walk. rewrite Hn.
  assert (Hw0 : beside w0) by (repeat split; auto).
  assert (Hfiles : forall p c,
             lookup p (listed listdir n) = Some (File c) ->
             lookup (resolve path ++ [] ++ p) (root w0) = Some (File c)).
  { intros p c Hp. apply (listed_file listdir Hperm p n c Hwf) in Hp.
    cbn [app]. now rewrite lookup_app, Hn. }
  destruct (zipdir_loop_members (listed listdir n) [] zip_fh w0 eq_refl
              (wf_listed listdir Hperm n Hwf) Hfiles Hz Hw0)
    as (w' & Hrun & (Hd & Hnm & Hq & Hx') & H0 & H1).
  simpl in Hrun. rewrite append_nil_r in Hrun.
  exists w'. split; [exact Hrun |]. split; [exact Hd |].
  split; [exact Hnm |]. split; [exact Hq |]. split; [exact Hx' |].
  split; assumption.
Qed.

End ZipWalk.

(** ** Temporary names *)

Lemma no_slash_append (a b : string) :
  no_slash (a ++ b) = no_slash a && no_slash b.
Proof.
  induction a as [| x a IH]; simpl; [reflexivity |].
  now rewrite IH, andb_assoc.
Qed.

Lemma temp_name_valid (nm suf : string) :
  no_slash nm = true -> no_slash suf = true ->
  valid_name ("tmp" ++ nm ++ suf) = true.
Proof.
  intros Hn Hs. unfold valid_name.
  change ("tmp" ++ nm ++ suf)%string
    with (String "t" (String "m" (String "p" (nm ++ suf)))).
  cbn [no_slash String.eqb Ascii.eqb Bool.eqb negb andb].
  now rewrite no_slash_append, Hn, Hs.
Qed.

Lemma path_join_clean (d c : string) :
  valid_name c = true ->
  path_join d c <> "" /\ ends_with_slash (path_join d c) = false.
Proof.
  intros Hc.
  destruct (valid_name_head c Hc) as (x & c' & E & Hx).
  assert (Hne : c <> "") by (rewrite E; discriminate).
  assert (Hends : ends_with_slash c = false)
    by now apply no_slash_not_ends, valid_name_no_slash.
  unfold path_join.
  replace (prefix "/" c) with false by (now rewrite E, prefix_slash, Hx).
  destruct (String.eqb d "" || ends_with_slash d).
  - split; [now apply append_not_empty |].
    now rewrite ends_with_slash_append.
  - split.
    + apply append_not_empty. rewrite E. discriminate.
    + rewrite <- append_assoc. now rewrite ends_with_slash_append.
Qed.

Lemma first_free_spec (d pre suf : string) (cands : list string) (r : node)
      (file : string) (rest : list string) :
  first_free d pre suf cands r = Some (file, rest) ->
  exists nm skipped,
    cands = skipped ++ nm :: rest /\
    file = path_join d (pre ++ nm ++ suf) /\
    lookup (resolve file) r = None.
Proof.
  induction cands as [| nm cands IH]; simpl; [discriminate |].
  destruct (lookup (resolve (path_join d (pre ++ nm ++ suf))) r) eqn:E.
  - intros H. destruct (IH H) as (nm' & sk & -> & Hf & Hl).
    exists nm', (nm :: sk). auto.
  - intros H. injection H as <- <-. exists nm, []. auto.
Qed.

(** The candidates that are taken are the same in two trees that have the
    same entries in the temporary directory. *)
Lemma first_free_same (d suf : string) (cands : list string) (r r' : node) :
  no_slash suf = true ->
  Forall (fun n => no_slash n = true) cands ->
  (forall c, lookup (resolve d ++ [c]) r = None <->
             lookup (resolve d ++ [c]) r' = None) ->
  first_free d "tmp" suf cands r = first_free d "tmp" suf cands r'.
Proof.
  intros Hs Hc Hsame.
  induction Hc as [| nm cands Hnm _ IH]; cbn [first_free]; [reflexivity |].
  pose proof (temp_name_valid nm suf Hnm Hs) as Hv.
  rewrite (resolve_join d _ Hv).
  destruct (lookup (resolve d ++ [("tmp" ++ nm ++ suf)%string]) r) eqn:E;
    destruct (lookup (resolve d ++ [("tmp" ++ nm ++ suf)%string]) r')
      eqn:E'; try exact IH; try reflexivity.
  - apply Hsame in E'. congruence.
  - apply Hsame in E. congruence.
Qed.

(** ** Specifications of calls *)

Lemma triple_bind {A B} (P : world -> Prop) (m : IO A) (k : A -> IO B)
      (Q : A -> world -> Prop) (R : B -> world -> Prop) (E : world -> Prop) :
  triple P m Q E ->
  (forall a, triple (Q a) (k a) R E) ->
  triple P (bindIO m k) R E.
Proof.
  intros Hm Hk w HP. unfold bindIO.
  specialize (Hm w HP). destruct (m w) as [[a | e] w']; [| exact Hm].
  apply (Hk a w' Hm).
Qed.

Lemma triple_ret {A} (P : world -> Prop) (a : A) (Q : A -> world -> Prop)
      (E : world -> Prop) :
  (forall w, P w -> Q a w) -> triple P (ret a) Q E.
Proof. intros H w HP. simpl. now apply H. Qed.

Lemma triple_lift {A} (P : world -> Prop) (r : result A) (E : world -> Prop) :
  (forall w, P w -> E w) ->
  triple P (lift r) (fun a w => P w /\ r = Ok a) E.
Proof.
  intros HE w HP. unfold lift. destruct r as [a | e]; [now split | now apply HE].
Qed.

Lemma triple_step (fails : io_step -> bool) (s : io_step)
      (P : world -> Prop) :
  triple P (step fails s) (fun _ => P) P.
Proof. intros w HP. unfold step. now destruct (fails s). Qed.

Lemma at_path_cons_dir (c : string) (Q : list string)
      (g : node -> result node) (n m : node) :
  at_path (c :: Q) g n = Ok m -> exists es, m = Dir es.
Proof.
  simpl. destruct n as [v | es]; [discriminate |].
  destruct (child c es) as [ch |]; [| discriminate].
  destruct (at_path Q g ch); simpl; [| discriminate].
  intros H. injection H as <-. eauto.
Qed.

Lemma makedirs_at_dir (p : list string) (n m : node) :
  makedirs_at p n = Ok m -> exists es, m = Dir es.
Proof.
  destruct p as [| c p], n as [v | es]; simpl; try discriminate.
  destruct (child c es) as [ch |].
  - destruct (makedirs_at p ch); simpl; [| discriminate].
    intros H. injection H as <-. eauto.
  - intros H. injection H as <-. eauto.
Qed.

(** An update below an existing directory, seen from that directory. *)
Lemma fs_update_below (P Q : list string) (g : node -> result node)
      (w : world) (L : node) :
  lookup P (root w) = Some L ->
  fs_update (P ++ Q) g w =
  match at_path Q g L with
  | Ok L' => (Ok tt, set_root w (graft P L' (root w)))
  | Raise e => (Raise e, w)
  end.
Proof.
  intros HL. unfold fs_update.
  rewrite at_path_app, (at_path_graft P _ (root w) L HL).
  now destruct (at_path Q g L).
Qed.

Lemma os_makedirs_below (path : string) (P Q : list string) (w : world)
      (L : node) :
  resolve path = P ++ Q ->
  lookup P (root w) = Some L ->
  os_makedirs path w =
  match makedirs_at Q L with
  | Ok L' => (Ok tt, set_root w (graft P L' (root w)))
  | Raise e => (Raise e, w)
  end.
Proof.
  intros Hp HL. unfold os_makedirs.
  rewrite Hp, (makedirs_at_graft P Q (root w) L HL).
  now destruct (makedirs_at Q L).
Qed.

(** What holds before and after every write to the archive's file holds
    throughout [__zipdir]. *)
Lemma zipdir_files_inv (fails : io_step -> bool) (n : nat) (r : string)
      (fs : list string) (zname : string) (P : world -> Prop) :
  (forall z c, zip_name z = zname ->
               triple P (zip_flush z c) (fun _ => P) P) ->
  forall z, zip_name z = zname ->
            triple P (zipdir_files fails n r fs z)
              (fun z' w => P w /\ zip_name z' = zname) P.
Proof.
  intros Hflush.
  induction fs as [| f fs IH]; intros z Hz w HP; simpl.
  - now split.
  - unfold bindIO, step, zip_write.
    destruct (fails At_zip_write); [exact HP |].
    destruct (lookup (resolve (path_join r f)) (root w)) as [[c | es] |];
      try exact HP.
    destruct (lstrip_sep _) as [member | e]; [| exact HP].
    match goal with
    | |- context [zip_flush ?z' ?c' w] =>
        pose proof (Hflush z' c' Hz w HP) as H1;
        destruct (zip_flush z' c' w) as [[u | e] w1]; [| exact H1];
        exact (IH z' Hz w1 H1)
    end.
Qed.

Lemma zipdir_loop_inv (fails : io_step -> bool) (n : nat)
      (walked : list (string * list string * list string))
      (zname : string) (P : world -> Prop) :
  (forall z c, zip_name z = zname ->
               triple P (zip_flush z c) (fun _ => P) P) ->
  forall z, zip_name z = zname ->
            triple P (zipdir_loop fails n walked z)
              (fun z' w => P w /\ zip_name z' = zname) P.
Proof.
  intros Hflush.
  induction walked as [| [[r ds] fs] walked IH]; intros z Hz w HP; simpl.
  - now split.
  - unfold bindIO.
    pose proof (zipdir_files_inv fails n r fs zname P Hflush z Hz w HP) as H1.
    destruct (zipdir_files fails n r fs z w) as [[z1 | e] w1];
      [| exact H1].
    destruct H1 as [HP1 Hz1]. exact (IH z1 Hz1 w1 HP1).
Qed.

Lemma triple_zipdir (fails : io_step -> bool)
      (listdir : list (string * node) -> list (string * node))
      (path : string) (z : ZipFile) (P : world -> Prop) :
  (forall z' c, zip_name z' = zip_name z ->
                triple P (zip_flush z' c) (fun _ => P) P) ->
  triple P (__zipdir fails listdir path z)
    (fun z' w => P w /\ zip_name z' = zip_name z) P.
Proof.
  intros Hflush w HP. unfold __zipdir.
  exact (zipdir_loop_inv fails (String.length path) (os_walk listdir path w)
           (zip_name z) P Hflush z eq_refl w HP).
Qed.

(** ** The temporary directory during a run *)

Section Run.

Variable d tn : string.
Hypothesis tn_valid : valid_name tn = true.

Lemma tempd_resolve : resolve (path_join d tn) = resolve d ++ [tn].
Proof. now apply resolve_join. Qed.

Lemma in_run_root (w : world) (r : node) (es : list (string * node)) :
  in_run d tn w ->
  lookup (resolve d ++ [tn]) r = Some (Dir es) ->
  in_run d tn (set_root w r).
Proof.
  intros (Hd & Hn & _) Hes. split; [exact Hd |]. split; [exact Hn |].
  exists es. simpl. now rewrite tempd_resolve.
Qed.

(** Creating directories below the temporary directory. *)
Lemma triple_makedirs_below (path c : string) (Q : list string) :
  resolve path = (resolve d ++ [tn]) ++ c :: Q ->
  triple (in_run d tn) (os_makedirs path) (fun _ => in_run d tn)
    (in_run d tn).
Proof.
  intros Hp w Hrun. pose proof Hrun as (_ & _ & es & Hes).
  rewrite tempd_resolve in Hes.
  rewrite (os_makedirs_below path _ _ w _ Hp Hes).
  destruct (makedirs_at (c :: Q) (Dir es)) as [L' | e] eqn:E;
    [| exact Hrun].
  apply makedirs_at_dir in E as [es' ->].
  apply (in_run_root w _ es' Hrun).
  now apply (lookup_graft_same _ _ _ (Dir es)).
Qed.

(** Any update below the temporary directory. *)
Lemma triple_update_below (c : string) (Q : list string)
      (g : node -> result node) :
  triple (in_run d tn) (fs_update ((resolve d ++ [tn]) ++ c :: Q) g)
    (fun _ => in_run d tn) (in_run d tn).
Proof.
  intros w Hrun. pose proof Hrun as (_ & _ & es & Hes).
  rewrite tempd_resolve in Hes.
  rewrite (fs_update_below _ _ g w _ Hes).
  destruct (at_path (c :: Q) g (Dir es)) as [L' | e] eqn:E;
    [| exact Hrun].
  apply at_path_cons_dir in E as [es' ->].
  apply (in_run_root w _ es' Hrun).
  now apply (lookup_graft_same _ _ _ (Dir es)).
Qed.

(** Writing a file beside the temporary directory. *)
Lemma write_beside (c : string) (v : content) (w : world) :
  c <> tn ->
  in_run d tn w ->
  match fs_update (resolve d) (write_in c v) w with
  | (Ok _, w') =>
      in_run d tn w' /\
      lookup (resolve d ++ [c]) (root w') = Some (File v) /\
      lookup (resolve d ++ [tn]) (root w') =
      lookup (resolve d ++ [tn]) (root w)
  | (Raise _, w') => w' = w
  end.
Proof.
  intros Hc Hrun. pose proof Hrun as (_ & _ & es & Hes).
  rewrite tempd_resolve, lookup_app in Hes.
  destruct (lookup (resolve d) (root w)) as [[x | esT] |] eqn:HT;
    try discriminate.
  rewrite lookup_single in Hes.
  unfold fs_update. rewrite (at_path_graft _ _ _ _ HT).
  assert (Hl : forall k,
             lookup (resolve d ++ [k])
               (graft (resolve d) (Dir (set_child c (File v) esT))
                  (root w)) =
             child k (set_child c (File v) esT)).
  { intros k. rewrite lookup_app, (lookup_graft_same _ _ _ _ HT).
    apply lookup_single. }
  assert (Htn : child tn (set_child c (File v) esT) = Some (Dir es)).
  { rewrite child_set_other by congruence. exact Hes. }
  assert (Hok : in_run d tn
                  (set_root w (graft (resolve d)
                                 (Dir (set_child c (File v) esT)) (root w))) /\
                lookup (resolve d ++ [c])
                  (graft (resolve d) (Dir (set_child c (File v) esT))
                     (root w)) = Some (File v) /\
                lookup (resolve d ++ [tn])
                  (graft (resolve d) (Dir (set_child c (File v) esT))
                     (root w)) =
                lookup (resolve d ++ [tn]) (root w)).
  { split; [| split].
    - apply (in_run_root w _ es Hrun). now rewrite Hl.
    - rewrite Hl. apply child_set_same.
    - rewrite Hl, Htn, lookup_app, HT, lookup_single. now rewrite Hes. }
  unfold write_in.
  destruct (child c esT) as [[x | sub] |]; cbn [bind];
    try reflexivity; exact Hok.
Qed.

(** [NamedTemporaryFile] picks a name beside the temporary directory. *)
Lemma triple_named_temporary_file (suf : string) :
  no_slash suf = true ->
  triple (in_run d tn) (NamedTemporaryFile suf)
    (fun z w => in_run d tn w /\
                exists c, c <> tn /\ resolve z = resolve d ++ [c])
    (in_run d tn).
Proof.
  intros Hs w Hrun. pose proof Hrun as (Hd & Hn & es & Hes).
  unfold NamedTemporaryFile. rewrite Hd.
  destruct (first_free d "tmp" suf (names w) (root w))
    as [[file rest] |] eqn:E; [| exact Hrun].
  apply first_free_spec in E as (nm & sk & Hnames & -> & Hfree).
  assert (Hnm : no_slash nm = true).
  { rewrite Hnames in Hn. rewrite Forall_forall in Hn.
    apply Hn, in_or_app. right. now left. }
  assert (Hrest : Forall (fun n => no_slash n = true) rest).
  { rewrite Hnames in Hn. apply Forall_app in Hn as [_ Hn].
    now inversion Hn. }
  pose proof (temp_name_valid nm suf Hnm Hs) as Hv.
  rewrite (resolve_join d _ Hv) in Hfree.
  rewrite (resolve_join d _ Hv), parent_snoc, leaf_snoc.
  assert (Hc : ("tmp" ++ nm ++ suf)%string <> tn).
  { intros Heq. rewrite tempd_resolve, <- Heq in Hes. congruence. }
  pose proof (write_beside _ NoBytes w Hc Hrun) as Hw.
  unfold fs_update in Hw.
  destruct (at_path (resolve d) (write_in ("tmp" ++ nm ++ suf) NoBytes)
              (root w)) as [r | e]; [| exact Hrun].
  destruct Hw as ((_ & _ & es' & Hes') & _ & _).
  split.
  - split; [reflexivity |]. split; [exact Hrest |]. now exists es'.
  - exists ("tmp" ++ nm ++ suf)%string.
    split; [exact Hc | now apply resolve_join].
Qed.

(** Writing into the archive's file, beside the temporary directory. *)
Lemma triple_zip_flush (z : ZipFile) (v : content) (c : string) :
  c <> tn ->
  resolve (zip_name z) = resolve d ++ [c] ->
  triple (in_run d tn) (zip_flush z v) (fun _ => in_run d tn) (in_run d tn).
Proof.
  intros Hc Hz w Hrun. unfold zip_flush.
  rewrite Hz, parent_snoc, leaf_snoc.
  pose proof (write_beside c v w Hc Hrun) as Hw.
  destruct (fs_update (resolve d) (write_in c v) w)
    as [[u | e] w']; [now destruct Hw | now subst].
Qed.

Lemma triple_zip_close (z : ZipFile) (c : string) :
  c <> tn ->
  resolve (zip_name z) = resolve d ++ [c] ->
  triple (in_run d tn) (zip_close z) (fun _ => in_run d tn) (in_run d tn).
Proof. intros Hc Hz. now apply (triple_zip_flush z _ c). Qed.

(** [shutil.rmtree] removes the temporary directory unless the removal is
    refused. *)
Lemma triple_rmtree (refused : bool) (E : world -> Prop) :
  triple (in_run d tn) (shutil_rmtree refused (path_join d tn) true)
    (fun _ w => exists_path (path_join d tn) w = refused) E.
Proof.
  intros w (_ & _ & es & Hes).
  unfold shutil_rmtree, exists_path.
  destruct refused; [now rewrite Hes |].
  rewrite tempd_resolve in Hes.
  rewrite tempd_resolve, parent_snoc, leaf_snoc.
  rewrite lookup_app in Hes.
  destruct (lookup (resolve d) (root w)) as [[x | esT] |] eqn:HT;
    try discriminate.
  rewrite lookup_single in Hes.
  rewrite (at_path_graft _ _ _ _ HT). unfold remove_in.
  rewrite Hes. cbn [bind root set_root].
  rewrite lookup_app, (lookup_graft_same _ _ _ _ HT).
  now rewrite lookup_single, child_remove_same.
Qed.

End Run.

(** ** [create_bag], step by step *)

Lemma mkdtemp_spec (suf : string) (w w1 : world) (tempd : string) :
  no_slash suf = true ->
  Forall (fun n => no_slash n = true) (names w) ->
  mkdtemp suf w = (Ok tempd, w1) ->
  exists tn,
    valid_name tn = true /\
    tempd = path_join (tmpdir w) tn /\
    in_run (tmpdir w) tn w1 /\
    lookup (resolve (tmpdir w) ++ [tn]) (root w1) = Some (Dir []) /\
    lookup (resolve (tmpdir w) ++ [tn]) (root w) = None /\
    (forall c, c <> tn ->
               lookup (resolve (tmpdir w) ++ [c]) (root w1) =
               lookup (resolve (tmpdir w) ++ [c]) (root w)).
Proof.
  intros Hs Hn H. unfold mkdtemp in H.
  destruct (first_free (tmpdir w) "tmp" suf (names w) (root w))
    as [[file rest] |] eqn:E; [| discriminate].
  apply first_free_spec in E as (nm & sk & Hnames & -> & Hfree).
  assert (Hnm : no_slash nm = true).
  { rewrite Hnames in Hn. rewrite Forall_forall in Hn.
    apply Hn, in_or_app. right. now left. }
  assert (Hrest : Forall (fun n => no_slash n = true) rest).
  { rewrite Hnames in Hn. apply Forall_app in Hn as [_ Hn].
    now inversion Hn. }
  pose proof (temp_name_valid nm suf Hnm Hs) as Hv.
  rewrite (resolve_join _ _ Hv) in Hfree, H.
  rewrite parent_snoc, leaf_snoc in H.
  destruct (at_path (resolve (tmpdir w))
              (mkdir_in ("tmp" ++ nm ++ suf)) (root w)) as [r | e] eqn:Ea;
    [| discriminate].
  injection H as H1 H2. subst tempd w1.
  apply at_path_ok in Ea as (m & m' & HT & Hm & ->).
  unfold mkdir_in in Hm. destruct m as [x | esT]; [discriminate |].
  destruct (child ("tmp" ++ nm ++ suf) esT) eqn:Ec; [discriminate |].
  injection Hm as <-.
  assert (Hl : forall k,
             lookup (resolve (tmpdir w) ++ [k])
               (graft (resolve (tmpdir w))
                  (Dir (set_child ("tmp" ++ nm ++ suf) (Dir []) esT))
                  (root w)) =
             child k (set_child ("tmp" ++ nm ++ suf) (Dir []) esT)).
  { intros k. rewrite lookup_app, (lookup_graft_same _ _ _ _ HT).
    apply lookup_single. }
  exists ("tmp" ++ nm ++ suf)%string.
  split; [exact Hv |]. split; [reflexivity |].
  split; [| split; [| split]].
  - split; [reflexivity |]. split; [exact Hrest |].
    exists []. cbn [root]. rewrite (resolve_join _ _ Hv), Hl.
    apply child_set_same.
  - cbn [root]. rewrite Hl. apply child_set_same.
  - exact Hfree.
  - intros c Hc. cbn [root]. rewrite Hl, child_set_other by exact Hc.
    now rewrite lookup_app, HT, lookup_single.
Qed.

Section Bagging.

Variable fails : io_step -> bool.
Variable listdir : list (string * node) -> list (string * node).
Variable lib : bagit_lib.
Variable d tn : string.
Variable self : BagHandler.
Hypothesis tn_valid : valid_name tn = true.
Hypothesis name_valid : valid_name (self_name self) = true.

Let tempd : string := path_join d tn.
Let bag_dir : string := (tempd ++ "/" ++ self_name self)%string.
Let data_path : string := (bag_dir ++ "/data")%string.

Lemma bag_dir_resolve :
  resolve bag_dir = (resolve d ++ [tn]) ++ [self_name self].
Proof.
  unfold bag_dir, tempd.
  now rewrite (resolve_snoc _ _ name_valid), (tempd_resolve d tn tn_valid).
Qed.

Lemma data_path_resolve :
  resolve data_path = (resolve d ++ [tn]) ++ [self_name self; "data"].
Proof.
  unfold data_path.
  change (bag_dir ++ "/data")%string with (bag_dir ++ "/" ++ "data")%string.
  rewrite (resolve_snoc bag_dir "data" eq_refl), bag_dir_resolve.
  now rewrite <- app_assoc.
Qed.

Lemma data_file_resolve (f : string) :
  valid_name f = true ->
  resolve (data_path ++ "/" ++ f) =
  ((resolve d ++ [tn]) ++ [self_name self; "data"]) ++ [f].
Proof.
  intros Hf. now rewrite (resolve_snoc data_path f Hf), data_path_resolve.
Qed.

Lemma triple_make_bag (info : list (string * string)) :
  triple (in_run d tn) (make_bag lib bag_dir info)
    (fun bag w => in_run d tn w /\ bag_path bag = bag_dir) (in_run d tn).
Proof.
  unfold make_bag.
  eapply triple_bind.
  - rewrite bag_dir_resolve.
    apply (triple_update_below d tn tn_valid (self_name self) []).
  - intros u. apply triple_ret. intros w Hw. now split.
Qed.

Lemma triple_to_csv (v : content) (f : string) :
  valid_name f = true ->
  triple (in_run d tn) (to_csv v (data_path ++ "/" ++ f))
    (fun _ => in_run d tn) (in_run d tn).
Proof.
  intros Hf. unfold to_csv.
  rewrite (data_file_resolve f Hf), parent_snoc, leaf_snoc.
  apply (triple_update_below d tn tn_valid (self_name self) ["data"]).
Qed.

Lemma triple_bag_save (bag : Bag) :
  bag_path bag = bag_dir ->
  triple (in_run d tn) (bag_save lib bag) (fun _ => in_run d tn)
    (in_run d tn).
Proof.
  intros Hb. unfold bag_save. rewrite Hb, bag_dir_resolve.
  apply (triple_update_below d tn tn_valid (self_name self) []).
Qed.

(** From the archive file on: write the members, close, remove. *)
Lemma triple_archive (zipfile_tmp : string) (c : string) :
  c <> tn ->
  resolve zipfile_tmp = resolve d ++ [c] ->
  triple (in_run d tn)
    (zipfile_handle <~ __zipdir fails listdir tempd
                         (mkZipFile zipfile_tmp []) ;;
     _ <~ step fails At_zip_close ;;
     _ <~ zip_close zipfile_handle ;;
     _ <~ shutil_rmtree (fails At_rmtree) tempd true ;;
     ret zipfile_tmp)
    (fun _ w => exists_path tempd w = fails At_rmtree) (in_run d tn).
Proof.
  intros Hc Hz.
  eapply triple_bind.
  { apply triple_zipdir. intros z' v Hz'.
    apply (triple_zip_flush d tn tn_valid z' v c Hc).
    now rewrite Hz'. }
  intros z w [Hrun Hname]. revert w Hrun.
  change (triple (in_run d tn)
            (_ <~ step fails At_zip_close ;;
             _ <~ zip_close z ;;
             _ <~ shutil_rmtree (fails At_rmtree) tempd true ;;
             ret zipfile_tmp)
            (fun _ w => exists_path tempd w = fails At_rmtree)
            (in_run d tn)).
  eapply triple_bind; [apply triple_step |]. intros ?.
  eapply triple_bind.
  { apply (triple_zip_close d tn tn_valid z c Hc).
    now rewrite Hname. }
  intros ?.
  eapply triple_bind; [apply (triple_rmtree d tn tn_valid) |].
  intros ?. apply triple_ret. auto.
Qed.

(** The whole of [create_bag] after [mkdtemp]. *)
Lemma triple_create_bag_body :
  triple (in_run d tn)
    (_ <~ step fails At_makedirs ;;
     _ <~ os_makedirs data_path ;;
     _ <~ step fails At_make_bag ;;
     bag <~ make_bag lib bag_dir (self_info self) ;;
     tables <~ lift (transform (_reformat_headers (self_data self))) ;;
     _ <~ step fails At_participant_tsv ;;
     _ <~ to_csv (TsvOfSeries (fst tables))
            (data_path ++ "/participant.tsv")%string ;;
     _ <~ step fails At_sample_tsv ;;
     _ <~ to_csv (TsvOfFrame (snd tables))
            (data_path ++ "/sample.tsv")%string ;;
     _ <~ step fails At_bag_save ;;
     _ <~ bag_save lib bag ;;
     _ <~ step fails At_zip_open ;;
     zipfile_tmp <~ NamedTemporaryFile ".zip" ;;
     zipfile_handle <~ __zipdir fails listdir tempd
                         (mkZipFile zipfile_tmp []) ;;
     _ <~ step fails At_zip_close ;;
     _ <~ zip_close zipfile_handle ;;
     _ <~ shutil_rmtree (fails At_rmtree) tempd true ;;
     ret zipfile_tmp)
    (fun _ w => exists_path tempd w = fails At_rmtree) (in_run d tn).
Proof.
  eapply triple_bind; [apply triple_step |]. intros ?.
  eapply triple_bind.
  { apply (triple_makedirs_below d tn tn_valid data_path
             (self_name self) ["data"]).
    apply data_path_resolve. }
  intros ?.
  eapply triple_bind; [apply triple_step |]. intros ?.
  eapply triple_bind; [apply triple_make_bag |].
  intros bag w [Hrun Hbag]. revert w Hrun.
  match goal with
  | |- forall w, in_run d tn w -> match ?m w with _ => _ end =>
      change (triple (in_run d tn) m
                (fun _ w => exists_path tempd w = fails At_rmtree)
                (in_run d tn))
  end.
  eapply triple_bind; [apply triple_lift; auto |].
  intros tables w [Hrun _]. revert w Hrun.
  match goal with
  | |- forall w, in_run d tn w -> match ?m w with _ => _ end =>
      change (triple (in_run d tn) m
                (fun _ w => exists_path tempd w = fails At_rmtree)
                (in_run d tn))
  end.
  eapply triple_bind; [apply triple_step |]. intros ?.
  eapply triple_bind;
    [apply (triple_to_csv _ "participant.tsv" eq_refl) |]. intros ?.
  eapply triple_bind; [apply triple_step |]. intros ?.
  eapply triple_bind; [apply (triple_to_csv _ "sample.tsv" eq_refl) |].
  intros ?.
  eapply triple_bind; [apply triple_step |]. intros ?.
  eapply triple_bind; [apply (triple_bag_save bag Hbag) |]. intros ?.
  eapply triple_bind; [apply triple_step |]. intros ?.
  eapply triple_bind;
    [apply (triple_named_temporary_file d tn tn_valid ".zip" eq_refl) |].
  intros zipfile_tmp w [Hrun (c & Hc & Hz)].
  exact (triple_archive zipfile_tmp c Hc Hz w Hrun).
Qed.

End Bagging.

(** ** The temporary directory at the end of [create_bag] *)

(** C2 (amended).  For a bundle name that is a plain file name (not empty,
    without a slash, neither [.] nor [..]): when [create_bag] returns
    normally, the temporary directory it acquired no longer exists, unless
    the removal itself was refused; [shutil.rmtree] is called with
    [ignore_errors=True], so a refused removal is swallowed and
    [create_bag] returns normally with the directory still there.  When
    [create_bag] raises at any step (creating the directories, making the
    bag, transforming the table, writing a table, saving the manifests,
    writing or closing the archive), the temporary directory is still
    there: the code removes it only on the last line, outside any
    [try]/[finally].  This holds for every listing order and every
    installed bagit. *)
Theorem temporary_directory_removed_on_return
        (fails : io_step -> bool)
        (listdir : list (string * node) -> list (string * node))
        (lib : bagit_lib) (self : BagHandler) (w w1 : world)
        (tempd : string) :
  valid_name (self_name self) = true ->
  Forall (fun n => no_slash n = true) (names w) ->
  mkdtemp "bag_tmpd" w = (Ok tempd, w1) ->
  match create_bag fails listdir lib self w with
  | (Ok _, w') => exists_path tempd w' = fails At_rmtree
  | (Raise _, w') => exists_path tempd w' = true
  end.
Proof.
  intros Hname Hnames Hmk.
  destruct (mkdtemp_spec "bag_tmpd" w w1 tempd eq_refl Hnames Hmk)
    as (tn & Htn & -> & Hrun & _).
  unfold create_bag. unfold bindIO at 1. rewrite Hmk.
  pose proof (triple_create_bag_body fails listdir lib (tmpdir w) tn self
                Htn Hname w1 Hrun) as H.
  cbv zeta in H.
  match goal with
  | |- match ?m with _ => _ end =>
      match type of H with
      | match ?m' with _ => _ end => change m with m'
      end
  end.
  match type of H with
  | match ?m' with _ => _ end =>
      destruct m' as [[z | e] w']; [exact H |]
  end.
  destruct H as (_ & _ & es & Hes). unfold exists_path. now rewrite Hes.
Qed.

(** Against C2 as stated: a table without [file_type] makes [transform]
    raise inside [create_bag], and the temporary directory stays; and when
    only the removal is refused, [create_bag] returns the archive and the
    temporary directory stays. *)
Lemma temporary_directory_left_on_key_error :
  fst (mkdtemp "bag_tmpd" empty_tmp) = Ok "/tmp/tmpk3x9bag_tmpd" /\
  fst (create_bag no_fault as_created bagit_1_6 headless_handler empty_tmp) =
    Raise (KeyError ["file_type"]) /\
  exists_path "/tmp/tmpk3x9bag_tmpd"
    (snd (create_bag no_fault as_created bagit_1_6 headless_handler
            empty_tmp)) = true /\
  fst (create_bag removal_refused as_created bagit_1_6 pair_handler
         empty_tmp) = Ok "/tmp/tmpq7w2.zip" /\
  exists_path "/tmp/tmpk3x9bag_tmpd"
    (snd (create_bag removal_refused as_created bagit_1_6 pair_handler
            empty_tmp)) = true.
Proof.
  split; [vm_compute; reflexivity |].
  split; [vm_compute; reflexivity |].
  split; [vm_compute; reflexivity |].
  split; vm_compute; reflexivity.
Qed.

Lemma temporary_directory_removed_on_return_witness :
  fst (create_bag no_fault as_created bagit_1_6 pair_handler empty_tmp) =
    Ok "/tmp/tmpq7w2.zip" /\
  exists_path "/tmp/tmpk3x9bag_tmpd"
    (snd (create_bag no_fault as_created bagit_1_6 pair_handler empty_tmp)) =
    false.
Proof.
  split; [vm_compute; reflexivity |].
  assert (Hnames : Forall (fun n => no_slash n = true) (names empty_tmp))
    by (repeat constructor).
  pose proof (temporary_directory_removed_on_return no_fault as_created
                bagit_1_6 pair_handler empty_tmp
                (snd (mkdtemp "bag_tmpd" empty_tmp))
                "/tmp/tmpk3x9bag_tmpd" eq_refl Hnames eq_refl) as H.
  destruct (create_bag no_fault as_created bagit_1_6 pair_handler empty_tmp)
    as [[z | e] w'] eqn:E.
  - exact H.
  - vm_compute in E. discriminate E.
Defined.

(** ** Names and paths *)

Lemma concat_cons_char (a : ascii) (h : string) (t : list string) :
  String.concat "/" (String a h :: t) = String a (String.concat "/" (h :: t)).
Proof. destruct t; reflexivity. Qed.

(** Joining the components of a name with slashes gives the name back. *)
Lemma concat_split (s : string) : String.concat "/" (split_slash s) = s.
Proof.
  induction s as [| a s IH]; [reflexivity |].
  cbn [split_slash].
  destruct (Ascii.eqb_spec a "/") as [-> | _].
  - pose proof (split_slash_nonempty s) as Hne.
    destruct (split_slash s) as [| h t]; [contradiction |].
    change (String.concat "/" ("" :: h :: t))
      with ("" ++ "/" ++ String.concat "/" (h :: t))%string.
    now rewrite IH.
  - pose proof (split_slash_nonempty s) as Hne.
    destruct (split_slash s) as [| h t]; [contradiction |].
    now rewrite concat_cons_char, IH.
Qed.

Lemma concat_render (c : string) (cs : list string) :
  String.concat "/" (c :: cs) = (c ++ render cs)%string.
Proof.
  revert c. induction cs as [| x cs IH]; intros c.
  - simpl. now rewrite append_nil_r.
  - change (String.concat "/" (c :: x :: cs))
      with (c ++ "/" ++ String.concat "/" (x :: cs))%string.
    now rewrite IH.
Qed.

Lemma split_concat (p : list string) :
  p <> [] -> forallb valid_name p = true ->
  split_slash (String.concat "/" p) = p.
Proof.
  destruct p as [| c cs]; [contradiction |]. intros _ Hv.
  rewrite concat_render. now apply split_slash_render.
Qed.

(** ** The bag directory *)

Lemma append_inv_head (a b c : string) :
  (a ++ b)%string = (a ++ c)%string -> b = c.
Proof.
  induction a as [| x a IH]; simpl; intros H; [exact H |].
  injection H as H. now apply IH.
Qed.

Lemma append_length (a b : string) :
  String.length (a ++ b) = String.length a + String.length b.
Proof. induction a as [| x a IH]; simpl; [reflexivity | now rewrite IH]. Qed.

Lemma append_inv_tail (a b c : string) :
  (a ++ c)%string = (b ++ c)%string -> a = b.
Proof.
  revert b. induction a as [| x a IH]; intros [| y b] H;
    try reflexivity.
  - apply (f_equal String.length) in H.
    rewrite (append_length (String y b) c) in H. simpl in H. lia.
  - apply (f_equal String.length) in H.
    rewrite (append_length (String x a) c) in H. simpl in H. lia.
  - simpl in H. injection H as -> H. f_equal. now apply IH.
Qed.

Lemma manifest_name_inj (a b : string) :
  manifest_name a = manifest_name b -> a = b.
Proof.
  unfold manifest_name. intros H.
  apply append_inv_head in H. now apply append_inv_tail in H.
Qed.

Lemma tagmanifest_name_inj (a b : string) :
  tagmanifest_name a = tagmanifest_name b -> a = b.
Proof.
  unfold tagmanifest_name. intros H.
  apply append_inv_head in H. now apply append_inv_tail in H.
Qed.

Lemma manifest_name_valid (a : string) :
  no_slash a = true -> valid_name (manifest_name a) = true.
Proof.
  intros Ha. unfold valid_name, manifest_name.
  change ("manifest-" ++ a ++ ".txt")%string
    with (String "m" ("anifest-" ++ a ++ ".txt")).
  cbn [String.eqb Ascii.eqb Bool.eqb negb andb].
  change (String "m" ("anifest-" ++ a ++ ".txt"))
    with ("manifest-" ++ (a ++ ".txt"))%string.
  now rewrite !no_slash_append, Ha.
Qed.

Lemma tagmanifest_name_valid (a : string) :
  no_slash a = true -> valid_name (tagmanifest_name a) = true.
Proof.
  intros Ha. unfold valid_name, tagmanifest_name.
  change ("tagmanifest-" ++ a ++ ".txt")%string
    with (String "t" ("agmanifest-" ++ a ++ ".txt")).
  cbn [String.eqb Ascii.eqb Bool.eqb negb andb].
  change (String "t" ("agmanifest-" ++ a ++ ".txt"))
    with ("tagmanifest-" ++ (a ++ ".txt"))%string.
  now rewrite !no_slash_append, Ha.
Qed.

(** The names of the manifests differ from the other names in a bag. *)
Ltac other_name :=
  let H := fresh in
  intros H; unfold manifest_name, tagmanifest_name in H; cbn in H;
  discriminate H.

Lemma set_child_in (e : string * node) (c : string) (v : node)
      (es : list (string * node)) :
  In e (set_child c v es) -> e = (c, v) \/ In e es.
Proof.
  induction es as [| [c' n] es IH]; simpl.
  - intros [<- | []]. now left.
  - destruct (String.eqb c' c).
    + intros [<- | H]; auto.
    + intros [<- | H]; [auto |]. apply IH in H as [-> | H]; auto.
Qed.

Lemma set_child_nodup (c : string) (v : node) (es : list (string * node)) :
  NoDup (map fst es) -> NoDup (map fst (set_child c v es)).
Proof.
  induction es as [| [c' n] es IH]; simpl; intros H.
  - repeat constructor. intros [].
  - destruct (String.eqb_spec c' c) as [-> | Hne]; [exact H |].
    inversion H as [| ? ? Hnin Hnd]; subst. simpl. constructor.
    + intros Hin. apply in_map_iff in Hin as (e & He1 & He2).
      apply set_child_in in He2 as [-> | He2].
      * simpl in He1. congruence.
      * apply Hnin. rewrite <- He1. now apply in_map.
    + now apply IH.
Qed.

Lemma wf_set_child (c : string) (v : node) (es : list (string * node)) :
  wf_tree (Dir es) = true -> valid_name c = true -> wf_tree v = true ->
  wf_tree (Dir (set_child c v es)) = true.
Proof.
  intros Hwf Hc Hv. destruct (wf_tree_dir es Hwf) as (Hnd & _ & Hall).
  apply wf_tree_intro; [now apply set_child_nodup |].
  intros e He. apply set_child_in in He as [-> | He]; [now split | auto].
Qed.

Section Folded.

(** Files written one after the other, [v a] under the name [nm a]. *)
Variable nm : string -> string.
Variable v : string -> node.

Lemma fold_child_other (algs : list string) (k : string) :
  (forall a, In a algs -> nm a <> k) ->
  forall es,
    child k (fold_left (fun es a => set_child (nm a) (v a) es) algs es) =
    child k es.
Proof.
  induction algs as [| a algs IH]; intros H es; [reflexivity |].
  cbn [fold_left]. rewrite IH by (intros a' Ha'; apply H; now right).
  apply child_set_other. intros E. apply (H a (or_introl eq_refl)).
  now symmetry.
Qed.

Lemma fold_child_new (algs : list string) (a : string) :
  (forall x y, nm x = nm y -> x = y) ->
  In a algs ->
  forall es,
    child (nm a) (fold_left (fun es a => set_child (nm a) (v a) es) algs es) =
    Some (v a).
Proof.
  intros Hinj.
  induction algs as [| a0 algs IH]; intros Hin es; [contradiction |].
  cbn [fold_left].
  destruct (in_dec string_dec a algs) as [Ha | Hna]; [now apply IH |].
  destruct Hin as [-> | Hin]; [| contradiction].
  rewrite fold_child_other; [apply child_set_same |].
  intros a' Ha' E. apply Hinj in E. now subst.
Qed.

Lemma fold_in (algs : list string) (e : string * node) :
  forall es,
    In e (fold_left (fun es a => set_child (nm a) (v a) es) algs es) ->
    In e es \/ exists a, In a algs /\ e = (nm a, v a).
Proof.
  induction algs as [| a algs IH]; intros es H; [now left |].
  cbn [fold_left] in H. apply IH in H as [H | (a' & Ha' & ->)].
  - apply set_child_in in H as [-> | H]; [| now left].
    right. exists a. split; [now left | reflexivity].
  - right. exists a'. split; [now right | reflexivity].
Qed.

Lemma wf_fold (algs : list string) :
  (forall a, In a algs -> valid_name (nm a) = true /\ wf_tree (v a) = true) ->
  forall es,
    wf_tree (Dir es) = true ->
    wf_tree (Dir (fold_left (fun es a => set_child (nm a) (v a) es)
                    algs es)) = true.
Proof.
  induction algs as [| a algs IH]; intros H es Hwf; [exact Hwf |].
  cbn [fold_left]. apply IH; [intros a' Ha'; apply H; now right |].
  destruct (H a (or_introl eq_refl)) as [Hn Hv]. now apply wf_set_child.
Qed.

End Folded.

Section BagFiles.

Variable lib : bagit_lib.
Hypothesis names_ok : algorithm_names lib.

Lemma algorithm_no_slash (a : string) :
  In a (checksums lib) -> no_slash a = true.
Proof.
  intros Ha. unfold algorithm_names in names_ok.
  rewrite Forall_forall in names_ok. now apply names_ok.
Qed.

Lemma child_manifests_other (algs : list string) (es : list (string * node))
      (k : string) :
  (forall a, manifest_name a <> k) ->
  child k (write_manifests lib algs es) = child k es.
Proof.
  intros H. unfold write_manifests.
  destruct (is_nil (payload_paths es) && negb (empty_manifests lib));
    [reflexivity |].
  apply (fold_child_other manifest_name
           (fun a => File (ManifestTxt a (payload_paths es)))).
  intros a _. apply H.
Qed.

Lemma child_manifests_new (algs : list string) (es : list (string * node))
      (a : string) :
  In a algs -> payload_paths es <> [] ->
  child (manifest_name a) (write_manifests lib algs es) =
  Some (File (ManifestTxt a (payload_paths es))).
Proof.
  intros Ha Hp. unfold write_manifests.
  destruct (payload_paths es) as [| x l] eqn:E; [contradiction |].
  cbn [is_nil andb].
  exact (fold_child_new manifest_name
           (fun a => File (ManifestTxt a (x :: l))) algs a
           manifest_name_inj Ha es).
Qed.

Lemma in_manifests (algs : list string) (es : list (string * node))
      (e : string * node) :
  In e (write_manifests lib algs es) ->
  In e es \/
  exists a c, In a algs /\ e = (manifest_name a, File c).
Proof.
  unfold write_manifests.
  destruct (is_nil (payload_paths es) && negb (empty_manifests lib));
    [now left |].
  intros H.
  apply (fold_in manifest_name
           (fun a => File (ManifestTxt a (payload_paths es)))) in H
    as [H | (a & Ha & ->)]; [now left |].
  right. eauto.
Qed.

Lemma wf_manifests (algs : list string) (es : list (string * node)) :
  Forall (fun a => no_slash a = true) algs ->
  wf_tree (Dir es) = true ->
  wf_tree (Dir (write_manifests lib algs es)) = true.
Proof.
  intros Halgs Hwf. unfold write_manifests.
  destruct (is_nil (payload_paths es) && negb (empty_manifests lib));
    [exact Hwf |].
  apply (wf_fold manifest_name
           (fun a => File (ManifestTxt a (payload_paths es))));
    [| exact Hwf].
  intros a Ha. rewrite Forall_forall in Halgs.
  split; [apply manifest_name_valid; now apply Halgs | reflexivity].
Qed.

Lemma child_tagmanifests_other (algs : list string)
      (es : list (string * node)) (k : string) :
  (forall a, tagmanifest_name a <> k) ->
  child k (write_tagmanifests algs es) = child k es.
Proof.
  intros H. unfold write_tagmanifests.
  apply (fold_child_other tagmanifest_name
           (fun a => File (TagManifestTxt a))).
  intros a _. apply H.
Qed.

Lemma child_tagmanifests_new (algs : list string)
      (es : list (string * node)) (a : string) :
  In a algs ->
  child (tagmanifest_name a) (write_tagmanifests algs es) =
  Some (File (TagManifestTxt a)).
Proof.
  intros Ha. unfold write_tagmanifests.
  exact (fold_child_new tagmanifest_name
           (fun a => File (TagManifestTxt a)) algs a
           tagmanifest_name_inj Ha es).
Qed.

Lemma in_tagmanifests (algs : list string) (es : list (string * node))
      (e : string * node) :
  In e (write_tagmanifests algs es) ->
  In e es \/
  exists a c, In a algs /\ e = (tagmanifest_name a, File c).
Proof.
  unfold write_tagmanifests. intros H.
  apply (fold_in tagmanifest_name
           (fun a => File (TagManifestTxt a))) in H
    as [H | (a & Ha & ->)]; [now left |].
  right. eauto.
Qed.

Lemma wf_tagmanifests (algs : list string) (es : list (string * node)) :
  Forall (fun a => no_slash a = true) algs ->
  wf_tree (Dir es) = true ->
  wf_tree (Dir (write_tagmanifests algs es)) = true.
Proof.
  intros Halgs Hwf. unfold write_tagmanifests.
  apply (wf_fold tagmanifest_name
           (fun a => File (TagManifestTxt a)));
    [| exact Hwf].
  intros a Ha. rewrite Forall_forall in Halgs.
  split; [apply tagmanifest_name_valid; now apply Halgs | reflexivity].
Qed.

Variable participant : Series.
Variable sample : DataFrame.
Variable info : list (string * string).

(** An entry of a bag: the payload directory, or one of the tag files. *)
Let bag_entry (e : string * node) : Prop :=
  fst e = "data" \/
  (In (fst e)
      (["bagit.txt"; "bag-info.txt"]
       ++ map manifest_name (checksums lib)
       ++ map tagmanifest_name (checksums lib)) /\
   exists c, snd e = File c).

Lemma bag_entry_manifest (a : string) (c : content) :
  In a (checksums lib) -> bag_entry (manifest_name a, File c).
Proof.
  intros Ha. right. split; [| cbn [snd]; eauto]. cbn [fst].
  apply in_or_app. right. apply in_or_app. left. now apply in_map.
Qed.

Lemma bag_entry_tagmanifest (a : string) (c : content) :
  In a (checksums lib) -> bag_entry (tagmanifest_name a, File c).
Proof.
  intros Ha. right. split; [| cbn [snd]; eauto]. cbn [fst].
  apply in_or_app. right. apply in_or_app. right. now apply in_map.
Qed.

Lemma made_bag_data :
  child "data" (made_bag lib info) = Some (Dir [("data", Dir [])]).
Proof.
  unfold made_bag.
  rewrite child_tagmanifests_other by (intros a; other_name).
  rewrite !child_set_other by discriminate.
  rewrite child_manifests_other by (intros a; other_name).
  reflexivity.
Qed.

Lemma made_bag_bagit :
  child "bagit.txt" (made_bag lib info) = Some (File BagitTxt).
Proof.
  unfold made_bag.
  rewrite child_tagmanifests_other by (intros a; other_name).
  rewrite child_set_other by discriminate.
  apply child_set_same.
Qed.

Lemma made_bag_entries (e : string * node) :
  In e (made_bag lib info) -> bag_entry e.
Proof.
  unfold made_bag. intros H.
  apply in_tagmanifests in H as [H | (a & c & Ha & ->)];
    [| now apply bag_entry_tagmanifest].
  apply set_child_in in H as [-> | H].
  { right. split; [cbn; auto | cbn [snd]; eauto]. }
  apply set_child_in in H as [-> | H].
  { right. split; [cbn; auto | cbn [snd]; eauto]. }
  apply in_manifests in H as [H | (a & c & Ha & ->)];
    [| now apply bag_entry_manifest].
  destruct H as [<- | []]. now left.
Qed.

Lemma wf_made_bag : wf_tree (Dir (made_bag lib info)) = true.
Proof.
  unfold made_bag.
  apply wf_tagmanifests; [exact names_ok |].
  apply wf_set_child; [| reflexivity | reflexivity].
  apply wf_set_child; [| reflexivity | reflexivity].
  apply wf_manifests; [exact names_ok | reflexivity].
Qed.

Lemma filled_bag_data :
  child "data" (filled_bag lib participant sample info) =
  Some (payload_dir participant sample).
Proof. unfold filled_bag. apply child_set_same. Qed.

Lemma filled_bag_other (k : string) :
  k <> "data" ->
  child k (filled_bag lib participant sample info) =
  child k (made_bag lib info).
Proof.
  intros Hk. unfold filled_bag. now rewrite !child_set_other by exact Hk.
Qed.

Lemma filled_bag_payload :
  payload_paths (filled_bag lib participant sample info) =
  ["data/participant.tsv"; "data/sample.tsv"].
Proof. unfold payload_paths. now rewrite filled_bag_data. Qed.

Lemma filled_bag_entries (e : string * node) :
  In e (filled_bag lib participant sample info) -> bag_entry e.
Proof.
  unfold filled_bag. intros H.
  apply set_child_in in H as [-> | H]; [now left |].
  apply set_child_in in H as [-> | H]; [now left |].
  now apply made_bag_entries.
Qed.

Lemma wf_filled_bag :
  wf_tree (Dir (filled_bag lib participant sample info)) = true.
Proof.
  unfold filled_bag.
  apply wf_set_child; [| reflexivity | reflexivity].
  apply wf_set_child; [| reflexivity | reflexivity].
  apply wf_made_bag.
Qed.

(** The entries of the finished bag. *)
Lemma bag_entries_data :
  child "data" (bag_entries lib participant sample info) =
  Some (payload_dir participant sample).
Proof.
  unfold bag_entries.
  rewrite child_tagmanifests_other by (intros a; other_name).
  rewrite child_set_other by discriminate.
  rewrite child_manifests_other by (intros a; other_name).
  apply filled_bag_data.
Qed.

Lemma bag_entries_bagit :
  child "bagit.txt" (bag_entries lib participant sample info) =
  Some (File BagitTxt).
Proof.
  unfold bag_entries.
  rewrite child_tagmanifests_other by (intros a; other_name).
  rewrite child_set_other by discriminate.
  rewrite child_manifests_other by (intros a; other_name).
  rewrite filled_bag_other by discriminate.
  apply made_bag_bagit.
Qed.

Lemma bag_entries_info :
  child "bag-info.txt" (bag_entries lib participant sample info) =
  Some (File (BagInfoTxt info)).
Proof.
  unfold bag_entries.
  rewrite child_tagmanifests_other by (intros a; other_name).
  apply child_set_same.
Qed.

Lemma bag_entries_manifest (a : string) :
  In a (checksums lib) ->
  child (manifest_name a) (bag_entries lib participant sample info) =
  Some (File (ManifestTxt a ["data/participant.tsv"; "data/sample.tsv"])).
Proof.
  intros Ha. unfold bag_entries.
  rewrite child_tagmanifests_other by (intros b; other_name).
  rewrite child_set_other by other_name.
  rewrite child_manifests_new; [| exact Ha |];
    rewrite filled_bag_payload; [reflexivity | discriminate].
Qed.

Lemma bag_entries_tagmanifest (a : string) :
  In a (checksums lib) ->
  child (tagmanifest_name a) (bag_entries lib participant sample info) =
  Some (File (TagManifestTxt a)).
Proof.
  intros Ha. unfold bag_entries. now apply child_tagmanifests_new.
Qed.

Lemma bag_entries_all (e : string * node) :
  In e (bag_entries lib participant sample info) -> bag_entry e.
Proof.
  unfold bag_entries. intros H.
  apply in_tagmanifests in H as [H | (a & c & Ha & ->)];
    [| now apply bag_entry_tagmanifest].
  apply set_child_in in H as [-> | H].
  { right. split; [cbn; auto | cbn [snd]; eauto]. }
  apply in_manifests in H as [H | (a & c & Ha & ->)];
    [| now apply bag_entry_manifest].
  now apply filled_bag_entries.
Qed.

Lemma wf_bag_tree :
  wf_tree (bag_tree lib participant sample info) = true.
Proof.
  unfold bag_tree, bag_entries.
  apply wf_tagmanifests; [exact names_ok |].
  apply wf_set_child; [| reflexivity | reflexivity].
  apply wf_manifests; [exact names_ok |].
  apply wf_filled_bag.
Qed.

(** The files of the payload directory are the two tables. *)
Lemma payload_dir_files (p : list string) (c : content) :
  lookup p (payload_dir participant sample) = Some (File c) ->
  (p = ["participant.tsv"] /\ c = TsvOfSeries participant) \/
  (p = ["sample.tsv"] /\ c = TsvOfFrame sample).
Proof.
  unfold payload_dir. destruct p as [| k p]; [discriminate |].
  cbn [lookup child].
  destruct (String.eqb_spec "data" k) as [<- | _].
  { destruct p; [discriminate |]. cbn. discriminate. }
  destruct (String.eqb_spec "participant.tsv" k) as [<- | _].
  { destruct p; [| discriminate]. cbn. intros H. injection H as <-.
    now left. }
  destruct (String.eqb_spec "sample.tsv" k) as [<- | _]; [| discriminate].
  destruct p; [| discriminate]. cbn. intros H. injection H as <-.
  now right.
Qed.

Variable name : string.
Hypothesis name_valid : valid_name name = true.

(** The files below the temporary directory when the archive is written:
    their names are those of [bag_members]. *)
Lemma bag_tree_files :
  wf_tree (Dir [(name, bag_tree lib participant sample info)]) = true /\
  (forall nm,
     (exists c, lookup (split_slash nm)
                  (Dir [(name, bag_tree lib participant sample info)]) =
                Some (File c)) <->
     In nm (bag_members lib name)) /\
  lookup (split_slash (name ++ "/data/participant.tsv"))
    (Dir [(name, bag_tree lib participant sample info)]) =
    Some (File (TsvOfSeries participant)) /\
  lookup (split_slash (name ++ "/data/sample.tsv"))
    (Dir [(name, bag_tree lib participant sample info)]) =
    Some (File (TsvOfFrame sample)).
Proof.
  assert (Hsplit : forall f,
             split_slash (name ++ "/" ++ f) = name :: split_slash f).
  { intros f. rewrite split_slash_append.
    now rewrite (split_slash_no_slash name
                   (valid_name_no_slash name name_valid)). }
  assert (Hlook : forall q,
             lookup (name :: q)
               (Dir [(name, bag_tree lib participant sample info)]) =
             lookup q (bag_tree lib participant sample info)).
  { intros q. cbn [lookup child]. now rewrite String.eqb_refl. }
  split; [| split; [| split]].
  - apply wf_tree_intro.
    + repeat constructor. intros [].
    + intros e [<- | []]. cbn [fst snd].
      split; [exact name_valid | apply wf_bag_tree].
  - intros nm. split.
    + intros [c H].
      pose proof (concat_split nm) as Hnm.
      destruct (split_slash nm) as [| k0 q1]; [discriminate |].
      cbn [lookup child] in H.
      destruct (String.eqb_spec name k0) as [<- | _]; [| discriminate].
      destruct q1 as [| k q2]; [discriminate |].
      unfold bag_tree in H. cbn [lookup] in H.
      destruct (child k (bag_entries lib participant sample info))
        as [ch |] eqn:Ek; [| discriminate].
      pose proof (bag_entries_all (k, ch) (child_in _ _ _ Ek)) as He.
      destruct He as [Hd | [Hin [c' Hc']]]; cbn [fst snd] in *.
      * subst k. rewrite bag_entries_data in Ek. injection Ek as <-.
        apply payload_dir_files in H as [[-> _] | [-> _]];
          rewrite <- Hnm; unfold bag_members; apply in_map_iff;
          [exists "data/participant.tsv" | exists "data/sample.tsv"];
          (split; [reflexivity |]); cbn; auto.
      * subst ch. destruct q2; [| discriminate].
        rewrite <- Hnm. unfold bag_members. apply in_map_iff.
        exists k. split; [reflexivity |].
        change (["bagit.txt"; "bag-info.txt"; "data/participant.tsv";
                 "data/sample.tsv"])
          with (["bagit.txt"; "bag-info.txt"] ++
                ["data/participant.tsv"; "data/sample.tsv"]).
        rewrite <- app_assoc.
        apply in_app_iff in Hin as [Hin | Hin];
          apply in_or_app; [now left | right].
        apply in_or_app. now right.
    + unfold bag_members. intros H.
      apply in_map_iff in H as (f & <- & Hf).
      rewrite Hsplit, Hlook. unfold bag_tree.
      apply in_app_iff in Hf as [Hf | Hf].
      * destruct Hf as [<- | [<- | [<- | [<- | []]]]].
        -- exists BagitTxt. cbn [split_slash Ascii.eqb Bool.eqb].
           rewrite lookup_single. apply bag_entries_bagit.
        -- exists (BagInfoTxt info). cbn [split_slash Ascii.eqb Bool.eqb].
           rewrite lookup_single. apply bag_entries_info.
        -- exists (TsvOfSeries participant).
           change (split_slash "data/participant.tsv")
             with ["data"; "participant.tsv"].
           cbn [lookup]. now rewrite bag_entries_data.
        -- exists (TsvOfFrame sample).
           change (split_slash "data/sample.tsv")
             with ["data"; "sample.tsv"].
           cbn [lookup]. now rewrite bag_entries_data.
      * apply in_app_iff in Hf as [Hf | Hf];
          apply in_map_iff in Hf as (a & <- & Ha).
        -- eexists.
           rewrite (split_slash_no_slash _
                      (valid_name_no_slash _
                         (manifest_name_valid a (algorithm_no_slash a Ha)))).
           rewrite lookup_single. now apply bag_entries_manifest.
        -- pose proof (bag_entries_tagmanifest a Ha) as Ht.
           eexists.
           rewrite (split_slash_no_slash _
                      (valid_name_no_slash _
                         (tagmanifest_name_valid a
                            (algorithm_no_slash a Ha)))).
           rewrite lookup_single. exact Ht.
  - change (name ++ "/data/participant.tsv")%string
      with (name ++ "/" ++ "data/participant.tsv")%string.
    rewrite Hsplit, Hlook. unfold bag_tree.
    change (split_slash "data/participant.tsv")
      with ["data"; "participant.tsv"].
    cbn [lookup]. now rewrite bag_entries_data.
  - change (name ++ "/data/sample.tsv")%string
      with (name ++ "/" ++ "data/sample.tsv")%string.
    rewrite Hsplit, Hlook. unfold bag_tree.
    change (split_slash "data/sample.tsv") with ["data"; "sample.tsv"].
    cbn [lookup]. now rewrite bag_entries_data.
Qed.

End BagFiles.

(** ** The archive [create_bag] writes *)

Lemma at_path_only_child (c : string) (Q : list string)
      (g : node -> result node) (B : node) :
  at_path (c :: Q) g (Dir [(c, B)]) =
  (B' <- at_path Q g B ;; Ok (Dir [(c, B')])).
Proof.
  simpl. now rewrite String.eqb_refl.
Qed.

Lemma triple_no_fault (s : io_step) (P E : world -> Prop) :
  triple P (step no_fault s) (fun _ => P) E.
Proof. intros w HP. exact HP. Qed.

Lemma at_path_child (c : string) (f : node -> result node)
      (es : list (string * node)) (ch ch' : node) :
  child c es = Some ch -> f ch = Ok ch' ->
  at_path [c] f (Dir es) = Ok (Dir (set_child c ch' es)).
Proof. intros Hc Hf. cbn [at_path]. now rewrite Hc, Hf. Qed.

Section Archive.

Variable lib : bagit_lib.
Variable d tn : string.
Variable self : BagHandler.
Variable w0 : world.
Hypothesis tn_valid : valid_name tn = true.
Hypothesis name_valid : valid_name (self_name self) = true.

Let tempd : string := path_join d tn.
Let bag_dir : string := (tempd ++ "/" ++ self_name self)%string.
Let data_path : string := (bag_dir ++ "/data")%string.

Lemma at_tree_graft (L L' : node) (w : world) :
  at_tree d tn w0 L w ->
  at_tree d tn w0 L'
    (set_root w (graft (resolve d ++ [tn]) L' (root w))).
Proof.
  intros (Hd & Hn & HL & Hfr).
  split; [exact Hd |]. split; [exact Hn |]. cbn [root set_root]. split.
  - now apply (lookup_graft_same _ _ _ L).
  - intros c Hc.
    rewrite <- (Hfr c Hc).
    apply (lookup_graft_sibling (resolve d) [] c tn L' (root w) Hc).
Qed.

Lemma triple_tree_update (Q : list string) (g : node -> result node)
      (L L' : node) :
  at_path Q g L = Ok L' ->
  triple (at_tree d tn w0 L) (fs_update ((resolve d ++ [tn]) ++ Q) g)
    (fun _ => at_tree d tn w0 L') (fun _ => False).
Proof.
  intros Hg w Hw. pose proof Hw as (_ & _ & HL & _).
  rewrite (fs_update_below _ _ g w L HL), Hg.
  now apply (at_tree_graft L).
Qed.

Lemma triple_tree_makedirs (path : string) (Q : list string) (L L' : node) :
  resolve path = (resolve d ++ [tn]) ++ Q ->
  makedirs_at Q L = Ok L' ->
  triple (at_tree d tn w0 L) (os_makedirs path)
    (fun _ => at_tree d tn w0 L') (fun _ => False).
Proof.
  intros Hp Hg w Hw. pose proof Hw as (_ & _ & HL & _).
  rewrite (os_makedirs_below path _ Q w L Hp HL), Hg.
  now apply (at_tree_graft L).
Qed.

Lemma triple_tree_make_bag (info : list (string * string)) (L L' : node) :
  at_path [self_name self] (make_bag_node lib info) L = Ok L' ->
  triple (at_tree d tn w0 L) (make_bag lib bag_dir info)
    (fun bag w => at_tree d tn w0 L' w /\
                  bag = mkBag bag_dir info (checksums lib))
    (fun _ => False).
Proof.
  intros Hg. unfold make_bag.
  eapply triple_bind.
  - unfold bag_dir, tempd.
    rewrite (bag_dir_resolve d tn self tn_valid name_valid).
    apply (triple_tree_update [self_name self] (make_bag_node lib info)
             L L' Hg).
  - intros u. apply triple_ret. intros w Hw. now split.
Qed.

Lemma triple_lift_ok {A} (P E : world -> Prop) (a : A) :
  triple P (lift (Ok a)) (fun a' w => P w /\ a' = a) E.
Proof. intros w HP. now split. Qed.

(** The tree under the temporary directory once the bag is made. *)
Lemma triple_skeleton :
  triple (at_tree d tn w0 (Dir []))
    (_ <~ step no_fault At_makedirs ;;
     _ <~ os_makedirs data_path ;;
     _ <~ step no_fault At_make_bag ;;
     make_bag lib bag_dir (self_info self))
    (fun bag w =>
       at_tree d tn w0
         (Dir [(self_name self, Dir (made_bag lib (self_info self)))]) w /\
       bag = mkBag bag_dir (self_info self) (checksums lib))
    (fun _ => False).
Proof.
  pose proof (data_path_resolve d tn self tn_valid name_valid) as Hdata.
  cbv zeta in Hdata.
  eapply triple_bind; [apply triple_no_fault |]. intros ?.
  eapply triple_bind.
  { apply (triple_tree_makedirs data_path [self_name self; "data"]
             (Dir []) (Dir [(self_name self, Dir [("data", Dir [])])])).
    - exact Hdata.
    - reflexivity. }
  intros ?.
  eapply triple_bind; [apply triple_no_fault |]. intros ?.
  apply triple_tree_make_bag. rewrite at_path_only_child. reflexivity.
Qed.

Variable participant : Series.
Variable sample : DataFrame.
Hypothesis tables_ok :
  transform (_reformat_headers (self_data self)) = Ok (participant, sample).

(** The tree under the temporary directory when the archive is written. *)
Lemma triple_build_bag :
  triple (at_tree d tn w0 (Dir []))
    (_ <~ step no_fault At_makedirs ;;
     _ <~ os_makedirs data_path ;;
     _ <~ step no_fault At_make_bag ;;
     bag <~ make_bag lib bag_dir (self_info self) ;;
     tables <~ lift (transform (_reformat_headers (self_data self))) ;;
     _ <~ step no_fault At_participant_tsv ;;
     _ <~ to_csv (TsvOfSeries (fst tables))
            (data_path ++ "/participant.tsv")%string ;;
     _ <~ step no_fault At_sample_tsv ;;
     _ <~ to_csv (TsvOfFrame (snd tables))
            (data_path ++ "/sample.tsv")%string ;;
     _ <~ step no_fault At_bag_save ;;
     _ <~ bag_save lib bag ;;
     step no_fault At_zip_open)
    (fun _ =>
       at_tree d tn w0
         (Dir [(self_name self,
                bag_tree lib participant sample (self_info self))]))
    (fun _ => False).
Proof.
  pose proof (bag_dir_resolve d tn self tn_valid name_valid) as Hbag.
  pose proof (data_path_resolve d tn self tn_valid name_valid) as Hdata.
  pose proof (data_file_resolve d tn self tn_valid name_valid) as Hfile.
  cbv zeta in Hbag, Hdata, Hfile.
  eapply triple_bind; [apply triple_no_fault |]. intros ?.
  eapply triple_bind.
  { apply (triple_tree_makedirs data_path [self_name self; "data"]
             (Dir []) (Dir [(self_name self, Dir [("data", Dir [])])])).
    - exact Hdata.
    - reflexivity. }
  intros ?.
  eapply triple_bind; [apply triple_no_fault |]. intros ?.
  eapply triple_bind.
  { apply (triple_tree_make_bag (self_info self) _
             (Dir [(self_name self, Dir (made_bag lib (self_info self)))])).
    rewrite at_path_only_child. reflexivity. }
  intros bag w [Hw ->]. revert w Hw.
  match goal with
  | |- forall w, ?P w -> match ?m w with _ => _ end =>
      change (triple P m
                (fun _ =>
                   at_tree d tn w0
                     (Dir [(self_name self,
                            bag_tree lib participant sample
                              (self_info self))]))
                (fun _ => False))
  end.
  rewrite tables_ok.
  eapply triple_bind; [apply triple_lift_ok |].
  intros tables w [Hw ->]. revert w Hw.
  match goal with
  | |- forall w, ?P w -> match ?m w with _ => _ end =>
      change (triple P m
                (fun _ =>
                   at_tree d tn w0
                     (Dir [(self_name self,
                            bag_tree lib participant sample
                              (self_info self))]))
                (fun _ => False))
  end.
  cbn [fst snd]. unfold bag_save, to_csv.
  eapply triple_bind; [apply triple_no_fault |]. intros ?.
  eapply triple_bind.
  { unfold data_path, bag_dir, tempd.
    change "/participant.tsv" with ("/" ++ "participant.tsv")%string.
    rewrite (Hfile "participant.tsv" eq_refl), parent_snoc, leaf_snoc.
    apply (triple_tree_update [self_name self; "data"]).
    rewrite at_path_only_child.
    rewrite (at_path_child "data"
               (write_in "participant.tsv" (TsvOfSeries participant)) _ _ _
               (made_bag_data lib (self_info self)) eq_refl).
    reflexivity. }
  intros ?.
  eapply triple_bind; [apply triple_no_fault |]. intros ?.
  eapply triple_bind.
  { unfold data_path, bag_dir, tempd.
    change "/sample.tsv" with ("/" ++ "sample.tsv")%string.
    rewrite (Hfile "sample.tsv" eq_refl), parent_snoc, leaf_snoc.
    apply (triple_tree_update [self_name self; "data"]).
    rewrite at_path_only_child.
    rewrite (at_path_child "data"
               (write_in "sample.tsv" (TsvOfFrame sample)) _
               (Dir [("data", Dir []);
                     ("participant.tsv", File (TsvOfSeries participant))])
               (payload_dir participant sample)
               (child_set_same "data" _ _) eq_refl).
    reflexivity. }
  intros ?.
  eapply triple_bind; [apply triple_no_fault |]. intros ?.
  eapply triple_bind.
  { cbn [bag_path bag_info bag_algs]. unfold bag_dir, tempd. rewrite Hbag.
    apply (triple_tree_update [self_name self]).
    rewrite at_path_only_child. reflexivity. }
  intros ?. apply triple_no_fault.
Qed.

End Archive.

Section Beside.

Variable d tn : string.
Hypothesis tn_valid : valid_name tn = true.

(** Writing a file beside the temporary directory succeeds when the name
    is free or names a file. *)
Lemma write_beside_ok (c : string) (v : content) (w : world) (L : node) :
  c <> tn ->
  lookup (resolve d ++ [tn]) (root w) = Some L ->
  (lookup (resolve d ++ [c]) (root w) = None \/
   exists x, lookup (resolve d ++ [c]) (root w) = Some (File x)) ->
  exists r,
    fs_update (resolve d) (write_in c v) w = (Ok tt, set_root w r) /\
    at_path (resolve d) (write_in c v) (root w) = Ok r /\
    lookup (resolve d ++ [c]) r = Some (File v) /\
    lookup (resolve d ++ [tn]) r = Some L.
Proof.
  intros Hc HL Hfree.
  rewrite lookup_app in HL, Hfree.
  destruct (lookup (resolve d) (root w)) as [[x | esT] |] eqn:HT;
    try discriminate.
  rewrite lookup_single in HL, Hfree.
  exists (graft (resolve d) (Dir (set_child c (File v) esT)) (root w)).
  assert (Hat : at_path (resolve d) (write_in c v) (root w) =
                Ok (graft (resolve d) (Dir (set_child c (File v) esT))
                      (root w))).
  { rewrite (at_path_graft _ _ _ _ HT). unfold write_in.
    destruct Hfree as [-> | [x ->]]; reflexivity. }
  unfold fs_update. rewrite Hat.
  split; [reflexivity |]. split; [reflexivity |].
  rewrite !lookup_app, (lookup_graft_same _ _ _ _ HT), !lookup_single.
  split; [apply child_set_same |].
  now rewrite child_set_other by congruence.
Qed.

(** Removing the temporary directory leaves the files beside it. *)
Lemma rmtree_beside (c : string) (w : world) (L n : node) :
  c <> tn ->
  lookup (resolve d ++ [tn]) (root w) = Some L ->
  lookup (resolve d ++ [c]) (root w) = Some n ->
  exists r,
    shutil_rmtree false (path_join d tn) true w = (Ok tt, set_root w r) /\
    lookup (resolve d ++ [c]) r = Some n /\
    lookup (resolve d ++ [tn]) r = None.
Proof.
  intros Hc HL Hn.
  rewrite lookup_app in HL, Hn.
  destruct (lookup (resolve d) (root w)) as [[x | esT] |] eqn:HT;
    try discriminate.
  rewrite lookup_single in HL, Hn.
  exists (graft (resolve d) (Dir (remove_child tn esT)) (root w)).
  unfold shutil_rmtree.
  rewrite (tempd_resolve d tn tn_valid), parent_snoc, leaf_snoc.
  rewrite (at_path_graft _ _ _ _ HT). unfold remove_in. rewrite HL.
  cbn [bind]. split; [reflexivity |].
  rewrite !lookup_app, (lookup_graft_same _ _ _ _ HT), !lookup_single.
  split; [now rewrite child_remove_other by exact Hc |].
  apply child_remove_same.
Qed.

End Beside.

(** From the archive file on, in a run where the temporary directory holds
    the tree [L]. *)
Lemma archive_tail
      (listdir : list (string * node) -> list (string * node))
      (d tn : string) (w1 w2 w : world) (L : node) (zip : string) :
  listing_order listdir ->
  valid_name tn = true ->
  tmpdir w1 = d ->
  Forall (fun n => no_slash n = true) (names w1) ->
  (exists n, lookup (resolve d ++ [tn]) (root w1) = Some n) ->
  NamedTemporaryFile ".zip" w1 = (Ok zip, w2) ->
  at_tree d tn w1 L w ->
  wf_tree L = true ->
  exists w',
    (zipfile_tmp <~ NamedTemporaryFile ".zip" ;;
     zipfile_handle <~ __zipdir no_fault listdir (path_join d tn)
                         (mkZipFile zipfile_tmp []) ;;
     _ <~ step no_fault At_zip_close ;;
     _ <~ zip_close zipfile_handle ;;
     _ <~ shutil_rmtree (no_fault At_rmtree) (path_join d tn) true ;;
     ret zipfile_tmp) w = (Ok zip, w') /\
    lookup (resolve zip) (root w') =
      Some (File (ZipArchive (members (listed listdir L)))) /\
    exists_path (path_join d tn) w' = false.
Proof.
  intros Hperm Htn Hd Hn [n1 Hn1] Hzip (Hd' & Hn' & HL & Hfr) Hwf.
  unfold NamedTemporaryFile in Hzip. rewrite Hd in Hzip.
  destruct (first_free d "tmp" ".zip" (names w1) (root w1))
    as [[file rest] |] eqn:E; [| discriminate].
  destruct (at_path (parent (resolve file)) _ (root w1)); [| discriminate].
  injection Hzip as Hfile _. subst file.
  pose proof E as E'.
  apply first_free_spec in E' as (nm & sk & Hnames & Hzipname & Hfree).
  assert (Hnm : no_slash nm = true).
  { rewrite Hnames in Hn. rewrite Forall_forall in Hn.
    apply Hn, in_or_app. right. now left. }
  pose proof (temp_name_valid nm ".zip" Hnm eq_refl) as Hv.
  assert (Hz : resolve zip = resolve d ++ [("tmp" ++ nm ++ ".zip")%string])
    by (rewrite Hzipname; now apply resolve_join).
  rewrite Hz in Hfree.
  assert (Hc : ("tmp" ++ nm ++ ".zip")%string <> tn).
  { intros Heq. rewrite Heq in Hfree. congruence. }
  assert (Hsame : first_free d "tmp" ".zip" (names w) (root w) =
                  Some (zip, rest)).
  { rewrite Hn', <- E. apply first_free_same; [reflexivity | exact Hn |].
    intros c. destruct (string_dec c tn) as [-> | Hne].
    - rewrite HL, Hn1. split; discriminate.
    - now rewrite (Hfr c Hne). }
  rewrite <- (Hfr _ Hc) in Hfree.
  destruct (write_beside_ok d tn _ NoBytes w L Hc HL (or_introl Hfree))
    as (r6 & _ & Hat6 & Hz6 & HL6).
  set (w6 := mkWorld r6 d rest).
  assert (Hntf : NamedTemporaryFile ".zip" w = (Ok zip, w6)).
  { unfold NamedTemporaryFile. rewrite Hd', Hsame, Hz.
    now rewrite parent_snoc, leaf_snoc, Hat6. }
  destruct (path_join_clean d tn Htn) as [Hne Hends].
  assert (Hap : apart (resolve zip) (resolve (path_join d tn)) = true).
  { rewrite Hz, (tempd_resolve d tn Htn).
    apply (apart_siblings (resolve d) _ tn [] Hc). }
  assert (HL6' : lookup (resolve (path_join d tn)) (root w6) = Some L)
    by (now rewrite (tempd_resolve d tn Htn)).
  assert (Hz6' : exists x, lookup (resolve zip) (root w6) = Some (File x))
    by (exists NoBytes; now rewrite Hz).
  destruct (zipdir_members no_fault eq_refl (path_join d tn) Hne Hends
              zip Hap w6 listdir L (mkZipFile zip []) Hperm eq_refl
              Hz6' HL6' Hwf)
    as (w7 & Hzd & Hd7 & Hn7 & Hq7 & (x7 & Hx7) & _).
  assert (HL7 : lookup (resolve d ++ [tn]) (root w7) = Some L).
  { rewrite <- (tempd_resolve d tn Htn), (Hq7 _ Hap). exact HL6'. }
  rewrite Hz in Hx7.
  destruct (write_beside_ok d tn _
              (ZipArchive (members (listed listdir L))) w7 L Hc HL7
              (or_intror (ex_intro _ x7 Hx7)))
    as (r8 & Hup8 & _ & Hz8 & HL8).
  set (w8 := set_root w7 r8) in *.
  destruct (rmtree_beside d tn Htn _ w8 L _ Hc HL8 Hz8)
    as (r9 & Hrm & Hz9 & HL9).
  exists (set_root w8 r9).
  split; [| split].
  - unfold bindIO. rewrite Hntf, Hzd. cbv beta iota.
    unfold step, zip_close, zip_flush.
    change (no_fault At_zip_close) with false.
    change (no_fault At_rmtree) with false.
    cbn [zip_name zip_entries add_members app].
    rewrite Hz, parent_snoc, leaf_snoc, Hup8. fold w8.
    rewrite Hrm. reflexivity.
  - cbn [root set_root]. now rewrite Hz.
  - unfold exists_path. cbn [root set_root].
    now rewrite (tempd_resolve d tn Htn), HL9.
Qed.

(** The members of a listed tree stand for the files of the tree. *)
Lemma members_listed
      (listdir : list (string * node) -> list (string * node)) (n : node) :
  listing_order listdir ->
  wf_tree n = true ->
  forall name c,
    In (name, c) (members (listed listdir n)) <->
    lookup (split_slash name) n = Some (File c).
Proof.
  intros Hperm Hwf name c.
  pose proof (wf_listed listdir Hperm n Hwf) as Hwl.
  unfold members. rewrite in_map_iff. split.
  - intros ([p c'] & Heq & Hin). cbn [fst snd] in Heq.
    injection Heq as <- <-.
    apply (files_below_lookup _ Hwl) in Hin as [Hpne Hp].
    pose proof (lookup_wf _ _ _ Hwl Hp) as [Hv _].
    rewrite (split_concat p Hpne Hv).
    now apply (listed_file listdir Hperm p n c' Hwf).
  - intros H. exists (split_slash name, c). cbn [fst snd].
    split; [now rewrite concat_split |].
    apply (files_below_lookup _ Hwl).
    split; [apply split_slash_nonempty |].
    now apply (listed_file listdir Hperm _ n c Hwf).
Qed.

(** A run of [create_bag] without faults, from the two names drawn. *)
Lemma create_bag_run
      (listdir : list (string * node) -> list (string * node))
      (lib : bagit_lib) (self : BagHandler) (w w1 w2 : world)
      (tempd zip : string) (participant : Series) (sample : DataFrame) :
  listing_order listdir ->
  algorithm_names lib ->
  valid_name (self_name self) = true ->
  Forall (fun n => no_slash n = true) (names w) ->
  mkdtemp "bag_tmpd" w = (Ok tempd, w1) ->
  NamedTemporaryFile ".zip" w1 = (Ok zip, w2) ->
  transform (_reformat_headers (self_data self)) = Ok (participant, sample) ->
  exists w',
    create_bag no_fault listdir lib self w = (Ok zip, w') /\
    lookup (resolve zip) (root w') =
      Some (File (ZipArchive
                    (members
                       (listed listdir
                          (Dir [(self_name self,
                                 bag_tree lib participant sample
                                   (self_info self))]))))).
Proof.
  intros Hperm Hlib Hname Hnames Hmk Hzip Htables.
  destruct (mkdtemp_spec "bag_tmpd" w w1 tempd eq_refl Hnames Hmk)
    as (tn & Htn & -> & (Hd1 & Hn1 & _) & HP1 & _ & _).
  destruct (bag_tree_files lib Hlib participant sample (self_info self)
              (self_name self) Hname) as (Hwf & _).
  assert (H0 : at_tree (tmpdir w) tn w1 (Dir []) w1).
  { split; [exact Hd1 |]. split; [reflexivity |]. split; [exact HP1 | auto]. }
  pose proof (triple_build_bag lib (tmpdir w) tn self w1 Htn Hname
                participant sample Htables w1 H0) as Hbuild.
  cbv zeta in Hbuild.
  match type of Hbuild with
  | match ?m with _ => _ end => destruct m as [[u | e] w5] eqn:Ebuild
  end; [| contradiction].
  destruct (archive_tail listdir (tmpdir w) tn w1 w2 w5 _ zip Hperm Htn
              Hd1 Hn1 (ex_intro _ _ HP1) Hzip Hbuild Hwf)
    as (w' & Hrun & Hz & _).
  exists w'. split; [| exact Hz].
  unfold create_bag. unfold bindIO at 1. rewrite Hmk.
  rewrite <- Hrun. clear Hrun.
  unfold bindIO in Ebuild |- *. cbv zeta.
  cbn [self_data self_name self_info].
  repeat match goal with
         | H : match ?m with _ => _ end = (Ok _, _) |- _ =>
             destruct m as [[? | ?] ?] eqn:?; [| discriminate H]
         end.
  now rewrite Ebuild.
Qed.




(** * Further properties of the code *)

(** ** What [transform] reads *)

Lemma reset_index_reads (a b : DataFrame) :
  columns a = columns b -> data a = data b -> reset_index a = reset_index b.
Proof.
  intros Hc Hd. unfold reset_index.
  rewrite <- (length_map snd (body a)), <- (length_map snd (body b)).
  fold (data a) (data b). now rewrite Hc, Hd.
Qed.

(** The join is decided by the column labels, the crai rows and the five
    projected cells of the cram rows. *)
Lemma joined_reads (a b : DataFrame) :
  columns a = columns b ->
  subset "crai" a = subset "crai" b ->
  map (select (columns a) cram_columns) (subset "cram" a) =
  map (select (columns b) cram_columns) (subset "cram" b) ->
  joined a = joined b.
Proof.
  intros Hc Hcrai Hcram.
  destruct (joined a) as [wa | ea] eqn:Ha; destruct (joined b) as [wb | eb] eqn:Hb.
  - apply joined_ok in Ha as (_ & Hca & Hba).
    apply joined_ok in Hb as (_ & Hcb & Hbb).
    destruct wa as [ca ba], wb as [cb bb]. simpl in *.
    rewrite Hca, Hba, Hcb, Hbb, <- Hcram, <- Hcrai, <- Hc. reflexivity.
  - symmetry in Hc. apply (joined_raise_cols b a eb Hc) in Hb. congruence.
  - apply (joined_raise_cols a b ea Hc) in Ha. congruence.
  - apply (joined_raise_cols a b ea Hc) in Ha. congruence.
Qed.

Lemma transform_reads (a b : DataFrame) :
  columns a = columns b ->
  subset "crai" a = subset "crai" b ->
  map (select (columns a) cram_columns) (subset "cram" a) =
  map (select (columns b) cram_columns) (subset "cram" b) ->
  transform a = transform b.
Proof.
  intros Hc Hcrai Hcram. unfold transform.
  now rewrite (joined_reads a b Hc Hcrai Hcram).
Qed.

(** X1.  [transform] reads the column labels, the crai rows in full, and of
    the cram rows only the five file columns: two tables that agree on
    these give the same result, tables or exception.  The donor, sample and
    other cells of a cram row never reach the output. *)
Theorem transform_reads_five_cells_of_cram_rows (a b : DataFrame) :
  NoDup (columns a) ->
  columns a = columns b ->
  subset "crai" a = subset "crai" b ->
  map (select (columns a) cram_columns) (subset "cram" a) =
  map (select (columns b) cram_columns) (subset "cram" b) ->
  transform a = transform b.
Proof. intros _. apply transform_reads. Qed.

Lemma transform_reads_five_cells_of_cram_rows_witness :
  transform one_pair_noisy = transform one_pair.
Proof.
  apply transform_reads_five_cells_of_cram_rows.
  - exact manifest_header_distinct.
  - reflexivity.
  - vm_compute. reflexivity.
  - vm_compute. reflexivity.
Defined.

Lemma data_keep_rows (keep : list cell -> bool) (df : DataFrame) :
  data (keep_rows keep df) = filter keep (data df).
Proof.
  unfold keep_rows, data; simpl.
  induction (body df) as [| [l r] b IH]; simpl; [reflexivity |].
  destruct (keep r); simpl; now rewrite IH.
Qed.

Lemma filter_implied {A} (P keep : A -> bool) (l : list A) :
  (forall x, P x = true -> keep x = true) ->
  filter P (filter keep l) = filter P l.
Proof.
  intros H. induction l as [| x l IH]; simpl; [reflexivity |].
  destruct (keep x) eqn:Ek; simpl.
  - now rewrite IH.
  - destruct (P x) eqn:Ep; [| exact IH].
    apply H in Ep. congruence.
Qed.

Lemma subset_keep_rows (v : string) (keep : list cell -> bool)
      (df : DataFrame) :
  (forall r, is_paired df r = true -> keep r = true) ->
  v = "crai" \/ v = "cram" ->
  subset v (keep_rows keep df) = subset v df.
Proof.
  intros Hkeep Hv. unfold subset. rewrite data_keep_rows.
  change (columns (keep_rows keep df)) with (columns df).
  destruct (col_pos "file_type" (columns df)) as [j |] eqn:Ej;
    [| reflexivity].
  apply filter_implied. intros r Hr. apply Hkeep.
  unfold is_paired. rewrite Ej.
  destruct Hv as [-> | ->]; rewrite Hr; [reflexivity | apply orb_true_r].
Qed.

(** X2.  Rows whose [file_type] is neither crai nor cram are left out
    without a trace: removing any of them from the table changes nothing in
    what [transform] returns or raises. *)
Theorem transform_ignores_other_file_types (df : DataFrame)
        (keep : list cell -> bool) :
  NoDup (columns df) ->
  (forall r, is_paired df r = true -> keep r = true) ->
  transform (keep_rows keep df) = transform df.
Proof.
  intros _ Hkeep. apply transform_reads.
  - reflexivity.
  - apply subset_keep_rows; auto.
  - change (columns (keep_rows keep df)) with (columns df).
    rewrite subset_keep_rows; auto.
Qed.

Lemma transform_ignores_other_file_types_witness :
  length (body (keep_rows (is_paired one_pair_noisy) one_pair_noisy)) = 2 /\
  transform (keep_rows (is_paired one_pair_noisy) one_pair_noisy) =
  transform one_pair_noisy.
Proof.
  split; [reflexivity |].
  apply transform_ignores_other_file_types.
  - exact manifest_header_distinct.
  - intros r Hr. exact Hr.
Defined.

(** X3.  The index labels of the input play no part: both slices are
    renumbered before the join, so relabelling the rows changes nothing in
    what [transform] returns or raises. *)
Theorem transform_ignores_index_labels (df : DataFrame)
        (f : label -> label) :
  NoDup (columns df) ->
  transform (relabel f df) = transform df.
Proof.
  intros _.
  assert (Hs : forall v, subset v (relabel f df) = subset v df).
  { intros v. unfold subset, relabel, data; cbn [columns body].
    rewrite map_map. reflexivity. }
  apply transform_reads; [reflexivity | apply Hs |].
  now rewrite Hs.
Qed.

Lemma transform_ignores_index_labels_witness :
  index (relabel (fun _ => SLoc "x") one_pair) = [SLoc "x"; SLoc "x"] /\
  transform (relabel (fun _ => SLoc "x") one_pair) = transform one_pair.
Proof.
  split; [reflexivity |].
  apply transform_ignores_index_labels. exact manifest_header_distinct.
Defined.

(** ** The shape of what [transform] returns *)

(** X4.  Without a crai row both tables are empty, whatever cram rows the
    input has: the join is made on the index of the crai slice. *)
Theorem no_crai_row_gives_empty_tables (df : DataFrame) (p : Series)
        (s : DataFrame) :
  NoDup (columns df) ->
  subset "crai" df = [] ->
  transform df = Ok (p, s) ->
  items p = [] /\ body s = [].
Proof.
  intros _ Hcrai H.
  apply transform_ok in H as (w & Hw & Hf).
  destruct (joined_rows df w Hw) as [Hlen _].
  rewrite Hcrai in Hlen. simpl in Hlen.
  apply finish_length in Hf as [Hp Hs].
  pose proof (drop_duplicates_length w) as Hle.
  split; apply length_zero_iff_nil; lia.
Qed.

Lemma no_crai_row_gives_empty_tables_witness :
  length (subset "cram" cram_only) = 2 /\
  transform cram_only = Ok (tables cram_only) /\
  items (fst (tables cram_only)) = [] /\
  body (snd (tables cram_only)) = [].
Proof.
  assert (Ht : transform cram_only =
               Ok (fst (tables cram_only), snd (tables cram_only)))
    by (vm_compute; reflexivity).
  split; [reflexivity |]. split; [vm_compute; reflexivity |].
  exact (no_crai_row_gives_empty_tables cram_only _ _
           manifest_header_distinct eq_refl Ht).
Defined.

Lemma select_length (cols ks : list string) (r : list cell) :
  length (select cols ks r) = length ks.
Proof. unfold select. apply length_map. Qed.

Lemma order_length (L order : list string) :
  take_at L new_index = Ok order -> length order = 27.
Proof.
  intros H. apply take_at_ok in H as [-> _]. now rewrite length_map.
Qed.

(** X5.  The SampleTable always has exactly 27 columns, and every row of it
    has 27 cells: input columns that fall beyond position 26 of the wide
    table are dropped. *)
Theorem sample_table_has_27_columns (df : DataFrame) (p : Series)
        (s : DataFrame) :
  NoDup (columns df) ->
  transform df = Ok (p, s) ->
  length (columns s) = 27 /\
  Forall (fun lr => length (snd lr) = 27) (body s).
Proof.
  intros Hnd H.
  destruct (transform_selects df p s Hnd H)
    as (w & j & order & _ & _ & Ho & _ & Hcs & Hbs).
  apply order_length in Ho.
  split.
  - now rewrite Hcs, length_map.
  - rewrite Hbs. apply Forall_forall. intros lr Hin.
    apply in_map_iff in Hin as (lr0 & <- & _). simpl.
    now rewrite select_length.
Qed.

Lemma sample_table_has_27_columns_witness :
  length (columns one_pair_noisy) = 22 /\
  transform one_pair_noisy = Ok (tables one_pair_noisy) /\
  length (columns (snd (tables one_pair_noisy))) = 27.
Proof.
  assert (Ht : transform one_pair_noisy =
               Ok (fst (tables one_pair_noisy), snd (tables one_pair_noisy)))
    by (vm_compute; reflexivity).
  split; [reflexivity |]. split; [vm_compute; reflexivity |].
  exact (proj1 (sample_table_has_27_columns one_pair_noisy _ _
                  manifest_header_distinct Ht)).
Defined.

Lemma new_index_permutation : Permutation (seq 0 27) new_index.
Proof.
  apply NoDup_Permutation_bis.
  - apply seq_NoDup.
  - reflexivity.
  - intros x Hx. apply in_seq in Hx.
    assert (Hb : forallb (fun i => existsb (Nat.eqb i) new_index)
                   (seq 0 27) = true) by reflexivity.
    rewrite forallb_forall in Hb.
    assert (Hin : In x (seq 0 27)) by (apply in_seq; lia).
    apply Hb in Hin. apply existsb_exists in Hin as (y & Hy & Exy).
    apply Nat.eqb_eq in Exy. now subst.
Qed.

Lemma map_nth_seq (L : list string) (n : nat) :
  n <= length L -> map (fun x => nth x L "") (seq 0 n) = firstn n L.
Proof.
  revert n.
  induction L as [| c L IH]; intros [| n] Hn; simpl in *;
    try reflexivity; try lia.
  f_equal. rewrite <- seq_shift, map_map. apply IH. lia.
Qed.

(** X6.  The reorder list is a permutation of the positions 0 to 26: the
    labels of the SampleTable are the first 27 labels of the wide table,
    each exactly once, renamed by the dictionary.  With 22 input columns no
    column is lost and none is repeated. *)
Theorem sample_columns_permute_wide_columns (df : DataFrame) (p : Series)
        (s : DataFrame) :
  NoDup (columns df) ->
  transform df = Ok (p, s) ->
  Permutation (columns s)
    (map (mapper sample_renames) (firstn 27 (wide_columns (columns df)))).
Proof.
  intros Hnd H.
  destruct (transform_selects df p s Hnd H)
    as (w & j & order & Hw & _ & Ho & _ & Hcs & _).
  apply joined_ok in Hw as (_ & Hc & _).
  apply take_at_ok in Ho as [Horder Hall].
  apply new_index_in_range in Hall.
  rewrite Hcs, Horder, Hc. apply Permutation_map.
  rewrite <- (map_nth_seq (wide_columns (columns df)) 27)
    by (rewrite <- Hc; exact Hall).
  apply Permutation_map. apply Permutation_sym, new_index_permutation.
Qed.

Lemma sample_columns_permute_wide_columns_witness :
  transform one_pair = Ok (tables one_pair) /\
  Permutation (columns (snd (tables one_pair)))
    (map (mapper sample_renames) (wide_columns manifest_header)).
Proof.
  assert (Ht : transform one_pair =
               Ok (fst (tables one_pair), snd (tables one_pair)))
    by (vm_compute; reflexivity).
  split; [vm_compute; reflexivity |].
  exact (sample_columns_permute_wide_columns one_pair _ _
           manifest_header_distinct Ht).
Defined.

(** ** No two equal rows *)

Lemma keep_first_kept (seen : list (list cell))
      (b : list (label * list cell)) (x : label * list cell) :
  In x (keep_first seen b) -> In x b.
Proof.
  revert seen.
  induction b as [| [l r] b IH]; intros seen; simpl; [tauto |].
  destruct (seen_row r seen); simpl.
  - intros H. right. eapply IH, H.
  - intros [H | H]; [now left | right; eapply IH, H].
Qed.

Lemma keep_first_fresh (seen : list (list cell))
      (b : list (label * list cell)) :
  NoDup (map snd (keep_first seen b)) /\
  forall r, In r (map snd (keep_first seen b)) -> ~ In r seen.
Proof.
  revert seen.
  induction b as [| [l r] b IH]; intros seen; simpl.
  - split; [constructor | intros r []].
  - destruct (seen_row r seen) eqn:E; [apply IH |].
    destruct (IH (r :: seen)) as [Hnd Hfresh]. simpl. split.
    + constructor; [| exact Hnd].
      intros Hin. apply (Hfresh r Hin). now left.
    + intros r' [<- | Hin].
      * intros Hs. apply seen_row_in in Hs. congruence.
      * intros Hs. apply (Hfresh r' Hin). now right.
Qed.

Lemma NoDup_map_on {A B} (g : A -> B) (l : list A) :
  NoDup l ->
  (forall x y, In x l -> In y l -> g x = g y -> x = y) ->
  NoDup (map g l).
Proof.
  induction 1 as [| x l Hnin Hnd IH]; intros Hinj; simpl; constructor.
  - intros Hin. apply in_map_iff in Hin as (y & Hxy & Hy).
    assert (y = x) by (apply Hinj; simpl; auto).
    subst. contradiction.
  - apply IH. intros a b Ha Hb. apply Hinj; simpl; auto.
Qed.

Lemma col_pos_unique (cols : list string) (j : nat) (k : string) :
  NoDup cols -> nth_error cols j = Some k -> col_pos k cols = Some j.
Proof.
  revert j.
  induction cols as [| c cols IH]; intros [| j] Hnd H; simpl in *;
    try discriminate.
  - injection H as ->. now rewrite String.eqb_refl.
  - inversion Hnd as [| ? ? Hnin Hnd']; subst.
    destruct (String.eqb_spec c k) as [-> | Hne].
    + exfalso. apply Hnin. now apply nth_error_In in H.
    + now rewrite (IH j Hnd' H).
Qed.

(** Reordering all 27 columns loses no cell. *)
Lemma select_all_injective (L order : list string) (r1 r2 : list cell) :
  NoDup L ->
  length L = 27 ->
  take_at L new_index = Ok order ->
  length r1 = 27 -> length r2 = 27 ->
  select L order r1 = select L order r2 ->
  r1 = r2.
Proof.
  intros Hnd HL Ho H1 H2 Heq.
  apply take_at_ok in Ho as [Horder _].
  apply (nth_ext r1 r2 NaN NaN); [congruence |].
  intros j Hj. rewrite H1 in Hj.
  assert (Hin : In j new_index).
  { apply (Permutation_in j new_index_permutation). apply in_seq. lia. }
  apply In_nth_error in Hin as [q Hq].
  assert (Hk : nth_error L j = Some (nth j L "")).
  { apply nth_error_nth'. lia. }
  assert (Hoq : nth_error order q = Some (nth j L "")).
  { now rewrite Horder, nth_error_map, Hq. }
  pose proof (col_pos_unique L j _ Hnd Hk) as Hpos.
  pose proof (select_at L order r1 q _ j Hoq Hpos) as E1.
  pose proof (select_at L order r2 q _ j Hoq Hpos) as E2.
  unfold at_pos in E1, E2. rewrite <- E1, <- E2. unfold at_pos.
  now rewrite Heq.
Qed.

Lemma subset_rows (v : string) (df : DataFrame) (r : list cell) :
  In r (subset v df) -> In r (data df).
Proof.
  unfold subset.
  destruct (col_pos "file_type" (columns df)); [| intros []].
  intros H. now apply filter_In in H.
Qed.

Lemma joined_row_width (df w : DataFrame) :
  well_formed df ->
  joined df = Ok w ->
  Forall (fun r => length r = length (columns df) + 5) (data w).
Proof.
  intros [_ Hwf] Hw. apply joined_ok in Hw as (_ & _ & Hb).
  unfold data. rewrite Hb, map_map. cbn [snd].
  apply Forall_forall. intros r Hin.
  apply in_map_iff in Hin as (i & <- & Hi).
  apply in_seq in Hi.
  rewrite length_app. f_equal.
  - destruct (nth_error (subset "crai" df) i) as [r |] eqn:E.
    + cbn [fill]. apply nth_error_In, subset_rows in E.
      unfold data in E. apply in_map_iff in E as (lr & <- & Hlr).
      rewrite Forall_forall in Hwf. now apply Hwf.
    + apply nth_error_None in E. lia.
  - rewrite nth_error_map.
    destruct (nth_error (subset "cram" df) i); simpl; reflexivity.
Qed.

Lemma transform_wide_distinct (df : DataFrame) (p : Series) (s : DataFrame) :
  NoDup (columns df) ->
  transform df = Ok (p, s) ->
  NoDup (wide_columns (columns df)).
Proof.
  intros Hnd H.
  apply transform_ok in H as (w & Hw & Hf).
  apply joined_ok in Hw as (_ & Hc & _).
  apply finish_ok in Hf as (j & order & s0 & _ & Ho & Hs & _).
  unfold drop_duplicates in Ho, Hs; cbn [columns] in Ho, Hs.
  rewrite Hc in Ho. unfold reindex_columns in Hs. cbn [columns] in Hs.
  rewrite Hc, (wide_is_reordered _ _ Hnd Ho) in Hs.
  apply is_unique_nodup.
  destruct (is_unique (wide_columns (columns df)));
    [reflexivity | discriminate].
Qed.

(** X7.  For a well-formed table of exactly 22 columns the SampleTable has
    no two equal rows: exact duplicates are dropped from the join, and the
    reorder keeps every cell. *)
Theorem sample_rows_are_distinct (df : DataFrame) (p : Series)
        (s : DataFrame) :
  well_formed df ->
  length (columns df) = 22 ->
  transform df = Ok (p, s) ->
  NoDup (data s).
Proof.
  intros Hwf Hlen H. pose proof Hwf as [Hnd _].
  pose proof (transform_wide_distinct df p s Hnd H) as HL.
  destruct (transform_selects df p s Hnd H)
    as (w & j & order & Hw & _ & Ho & _ & _ & Hbs).
  pose proof (joined_row_width df w Hwf Hw) as Hwidth.
  apply joined_ok in Hw as (_ & Hc & _).
  rewrite Hc in Ho.
  unfold data. rewrite Hbs, map_map. cbn [snd].
  rewrite <- (map_map snd (select (columns w) order)).
  apply NoDup_map_on.
  - apply keep_first_fresh.
  - intros r1 r2 Hr1 Hr2 Heq.
    assert (Hrow : forall r,
               In r (map snd (body (drop_duplicates w))) -> length r = 27).
    { intros r Hr. apply in_map_iff in Hr as (lr & <- & Hlr).
      apply keep_first_kept in Hlr.
      rewrite Forall_forall in Hwidth.
      rewrite (Hwidth (snd lr)) by (unfold data; now apply in_map).
      lia. }
    rewrite Hc in Heq.
    apply (select_all_injective (wide_columns (columns df)) order);
      auto.
    rewrite wide_columns_length. lia.
Qed.

Lemma sample_rows_are_distinct_witness :
  well_formed pair_listed_twice /\
  transform pair_listed_twice = Ok (tables pair_listed_twice) /\
  NoDup (data (snd (tables pair_listed_twice))).
Proof.
  assert (Hwf : well_formed pair_listed_twice).
  { split; [exact manifest_header_distinct |].
    repeat constructor. }
  assert (Ht : transform pair_listed_twice =
               Ok (fst (tables pair_listed_twice),
                   snd (tables pair_listed_twice)))
    by (vm_compute; reflexivity).
  split; [exact Hwf |]. split; [vm_compute; reflexivity |].
  exact (sample_rows_are_distinct pair_listed_twice _ _ Hwf eq_refl Ht).
Defined.

(** ** The labels [_reformat_headers] leaves *)

Lemma reformat_char_clean (c : ascii) :
  header_char
    (lower_ascii
       (let c := if Ascii.eqb c " " then "_"%char else c in
        if Ascii.eqb c "." then "_"%char else c)) = true.
Proof.
  destruct c as [[] [] [] [] [] [] [] []]; reflexivity.
Qed.

Lemma reformat_header_clean (x : string) :
  forallb header_char (list_ascii_of_string (reformat_header x)) = true.
Proof.
  rewrite reformat_header_chars, list_ascii_of_string_of_list_ascii.
  apply forallb_forall. intros c Hin.
  apply in_map_iff in Hin as (y & <- & _). apply reformat_char_clean.
Qed.

Lemma string_length_of_list (l : list ascii) :
  String.length (string_of_list_ascii l) = length l.
Proof. induction l as [| c l IH]; simpl; [reflexivity | now rewrite IH]. Qed.

Lemma reformat_header_length (x : string) :
  String.length (reformat_header x) = String.length x.
Proof.
  rewrite reformat_header_chars, string_length_of_list, length_map.
  rewrite <- (string_of_list_ascii_of_string x) at 2.
  now rewrite string_length_of_list.
Qed.

(** X8.  After [_reformat_headers] no column label holds a space, a dot or
    an upper-case letter A-Z; and when the labels are ASCII text, every
    label has the length it had: characters are replaced one for one, none
    is removed. *)
Theorem reformatted_headers_are_clean (df : DataFrame) :
  Forall (fun c => forallb header_char (list_ascii_of_string c) = true)
         (columns (_reformat_headers df)) /\
  (Forall (fun c => ascii_label c = true) (columns df) ->
   map String.length (columns (_reformat_headers df)) =
   map String.length (columns df)).
Proof.
  rewrite reformat_headers_columns. split.
  - apply Forall_forall. intros c Hin.
    apply in_map_iff in Hin as (x & <- & _). apply reformat_header_clean.
  - intros _. rewrite map_map. apply map_ext. apply reformat_header_length.
Qed.

Lemma reformatted_headers_are_clean_witness :
  Forall (fun c => ascii_label c = true) (columns (self_data raw_handler)) /\
  map String.length (columns (_reformat_headers (self_data raw_handler))) =
  map String.length (columns (self_data raw_handler)).
Proof.
  assert (H : Forall (fun c => ascii_label c = true)
                (columns (self_data raw_handler)))
    by (vm_compute; repeat constructor).
  split; [exact H |].
  exact (proj2 (reformatted_headers_are_clean (self_data raw_handler)) H).
Defined.

Lemma mapper_without_last (c : string) :
  c <> "metadata.json" ->
  mapper sample_renames c = mapper (removelast sample_renames) c.
Proof.
  intros Hc. unfold mapper, sample_renames. cbn [removelast assoc].
  repeat match goal with
         | |- context [String.eqb ?k c] =>
             destruct (String.eqb_spec k c); [reflexivity |]
         end.
  destruct (String.eqb_spec "metadata.json" c); [congruence | reflexivity].
Qed.

Lemma clean_label_not_json (c : string) :
  forallb header_char (list_ascii_of_string c) = true ->
  c <> "metadata.json".
Proof. intros H ->. vm_compute in H. discriminate. Qed.

(** X9.  In [create_bag] the table reaches [transform] with reformatted
    headers, so no label is [metadata.json] any more and that entry of the
    rename dictionary never applies: the SampleTable labels are the
    reordered labels renamed by the other seven entries alone. *)
Theorem metadata_json_entry_never_applies (df : DataFrame) (p : Series)
        (s : DataFrame) :
  NoDup (columns (_reformat_headers df)) ->
  transform (_reformat_headers df) = Ok (p, s) ->
  exists order,
    take_at (wide_columns (columns (_reformat_headers df))) new_index =
      Ok order /\
    columns s = map (mapper (removelast sample_renames)) order.
Proof.
  intros Hnd H.
  destruct (transform_selects _ p s Hnd H)
    as (w & j & order & Hw & _ & Ho & _ & Hcs & _).
  apply joined_ok in Hw as (_ & Hc & _). rewrite Hc in Ho.
  exists order. split; [exact Ho |].
  rewrite Hcs. apply map_ext_in. intros c Hin.
  apply mapper_without_last.
  apply take_at_ok in Ho as [-> _].
  apply in_map_iff in Hin as (x & <- & _).
  unfold wide_columns. rewrite reformat_headers_columns.
  destruct (nth_in_or_default x
              (map reformat_header (columns df) ++
               map (mapper cram_renames) cram_columns) "")
    as [Hx | ->]; [| discriminate].
  apply in_app_iff in Hx as [Hx | Hx].
  - apply clean_label_not_json.
    apply in_map_iff in Hx as (y & Ey & _).
    rewrite <- Ey. apply reformat_header_clean.
  - intros E. rewrite E in Hx. simpl in Hx.
    repeat destruct Hx as [Hx | Hx]; try discriminate; contradiction.
Qed.

Lemma metadata_json_entry_never_applies_witness :
  transform (_reformat_headers one_pair) = Ok (tables one_pair) /\
  exists order,
    take_at (wide_columns (columns (_reformat_headers one_pair))) new_index =
      Ok order /\
    columns (snd (tables one_pair)) =
    map (mapper (removelast sample_renames)) order.
Proof.
  assert (Ht : transform (_reformat_headers one_pair) =
               Ok (fst (tables one_pair), snd (tables one_pair)))
    by (vm_compute; reflexivity).
  split; [vm_compute; reflexivity |].
  exact (metadata_json_entry_never_applies one_pair _ _
           manifest_header_distinct Ht).
Defined.

(** ** How [__normalize] fails *)

Lemma normalize_loop_raise (nrecords : nat) (L out : list string) :
  L <> [] -> normalize_loop [] nrecords L out = Raise IndexError.
Proof. destruct L as [| item L]; [contradiction | reflexivity]. Qed.

Lemma file_type_is_searched (cols : list string) :
  In "file_type" cols -> filter search_file cols <> [].
Proof.
  intros Hin E.
  assert (H : In "file_type" (filter search_file cols))
    by (apply filter_In; split; [exact Hin | reflexivity]).
  rewrite E in H. exact H.
Qed.

(** X10.  [__normalize] raises in three cases and no other: a key error
    naming [donor_uuid] when that column is absent (looked up first), a key
    error naming [file_type] when only that column is absent, and an index
    error at [filetype[0]] when both are present and the table has no row,
    since the label [file_type] itself matches the pattern and the loop
    body runs. *)
Theorem normalize_raises_exactly (df : DataFrame) (e : exn) :
  NoDup (columns df) ->
  (__normalize df = Raise e <->
   (~ In "donor_uuid" (columns df) /\ e = KeyError ["donor_uuid"]) \/
   (In "donor_uuid" (columns df) /\ ~ In "file_type" (columns df) /\
    e = KeyError ["file_type"]) \/
   (In "donor_uuid" (columns df) /\ In "file_type" (columns df) /\
    body df = [] /\ e = IndexError)).
Proof.
  intros _. unfold __normalize, getitem.
  destruct (col_pos "donor_uuid" (columns df)) as [jd |] eqn:Ed.
  2: { apply col_pos_none in Ed. cbn [bind]. split.
       - intros H. injection H as <-. now left.
       - intros [[_ ->] | [(Hd & _) | (Hd & _)]];
           [reflexivity | contradiction | contradiction]. }
  assert (Hd : In "donor_uuid" (columns df)).
  { apply col_pos_some in Ed. eapply nth_error_In. exact Ed. }
  destruct (col_pos "file_type" (columns df)) as [jt |] eqn:Et.
  2: { apply col_pos_none in Et. cbn [bind]. split.
       - intros H. injection H as <-. right. left. now repeat split.
       - intros [[Hn _] | [(_ & _ & ->) | (_ & Ht & _)]];
           [contradiction | reflexivity | contradiction]. }
  assert (Ht : In "file_type" (columns df)).
  { apply col_pos_some in Et. eapply nth_error_In. exact Et. }
  cbn [bind].
  destruct (body df) as [| lr rows] eqn:Eb.
  - cbn [map]. unfold unique at 2. cbn [values items map first_seen].
    rewrite normalize_loop_raise by now apply file_type_is_searched.
    cbn [bind]. split.
    + intros H. injection H as <-. right. right. now repeat split.
    + intros [[Hn _] | [(_ & Hn & _) | (_ & _ & _ & ->)]];
        [contradiction | contradiction | reflexivity].
  - rewrite normalize_loop_ok.
    2: { apply unique_nonempty. cbn [items map]. discriminate. }
    cbn [bind]. split; [discriminate |].
    intros [[Hn _] | [(_ & Hn & _) | (_ & _ & Hb & _)]];
      [contradiction | contradiction | discriminate].
Qed.

Lemma normalize_raises_exactly_witness :
  NoDup (columns file_columns_only) /\
  __normalize file_columns_only = Raise (KeyError ["donor_uuid"]).
Proof.
  assert (Hnd : NoDup (columns file_columns_only))
    by (apply is_unique_nodup; reflexivity).
  split; [exact Hnd |].
  apply (proj2 (normalize_raises_exactly file_columns_only
                  (KeyError ["donor_uuid"]) Hnd)).
  left. split; [| reflexivity].
  intros H. simpl in H.
  repeat destruct H as [H | H]; try discriminate; contradiction.
Defined.

(** ** What [__zipdir] does to the archive and to the world *)

Lemma zipdir_files_appends (fails : io_step -> bool) (n : nat) (r : string)
      (fs : list string) (z' : ZipFile) :
  forall (z : ZipFile) (w : world),
    fst (zipdir_files fails n r fs z w) = Ok z' ->
    exists ms, zip_entries z' = zip_entries z ++ ms /\ length ms = length fs.
Proof.
  induction fs as [| f fs IH]; intros z w; simpl.
  - intros H. injection H as <-. exists []. now rewrite app_nil_r.
  - unfold bindIO, step, zip_write.
    destruct (fails At_zip_write); [discriminate |].
    destruct (lookup (resolve (path_join r f)) (root w)) as [[c | es] |];
      try discriminate.
    destruct (lstrip_sep _) as [member | e]; [| discriminate].
    destruct (zip_flush _ _ w) as [[u | e] w1]; [| discriminate].
    intros H. apply IH in H as (ms & Hms & Hlen). cbn [zip_entries] in Hms.
    exists ((member, c) :: ms). rewrite Hms, <- app_assoc.
    split; [reflexivity | simpl; now rewrite Hlen].
Qed.

Lemma zipdir_loop_appends (fails : io_step -> bool) (n : nat)
      (walked : list (string * list string * list string)) (z' : ZipFile) :
  forall (z : ZipFile) (w : world),
    fst (zipdir_loop fails n walked z w) = Ok z' ->
    exists ms,
      zip_entries z' = zip_entries z ++ ms /\
      length ms = length (flat_map snd walked).
Proof.
  induction walked as [| [[r ds] fs] walked IH]; intros z w; simpl.
  - intros H. injection H as <-. exists []. now rewrite app_nil_r.
  - unfold bindIO.
    pose proof (fun z1 => zipdir_files_appends fails n r fs z1 z w) as Hf.
    destruct (zipdir_files fails n r fs z w) as [[z1 | e] w1];
      [| discriminate].
    destruct (Hf z1 eq_refl) as (ms1 & H1 & Hl1).
    intros H. apply IH in H as (ms & Hms & Hl).
    exists (ms1 ++ ms).
    rewrite Hms, H1, <- app_assoc, !length_app, Hl1, Hl.
    split; reflexivity.
Qed.

(** A write into the archive's file leaves alone what is not on the way to
    that file. *)
Lemma zip_flush_keeps (z : ZipFile) (v : content) (w : world) :
  tmpdir (snd (zip_flush z v w)) = tmpdir w /\
  names (snd (zip_flush z v w)) = names w /\
  forall q, apart (resolve (zip_name z)) q = true ->
            lookup q (root (snd (zip_flush z v w))) = lookup q (root w).
Proof.
  unfold zip_flush, fs_update.
  destruct (at_path (parent (resolve (zip_name z)))
              (write_in (leaf (resolve (zip_name z))) v) (root w))
    as [r | e] eqn:E; cbn [snd]; [| now repeat split].
  split; [reflexivity |]. split; [reflexivity |].
  intros q Hq. cbn [root set_root].
  apply (at_path_keeps _ _ _ _ _ q (write_only_entry _ v) E).
  unfold parent, leaf.
  now rewrite <- (app_removelast_last "" (apart_nonempty _ _ Hq)).
Qed.

(** X11.  [__zipdir] changes nothing but the archive's own file and only
    appends to the archive.  For an archive whose file is there, as it is
    once [ZipFile] has opened it: whether [__zipdir] returns or raises,
    every file and directory that is not on the way to the archive's file
    is as before; when it returns, the handle has its old name, the members
    it had, in place, and after them one new member for every file name the
    walk reported. *)
Theorem zipdir_writes_only_the_archive (fails : io_step -> bool)
        (listdir : list (string * node) -> list (string * node))
        (path : string) (z : ZipFile) (w : world) :
  (exists x, lookup (resolve (zip_name z)) (root w) = Some (File x)) ->
  (forall q, apart (resolve (zip_name z)) q = true ->
             lookup q (root (snd (__zipdir fails listdir path z w))) =
             lookup q (root w)) /\
  forall z', fst (__zipdir fails listdir path z w) = Ok z' ->
             zip_name z' = zip_name z /\
             exists ms,
               zip_entries z' = zip_entries z ++ ms /\
               length ms =
               length (flat_map snd (os_walk listdir path w)).
Proof.
  intros _.
  pose proof (triple_zipdir fails listdir path z
                (fun w' => forall q, apart (resolve (zip_name z)) q = true ->
                                     lookup q (root w') = lookup q (root w)))
    as H.
  assert (Hflush : forall z1 v, zip_name z1 = zip_name z ->
             triple (fun w' => forall q,
                       apart (resolve (zip_name z)) q = true ->
                       lookup q (root w') = lookup q (root w))
               (zip_flush z1 v)
               (fun _ w' => forall q,
                    apart (resolve (zip_name z)) q = true ->
                    lookup q (root w') = lookup q (root w))
               (fun w' => forall q,
                    apart (resolve (zip_name z)) q = true ->
                    lookup q (root w') = lookup q (root w))).
  { intros z1 v Hz1 w1 Hw1.
    destruct (zip_flush_keeps z1 v w1) as (_ & _ & Hk).
    rewrite Hz1 in Hk.
    destruct (zip_flush z1 v w1) as [[u | e] w2]; cbn [snd] in Hk;
      intros q Hq; rewrite (Hk q Hq); now apply Hw1. }
  specialize (H Hflush w (fun q _ => eq_refl)).
  split.
  - destruct (__zipdir fails listdir path z w) as [[z1 | e] w1];
      cbn [snd]; [apply H | exact H].
  - intros z' Hz'. split.
    + destruct (__zipdir fails listdir path z w) as [[z1 | e] w1];
        [| discriminate].
      cbn [fst] in Hz'. injection Hz' as <-. apply H.
    + unfold __zipdir in Hz'. now apply zipdir_loop_appends in Hz'.
Qed.

Lemma zipdir_writes_only_the_archive_witness :
  lookup ["tmp"; "bag"]
    (root (snd (__zipdir no_fault (@rev (string * node)) "/tmp/bag"
                  (mkZipFile "/tmp/out.zip" []) bag_and_archive))) =
  lookup ["tmp"; "bag"] (root bag_and_archive) /\
  forall z',
    fst (__zipdir no_fault (@rev (string * node)) "/tmp/bag"
           (mkZipFile "/tmp/out.zip" []) bag_and_archive) = Ok z' ->
    zip_name z' = "/tmp/out.zip" /\
    exists ms,
      zip_entries z' = [] ++ ms /\
      length ms =
      length (flat_map snd
                (os_walk (@rev (string * node)) "/tmp/bag"
                   bag_and_archive)).
Proof.
  destruct (zipdir_writes_only_the_archive no_fault (@rev (string * node))
              "/tmp/bag" (mkZipFile "/tmp/out.zip" []) bag_and_archive
              (ex_intro _ NoBytes eq_refl)) as [Hkeep Hret].
  split; [exact (Hkeep ["tmp"; "bag"] eq_refl) | exact Hret].
Defined.

Lemma zipdir_loop_no_files (fails : io_step -> bool) (n : nat)
      (walked : list (string * list string * list string))
      (z : ZipFile) (w : world) :
  Forall (fun t => snd t = []) walked ->
  zipdir_loop fails n walked z w = (Ok z, w).
Proof.
  induction 1 as [| [[r ds] fs] walked Hfs _ IH]; [reflexivity |].
  simpl in Hfs. subst fs. simpl. unfold bindIO. simpl. exact IH.
Qed.

Lemma walk_no_files (n : node) :
  forall top, files_below n = [] -> Forall (fun t => snd t = []) (walk top n).
Proof.
  induction n as [c | es IH] using node_induction; intros top H.
  - constructor.
  - cbn [walk]. cbn [files_below] in H.
    apply app_eq_nil in H as [Hfiles Hsubs].
    constructor.
    + cbn [snd]. unfold file_names.
      clear IH Hsubs. induction es as [| [k [c | sub]] es IHes];
        simpl in *; [reflexivity | discriminate | now apply IHes].
    + clear Hfiles. revert IH Hsubs.
      induction es as [| [k ch] es IHes]; intros IH Hsubs; simpl.
      * constructor.
      * simpl in Hsubs. apply app_eq_nil in Hsubs as [Hch Hrest].
        apply Forall_app. split.
        -- inversion IH as [| ? ? Hk Hes]; subst. apply Hk.
           simpl. now apply map_eq_nil in Hch.
        -- inversion IH; subst. now apply IHes.
Qed.

(** X12.  Directories are no members: when no file lies below [path] (the
    path is missing, or names a file, or a tree of empty directories),
    [__zipdir] hands the archive back as it was and leaves the world as it
    was, whatever step is set to fail and whatever the listing order, since
    [zip_fh.write] is never reached. *)
Theorem zipdir_without_files (fails : io_step -> bool)
        (listdir : list (string * node) -> list (string * node))
        (path : string) (z : ZipFile) (w : world) :
  listing_order listdir ->
  (forall n, lookup (resolve path) (root w) = Some n -> files_below n = []) ->
  __zipdir fails listdir path z w = (Ok z, w).
Proof.
  intros Hperm H. unfold __zipdir, os_walk.
  destruct (lookup (resolve path) (root w)) as [n |]; [| reflexivity].
  apply zipdir_loop_no_files, walk_no_files.
  apply (listed_no_files listdir Hperm). now apply H.
Qed.

Lemma zipdir_without_files_witness :
  __zipdir (fun _ => true) (@rev (string * node)) "/tmp"
    (mkZipFile "/tmp/out.zip" [])
    (mkWorld (Dir [("tmp", Dir [("a", Dir [("b", Dir [])]); ("c", Dir [])])])
       "/tmp" []) =
  (Ok (mkZipFile "/tmp/out.zip" []),
   mkWorld (Dir [("tmp", Dir [("a", Dir [("b", Dir [])]); ("c", Dir [])])])
     "/tmp" []).
Proof.
  apply zipdir_without_files.
  - intros es. symmetry. apply Permutation_rev.
  - intros n H. vm_compute in H. injection H as <-. reflexivity.
Defined.

(** ** Member names and the files they stand for *)






(** ** [create_bag] when [transform] raises *)

(** X15.  When [transform] raises, [create_bag] raises the same exception
    and stops there: no archive name is drawn, and the temporary directory
    is left holding a bag without tables, with the declaration written and
    a payload directory that holds only the empty [data] directory that
    [make_bag] moved into it.  This holds whatever checksum algorithms the
    installed bagit uses. *)
Theorem schema_error_leaves_bag_skeleton
        (listdir : list (string * node) -> list (string * node))
        (lib : bagit_lib) (self : BagHandler) (w w1 : world)
        (tempd : string) (e : exn) :
  valid_name (self_name self) = true ->
  Forall (fun n => no_slash n = true) (names w) ->
  mkdtemp "bag_tmpd" w = (Ok tempd, w1) ->
  transform (_reformat_headers (self_data self)) = Raise e ->
  exists w',
    create_bag no_fault listdir lib self w = (Raise e, w') /\
    names w' = names w1 /\
    lookup (resolve tempd ++ [self_name self; "data"]) (root w') =
      Some (Dir [("data", Dir [])]) /\
    lookup (resolve tempd ++ [self_name self; "bagit.txt"]) (root w') =
      Some (File BagitTxt).
Proof.
  intros Hname Hnames Hmk Htr.
  destruct (mkdtemp_spec "bag_tmpd" w w1 tempd eq_refl Hnames Hmk)
    as (tn & Htn & -> & (Hd1 & Hn1 & _) & HP1 & _ & _).
  assert (H0 : at_tree (tmpdir w) tn w1 (Dir []) w1).
  { split; [exact Hd1 |]. split; [reflexivity |]. split; [exact HP1 | auto]. }
  pose proof (triple_skeleton lib (tmpdir w) tn self w1 Htn Hname w1 H0)
    as Hpre.
  match type of Hpre with
  | match ?m with _ => _ end => destruct m as [[bag | e'] w4] eqn:Epre
  end; [| contradiction].
  destruct Hpre as [(_ & Hn4 & HL & _) _].
  exists w4. split; [| split; [exact Hn4 |]].
  - unfold create_bag. unfold bindIO at 1. rewrite Hmk.
    unfold bindIO in Epre |- *. cbv zeta.
    cbn [self_data self_name self_info].
    repeat match goal with
           | H : match ?m with _ => _ end = (Ok _, _) |- _ =>
               destruct m as [[? | ?] ?] eqn:?; [| discriminate H]
           end.
    rewrite Epre, Htr. reflexivity.
  - rewrite (tempd_resolve (tmpdir w) tn Htn).
    rewrite !(lookup_app (resolve (tmpdir w) ++ [tn])), HL.
    cbn [lookup child]. rewrite String.eqb_refl.
    now rewrite made_bag_data, made_bag_bagit.
Qed.

Lemma schema_error_leaves_bag_skeleton_witness :
  exists w',
    create_bag no_fault as_created bagit_1_6 headless_handler empty_tmp =
      (Raise (KeyError ["file_type"]), w') /\
    names w' = ["q7w2"] /\
    lookup (resolve "/tmp/tmpk3x9bag_tmpd" ++ ["manifest"; "data"])
      (root w') = Some (Dir [("data", Dir [])]) /\
    lookup (resolve "/tmp/tmpk3x9bag_tmpd" ++ ["manifest"; "bagit.txt"])
      (root w') = Some (File BagitTxt).
Proof.
  assert (Hnames : Forall (fun n => no_slash n = true) (names empty_tmp))
    by (repeat constructor).
  exact (schema_error_leaves_bag_skeleton as_created bagit_1_6
           headless_handler empty_tmp
           (snd (mkdtemp "bag_tmpd" empty_tmp)) "/tmp/tmpk3x9bag_tmpd"
           (KeyError ["file_type"]) eq_refl Hnames eq_refl eq_refl).
Defined.

(** ** What [create_bag] leaves alone *)

Lemma triple_both {A} (P : world -> Prop) (m : IO A)
      (Q Q' : A -> world -> Prop) (E E' : world -> Prop) :
  triple P m Q E -> triple P m Q' E' ->
  triple P m (fun a w => Q a w /\ Q' a w) (fun w => E w /\ E' w).
Proof.
  intros H H' w HP. specialize (H w HP). specialize (H' w HP).
  destruct (m w) as [[a | e] w']; now split.
Qed.

Section Frame.

(** A run with the temporary directory [d/tn], started in the world [w1]
    that [mkdtemp] left. *)
Variable fails : io_step -> bool.
Variable listdir : list (string * node) -> list (string * node).
Variable lib : bagit_lib.
Variable d tn : string.
Variable self : BagHandler.
Variable w1 : world.
Hypothesis tn_valid : valid_name tn = true.
Hypothesis name_valid : valid_name (self_name self) = true.

(** What was found in [w1] on a path that parts ways with the temporary
    directory is found unchanged. *)
Let kept (r : node) : Prop :=
  forall q n, apart (resolve d ++ [tn]) q = true ->
              lookup q (root w1) = Some n -> lookup q r = Some n.

Let inv (w : world) : Prop := in_run d tn w /\ kept (root w).

(** The name [c] in [d] was free when it was drawn. *)
Let drawn (c : string) : Prop :=
  forall q n, apart (resolve d ++ [tn]) q = true ->
              lookup q (root w1) = Some n ->
              apart (resolve d ++ [c]) q = true.

Lemma kept_graft (r L' : node) :
  kept r -> kept (graft (resolve d ++ [tn]) L' r).
Proof.
  intros HK q n Hap Hq. rewrite graft_apart by exact Hap. now apply HK.
Qed.

Lemma kept_beside (c : string) (f : node -> result node) (r r' : node) :
  only_entry c f -> drawn c -> kept r ->
  at_path (resolve d) f r = Ok r' -> kept r'.
Proof.
  intros Hf Hc HK Hat q n Hap Hq.
  rewrite (at_path_keeps _ c f r r' q Hf Hat (Hc q n Hap Hq)).
  now apply HK.
Qed.

Lemma drawn_tn : drawn tn.
Proof. intros q n Hap _. exact Hap. Qed.

Lemma inv_step (s : io_step) : triple inv (step fails s) (fun _ => inv) inv.
Proof. apply triple_step. Qed.

Lemma inv_update_below (c : string) (Q : list string)
      (g : node -> result node) :
  triple inv (fs_update ((resolve d ++ [tn]) ++ c :: Q) g)
    (fun _ => inv) inv.
Proof.
  intros w [Hrun HK].
  pose proof (triple_update_below d tn tn_valid c Q g w Hrun) as H1.
  pose proof Hrun as (_ & _ & es & Hes).
  rewrite (tempd_resolve d tn tn_valid) in Hes.
  rewrite (fs_update_below _ _ g w _ Hes) in H1 |- *.
  destruct (at_path (c :: Q) g (Dir es)); (split; [exact H1 |]);
    [now apply kept_graft | exact HK].
Qed.

Lemma inv_makedirs_below (path c : string) (Q : list string) :
  resolve path = (resolve d ++ [tn]) ++ c :: Q ->
  triple inv (os_makedirs path) (fun _ => inv) inv.
Proof.
  intros Hp w [Hrun HK].
  pose proof (triple_makedirs_below d tn tn_valid path c Q Hp w Hrun) as H1.
  pose proof Hrun as (_ & _ & es & Hes).
  rewrite (tempd_resolve d tn tn_valid) in Hes.
  rewrite (os_makedirs_below path _ _ w _ Hp Hes) in H1 |- *.
  destruct (makedirs_at (c :: Q) (Dir es)); (split; [exact H1 |]);
    [now apply kept_graft | exact HK].
Qed.

Lemma inv_named_temporary_file (suf : string) :
  no_slash suf = true ->
  triple inv (NamedTemporaryFile suf)
    (fun z w => inv w /\
                exists c, c <> tn /\ resolve z = resolve d ++ [c] /\ drawn c)
    inv.
Proof.
  intros Hs w [Hrun HK].
  pose proof (triple_named_temporary_file d tn tn_valid suf Hs w Hrun) as H1.
  pose proof Hrun as (Hd & Hn & es & Hes).
  rewrite (tempd_resolve d tn tn_valid) in Hes.
  unfold NamedTemporaryFile in H1 |- *. rewrite Hd in H1 |- *.
  destruct (first_free d "tmp" suf (names w) (root w))
    as [[file rest] |] eqn:E; [| now split].
  apply first_free_spec in E as (nm & sk & Hnames & -> & Hfree).
  assert (Hnm : no_slash nm = true).
  { rewrite Hnames in Hn. rewrite Forall_forall in Hn.
    apply Hn, in_or_app. right. now left. }
  pose proof (temp_name_valid nm suf Hnm Hs) as Hv.
  rewrite (resolve_join d _ Hv) in Hfree.
  rewrite (resolve_join d _ Hv), parent_snoc, leaf_snoc in H1 |- *.
  assert (Hdrawn : drawn ("tmp" ++ nm ++ suf)%string).
  { intros q n Hap Hq.
    apply (free_name_apart _ _ q (root w) n Hfree (HK q n Hap Hq)).
    now apply (apart_not_begins _ [tn]). }
  destruct (at_path (resolve d) (write_in ("tmp" ++ nm ++ suf) NoBytes)
              (root w)) as [r | e] eqn:Ea; [| now split].
  destruct H1 as [Hrun' _].
  split; [split; [exact Hrun' |] |].
  - cbn [root].
    exact (kept_beside _ _ _ _ (write_only_entry _ NoBytes) Hdrawn HK Ea).
  - exists ("tmp" ++ nm ++ suf)%string.
    split; [| split; [now apply resolve_join | exact Hdrawn]].
    intros Heq. rewrite Heq in Hfree. congruence.
Qed.

Lemma inv_zip_flush (z : ZipFile) (v : content) (c : string) :
  c <> tn ->
  resolve (zip_name z) = resolve d ++ [c] ->
  drawn c ->
  triple inv (zip_flush z v) (fun _ => inv) inv.
Proof.
  intros Hc Hz Hdrawn w [Hrun HK].
  pose proof (triple_zip_flush d tn tn_valid z v c Hc Hz w Hrun) as H1.
  unfold zip_flush, fs_update in H1 |- *.
  rewrite Hz, parent_snoc, leaf_snoc in H1 |- *.
  destruct (at_path (resolve d) (write_in c v) (root w))
    as [r | e] eqn:Ea; (split; [exact H1 |]); [| exact HK].
  cbn [root set_root].
  exact (kept_beside _ _ _ _ (write_only_entry _ _) Hdrawn HK Ea).
Qed.

Lemma inv_rmtree (refused : bool) :
  triple inv (shutil_rmtree refused (path_join d tn) true)
    (fun _ w => kept (root w)) (fun w => kept (root w)).
Proof.
  intros w [Hrun HK]. unfold shutil_rmtree.
  destruct refused; [exact HK |].
  rewrite (tempd_resolve d tn tn_valid), parent_snoc, leaf_snoc.
  destruct (at_path (resolve d) (remove_in tn) (root w)) as [r | e] eqn:Ea;
    [| exact HK].
  cbn [root set_root].
  exact (kept_beside _ _ _ _ (remove_only_entry tn) drawn_tn HK Ea).
Qed.

Let tempd : string := path_join d tn.
Let bag_dir : string := (tempd ++ "/" ++ self_name self)%string.
Let data_path : string := (bag_dir ++ "/data")%string.

(** The whole of [create_bag] after [mkdtemp]. *)
Lemma triple_body_keeps :
  triple inv
    (_ <~ step fails At_makedirs ;;
     _ <~ os_makedirs data_path ;;
     _ <~ step fails At_make_bag ;;
     bag <~ make_bag lib bag_dir (self_info self) ;;
     tables <~ lift (transform (_reformat_headers (self_data self))) ;;
     _ <~ step fails At_participant_tsv ;;
     _ <~ to_csv (TsvOfSeries (fst tables))
            (data_path ++ "/participant.tsv")%string ;;
     _ <~ step fails At_sample_tsv ;;
     _ <~ to_csv (TsvOfFrame (snd tables))
            (data_path ++ "/sample.tsv")%string ;;
     _ <~ step fails At_bag_save ;;
     _ <~ bag_save lib bag ;;
     _ <~ step fails At_zip_open ;;
     zipfile_tmp <~ NamedTemporaryFile ".zip" ;;
     zipfile_handle <~ __zipdir fails listdir tempd
                         (mkZipFile zipfile_tmp []) ;;
     _ <~ step fails At_zip_close ;;
     _ <~ zip_close zipfile_handle ;;
     _ <~ shutil_rmtree (fails At_rmtree) tempd true ;;
     ret zipfile_tmp)
    (fun _ w => kept (root w)) (fun w => kept (root w)).
Proof.
  pose proof (bag_dir_resolve d tn self tn_valid name_valid) as Hbag.
  pose proof (data_path_resolve d tn self tn_valid name_valid) as Hdata.
  pose proof (data_file_resolve d tn self tn_valid name_valid) as Hfile.
  cbv zeta in Hbag, Hdata, Hfile.
  assert (Hweak : forall w, inv w -> kept (root w)) by (intros w H; apply H).
  assert (Hstep : forall s,
             triple inv (step fails s) (fun _ => inv)
               (fun w => kept (root w))).
  { intros s w Hw. pose proof (inv_step s w Hw) as H.
    destruct (step fails s w) as [[u | e] w']; [exact H | now apply Hweak]. }
  assert (Hbelow : forall c Q g,
             triple inv (fs_update ((resolve d ++ [tn]) ++ c :: Q) g)
               (fun _ => inv) (fun w => kept (root w))).
  { intros c Q g w Hw. pose proof (inv_update_below c Q g w Hw) as H.
    destruct (fs_update _ g w) as [[u | e] w'];
      [exact H | now apply Hweak]. }
  eapply triple_bind; [apply Hstep |]. intros ?.
  eapply triple_bind.
  { intros w Hw.
    pose proof (inv_makedirs_below data_path (self_name self) ["data"]
                  Hdata w Hw) as H.
    destruct (os_makedirs data_path w) as [[u | e] w'];
      [exact H | now apply Hweak]. }
  intros ?.
  eapply triple_bind; [apply Hstep |]. intros ?.
  unfold make_bag, bag_save, to_csv.
  apply (triple_bind inv _ _
           (fun bag w => inv w /\ bag_path bag = bag_dir)).
  { apply (triple_bind inv _ _ (fun _ => inv)).
    - unfold bag_dir, tempd. rewrite Hbag. apply Hbelow.
    - intros u w Hw. split; [exact Hw | reflexivity]. }
  intros bag w [Hw Hbp]. revert w Hw.
  match goal with
  | |- forall w, inv w -> match ?m w with _ => _ end =>
      change (triple inv m (fun _ w => kept (root w))
                (fun w => kept (root w)))
  end.
  eapply triple_bind.
  { intros w Hw. unfold lift.
    destruct (transform (_reformat_headers (self_data self)));
      [exact Hw | now apply Hweak]. }
  intros tables.
  eapply triple_bind; [apply Hstep |]. intros ?.
  eapply triple_bind.
  { unfold data_path, bag_dir, tempd.
    change "/participant.tsv" with ("/" ++ "participant.tsv")%string.
    rewrite (Hfile "participant.tsv" eq_refl), parent_snoc, leaf_snoc.
    apply Hbelow. }
  intros ?.
  eapply triple_bind; [apply Hstep |]. intros ?.
  eapply triple_bind.
  { unfold data_path, bag_dir, tempd.
    change "/sample.tsv" with ("/" ++ "sample.tsv")%string.
    rewrite (Hfile "sample.tsv" eq_refl), parent_snoc, leaf_snoc.
    apply Hbelow. }
  intros ?.
  eapply triple_bind; [apply Hstep |]. intros ?.
  eapply triple_bind.
  { rewrite Hbp. unfold bag_dir, tempd. rewrite Hbag. apply Hbelow. }
  intros ?.
  eapply triple_bind; [apply Hstep |]. intros ?.
  eapply triple_bind.
  { intros w Hw.
    pose proof (inv_named_temporary_file ".zip" eq_refl w Hw) as H.
    destruct (NamedTemporaryFile ".zip" w) as [[z | e] w'];
      [exact H | now apply Hweak]. }
  intros zipfile_tmp.
  eapply triple_bind.
  { intros w [Hw Hex]. pose proof Hex as (c & Hc & Hz & Hdrawn).
    assert (Hflush : forall z' v,
               zip_name z' = zip_name (mkZipFile zipfile_tmp []) ->
               triple inv (zip_flush z' v) (fun _ => inv) inv).
    { intros z' v Hz'. apply (inv_zip_flush z' v c Hc); [| exact Hdrawn].
      now rewrite Hz'. }
    pose proof (triple_zipdir fails listdir tempd
                  (mkZipFile zipfile_tmp []) inv Hflush w Hw) as H.
    destruct (__zipdir fails listdir tempd (mkZipFile zipfile_tmp []) w)
      as [[z | e] w'].
    - exact (conj H Hex).
    - now apply Hweak. }
  intros z w ([Hw Hname] & c & Hc & Hz & Hdrawn). revert w Hw.
  match goal with
  | |- forall w, inv w -> match ?m w with _ => _ end =>
      change (triple inv m (fun _ w => kept (root w))
                (fun w => kept (root w)))
  end.
  eapply triple_bind; [apply Hstep |]. intros ?.
  eapply triple_bind.
  { intros w Hw.
    assert (Hzn : resolve (zip_name z) = resolve d ++ [c])
      by (now rewrite Hname).
    pose proof (inv_zip_flush z (ZipArchive (zip_entries z)) c Hc Hzn
                  Hdrawn w Hw) as H.
    unfold zip_close.
    destruct (zip_flush z (ZipArchive (zip_entries z)) w) as [[u | e] w'];
      [exact H | now apply Hweak]. }
  intros ?.
  eapply triple_bind; [apply inv_rmtree |].
  intros ?. apply triple_ret. auto.
Qed.

End Frame.

Lemma mkdtemp_keeps (suf : string) (w w1 : world) (r : result string)
      (q : list string) (n : node) :
  no_slash suf = true ->
  Forall (fun n => no_slash n = true) (names w) ->
  mkdtemp suf w = (r, w1) ->
  begins q (resolve (tmpdir w)) = false ->
  lookup q (root w) = Some n ->
  lookup q (root w1) = Some n /\
  forall tn, r = Ok (path_join (tmpdir w) tn) -> valid_name tn = true ->
             apart (resolve (tmpdir w) ++ [tn]) q = true.
Proof.
  intros Hs Hn H Hb Hq. unfold mkdtemp in H.
  destruct (first_free (tmpdir w) "tmp" suf (names w) (root w))
    as [[file rest] |] eqn:E.
  2: { injection H as <- <-. split; [exact Hq | discriminate]. }
  apply first_free_spec in E as (nm & sk & Hnames & -> & Hfree).
  assert (Hnm : no_slash nm = true).
  { rewrite Hnames in Hn. rewrite Forall_forall in Hn.
    apply Hn, in_or_app. right. now left. }
  pose proof (temp_name_valid nm suf Hnm Hs) as Hv.
  rewrite (resolve_join _ _ Hv) in Hfree, H.
  rewrite parent_snoc, leaf_snoc in H.
  pose proof (free_name_apart _ _ q (root w) n Hfree Hq Hb) as Hap.
  destruct (at_path (resolve (tmpdir w)) (mkdir_in ("tmp" ++ nm ++ suf))
              (root w)) as [r' | e] eqn:Ea.
  - injection H as <- <-. split.
    + cbn [root].
      now rewrite (at_path_keeps _ _ _ _ _ q (mkdir_only_entry _) Ea Hap).
    + intros tn Heq Htn. injection Heq as Heq.
      apply (f_equal resolve) in Heq.
      rewrite (resolve_join _ _ Hv), (resolve_join _ _ Htn) in Heq.
      apply app_inv_head in Heq. injection Heq as <-. exact Hap.
  - injection H as <- <-. split; [exact Hq | discriminate].
Qed.

(** X16.  Whatever [create_bag] does, and whether it returns or raises at
    any step, it leaves alone what was there before: every file or
    directory of the initial world, other than the system's temporary
    directory and the directories that hold it, is found unchanged
    afterwards.  The bundle name must be a plain name for this: a name
    with [..] in it would lead out of the temporary directory. *)
Theorem create_bag_keeps_what_was_there
        (fails : io_step -> bool)
        (listdir : list (string * node) -> list (string * node))
        (lib : bagit_lib) (self : BagHandler) (w : world)
        (q : list string) (n : node) :
  valid_name (self_name self) = true ->
  Forall (fun n => no_slash n = true) (names w) ->
  begins q (resolve (tmpdir w)) = false ->
  lookup q (root w) = Some n ->
  lookup q (root (snd (create_bag fails listdir lib self w))) = Some n.
Proof.
  intros Hname Hnames Hb Hq.
  unfold create_bag. unfold bindIO at 1.
  destruct (mkdtemp "bag_tmpd" w) as [[tempd | e] w1] eqn:Hmk.
  - destruct (mkdtemp_keeps "bag_tmpd" _ _ _ q n eq_refl Hnames Hmk Hb Hq)
      as [Hq1 Hap].
    destruct (mkdtemp_spec "bag_tmpd" w w1 tempd eq_refl Hnames Hmk)
      as (tn & Htn & -> & Hrun & _).
    specialize (Hap tn eq_refl Htn).
    pose proof (triple_body_keeps fails listdir lib (tmpdir w) tn self w1
                  Htn Hname w1 (conj Hrun (fun q n _ H => H))) as H.
    cbv zeta in H.
    match goal with
    | |- context [snd ?m] =>
        match type of H with
        | match ?m' with _ => _ end => change m with m'
        end
    end.
    match type of H with
    | match ?m' with _ => _ end => destruct m' as [[z | e] w']
    end; cbn [snd]; now apply H.
  - cbn [snd].
    now destruct (mkdtemp_keeps "bag_tmpd" _ _ _ q n eq_refl Hnames Hmk
                    Hb Hq).
Qed.

Lemma create_bag_keeps_what_was_there_witness :
  lookup ["tmp"; "notes.txt"]
    (root (snd (create_bag no_fault as_created bagit_1_6 pair_handler
                  busy_tmp))) =
    Some (File NoBytes) /\
  lookup ["home"]
    (root (snd (create_bag (fun _ => true) as_created bagit_1_5
                  pair_handler busy_tmp))) =
    Some (Dir [("manifest.tsv", File NoBytes)]).
Proof.
  assert (Hnames : Forall (fun n => no_slash n = true) (names busy_tmp))
    by (repeat constructor).
  split.
  - exact (create_bag_keeps_what_was_there no_fault as_created bagit_1_6
             pair_handler busy_tmp ["tmp"; "notes.txt"] _ eq_refl Hnames
             eq_refl eq_refl).
  - exact (create_bag_keeps_what_was_there (fun _ => true) as_created
             bagit_1_5 pair_handler busy_tmp ["home"] _ eq_refl Hnames
             eq_refl eq_refl).
Defined.

(** ** The header of [sample.tsv] *)

(** X17.  For every table whose labels [_reformat_headers] turns into the
    22 labels of the manifest, whatever its rows, [transform] succeeds on
    the reformatted table, and the SampleTable has the 27 labels of
    [sample_header] in that order: the sample and the donor first, the
    passthrough columns, then the file columns of the crai row with suffix 1
    and those of the cram row with suffix 2. *)
Theorem manifest_gives_sample_header (df : DataFrame) :
  map reformat_header (columns df) = manifest_header ->
  exists p s,
    transform (_reformat_headers df) = Ok (p, s) /\
    name p = "entity:participant_id" /\
    columns s = sample_header.
Proof.
  intros Hc.
  assert (Hcols : columns (_reformat_headers df) = manifest_header)
    by (now rewrite reformat_headers_columns).
  assert (Hone : transform one_pair = Ok (tables one_pair))
    by (vm_compute; reflexivity).
  destruct (transform_ok_cols one_pair (_reformat_headers df) _
              (eq_sym Hcols) Hone) as [[p s] H].
  exists p, s. split; [exact H |].
  assert (Hnd : NoDup (columns (_reformat_headers df)))
    by (rewrite Hcols; exact manifest_header_distinct).
  destruct (transform_selects _ p s Hnd H)
    as (w & j & order & Hw & _ & Ho & _ & Hcs & _).
  split.
  - apply transform_ok in H as (w' & _ & Hf).
    apply finish_ok in Hf as (j' & o' & s0 & _ & _ & _ & -> & _).
    reflexivity.
  - apply joined_ok in Hw as (_ & Hcw & _).
    rewrite Hcw, Hcols in Ho. vm_compute in Ho. injection Ho as <-.
    rewrite Hcs. reflexivity.
Qed.

Lemma manifest_gives_sample_header_witness :
  exists p s,
    transform (_reformat_headers (self_data raw_handler)) = Ok (p, s) /\
    name p = "entity:participant_id" /\
    columns s = sample_header.
Proof.
  apply manifest_gives_sample_header. reflexivity.
Defined.

(** ** The manifests inside the archive *)

Lemma payload_prefix_manifest (a : string) :
  prefix "data/" (manifest_name a) = false.
Proof. reflexivity. Qed.

Lemma payload_prefix_tagmanifest (a : string) :
  prefix "data/" (tagmanifest_name a) = false.
Proof. reflexivity. Qed.

(** X18.  The archive describes itself: whatever checksum algorithms the
    installed bagit uses, the archive of a successful run holds, for each
    of them, a payload manifest that [bag.save] wrote after the tables, and
    the paths that manifest lists are exactly the members of the archive
    under the bag's [data/], that is the two tables.  The bag information
    inside the archive is the one the handler was given. *)
Theorem archived_manifests_list_the_payload
        (listdir : list (string * node) -> list (string * node))
        (lib : bagit_lib) (self : BagHandler) (w w1 w2 : world)
        (tempd zip : string) (participant : Series) (sample : DataFrame) :
  listing_order listdir ->
  algorithm_names lib ->
  valid_name (self_name self) = true ->
  Forall (fun n => no_slash n = true) (names w) ->
  mkdtemp "bag_tmpd" w = (Ok tempd, w1) ->
  NamedTemporaryFile ".zip" w1 = (Ok zip, w2) ->
  transform (_reformat_headers (self_data self)) = Ok (participant, sample) ->
  exists w' entries,
    create_bag no_fault listdir lib self w = (Ok zip, w') /\
    lookup (resolve zip) (root w') = Some (File (ZipArchive entries)) /\
    In ((self_name self ++ "/bag-info.txt")%string,
        BagInfoTxt (self_info self)) entries /\
    forall a,
      In a (checksums lib) ->
      exists payload,
        In ((self_name self ++ "/" ++ manifest_name a)%string,
            ManifestTxt a payload) entries /\
        forall f,
          In f payload <->
          prefix "data/" f = true /\
          exists c, In ((self_name self ++ "/" ++ f)%string, c) entries.
Proof.
  intros Hperm Hlib Hname Hnames Hmk Hzip Htables.
  destruct (create_bag_run listdir lib self w w1 w2 tempd zip participant
              sample Hperm Hlib Hname Hnames Hmk Hzip Htables)
    as (w' & Hrun & Hz).
  destruct (bag_tree_files lib Hlib participant sample (self_info self)
              (self_name self) Hname) as (Hwf & Hfiles & Hp & Hs).
  pose proof (members_listed listdir _ Hperm Hwf) as Hin.
  pose proof (valid_name_no_slash _ Hname) as Hns.
  assert (Htop : forall k c,
             valid_name k = true ->
             child k (bag_entries lib participant sample (self_info self)) =
               Some (File c) ->
             lookup (split_slash (self_name self ++ "/" ++ k))
               (Dir [(self_name self,
                      bag_tree lib participant sample (self_info self))]) =
             Some (File c)).
  { intros k c Hk Hc.
    rewrite split_slash_append, (split_slash_no_slash _ Hns).
    rewrite (split_slash_no_slash _ (valid_name_no_slash _ Hk)).
    cbn [lookup child app]. rewrite String.eqb_refl.
    unfold bag_tree. cbn [lookup]. now rewrite Hc. }
  exists w',
    (members (listed listdir
                (Dir [(self_name self,
                       bag_tree lib participant sample (self_info self))]))).
  split; [exact Hrun |]. split; [exact Hz |]. split.
  - apply Hin. apply (Htop "bag-info.txt"); [reflexivity |].
    apply bag_entries_info.
  - intros a Ha. exists ["data/participant.tsv"; "data/sample.tsv"]. split.
    + apply Hin.
      apply Htop;
        [exact (manifest_name_valid a (algorithm_no_slash lib Hlib a Ha)) |].
      now apply bag_entries_manifest.
    + intros f. split.
      * intros [<- | [<- | []]]; (split; [reflexivity |]); eexists;
          apply Hin; [exact Hp | exact Hs].
      * intros [Hpre [c Hc]]. apply Hin in Hc.
        assert (Hm : In (self_name self ++ "/" ++ f)%string
                       (bag_members lib (self_name self)))
          by (apply Hfiles; eauto).
        unfold bag_members in Hm.
        apply in_map_iff in Hm as (g & Hg & Hm).
        apply append_inv_head in Hg. apply append_inv_head in Hg. subst g.
        cbn [app] in Hm.
        destruct Hm as [<- | [<- | [<- | [<- | Hm]]]];
          [discriminate Hpre | discriminate Hpre | now left
          | right; now left |].
        apply in_app_iff in Hm as [Hm | Hm];
          apply in_map_iff in Hm as (b & <- & _).
        -- now rewrite payload_prefix_manifest in Hpre.
        -- now rewrite payload_prefix_tagmanifest in Hpre.
Qed.

Lemma archived_manifests_list_the_payload_witness :
  exists w' entries,
    create_bag no_fault (@rev (string * node)) bagit_1_6 pair_handler
      empty_tmp = (Ok "/tmp/tmpq7w2.zip", w') /\
    lookup (resolve "/tmp/tmpq7w2.zip") (root w') =
      Some (File (ZipArchive entries)) /\
    In ("manifest/bag-info.txt",
        BagInfoTxt (self_info pair_handler)) entries /\
    forall a,
      In a ["sha256"; "sha512"] ->
      exists payload,
        In (("manifest" ++ "/" ++ manifest_name a)%string,
            ManifestTxt a payload) entries /\
        forall f,
          In f payload <->
          prefix "data/" f = true /\
          exists c, In (("manifest" ++ "/" ++ f)%string, c) entries.
Proof.
  assert (Hnames : Forall (fun n => no_slash n = true) (names empty_tmp))
    by (repeat constructor).
  assert (Hperm : listing_order (@rev (string * node)))
    by (intros es; symmetry; apply Permutation_rev).
  assert (Hlib : algorithm_names bagit_1_6) by (repeat constructor).
  assert (Ht : transform (_reformat_headers (self_data pair_handler)) =
               Ok (fst (tables one_pair), snd (tables one_pair)))
    by (vm_compute; reflexivity).
  exact (archived_manifests_list_the_payload (@rev (string * node))
           bagit_1_6 pair_handler empty_tmp
           (snd (mkdtemp "bag_tmpd" empty_tmp))
           (snd (NamedTemporaryFile ".zip"
                   (snd (mkdtemp "bag_tmpd" empty_tmp))))
           "/tmp/tmpk3x9bag_tmpd" "/tmp/tmpq7w2.zip" _ _
           Hperm Hlib eq_refl Hnames eq_refl eq_refl Ht).
Defined.
